(** * Land-surface-temperature analysis scripts: model and properties

    The repository holds two Earth Engine scripts: the shapefile (area)
    tool and the point tool.  Both define the same [maskClouds] and
    [calculateLST] and then run their own analysis, [analyzeLSTForArea] and
    [analyzeLSTAtPoint].

    Conventions of the model:
    - numbers are exact rationals ([Q]); binary64 rounding is not modelled;
      the result of a standard-deviation reducer is kept symbolically as
      [VSqrt v], the square root of the population variance [v];
    - a band is a list of pixels over one fixed pixel grid (the analysis
      grid), every pixel carrying a value and a boolean mask; positions
      beyond the end of a band are outside its footprint, hence masked;
    - the geometry engine (intersection, coverage of grid cells, buffering)
      is an interface, [GeoEngine];
    - an evaluation error of the platform (selecting a missing band, a
      bitwise operation on a floating-point band) is [None];
    - a null property of a feature is the explicit value [VNull];
    - the analysis functions return what they print; of the map layers the
      most recent image is modelled, charts are not; the button handlers of
      the upload dialog are modelled by the effects they perform. *)

From Stdlib Require Import ZArith QArith Lia Zify Bool Ascii String Permutation Sorted.
From stdpp Require Import base option list gmap strings pretty fin_maps.

Local Open Scope Z_scope.

(* ===================================================================== *)
(** * Rasters *)
(* ===================================================================== *)

Record Pixel (A : Type) := mkPixel { pval : A; pmask : bool }.
Arguments mkPixel {A} _ _.
Arguments pval {A} _.
Arguments pmask {A} _.

(** A band is integer typed (the raw Landsat bands: digital numbers and the
    bit-packed QA band) or floating-point typed (derived bands). *)
Inductive Band :=
| IntBand (px : list (Pixel Z))
| DblBand (px : list (Pixel Q)).

Definition band_size (b : Band) : nat :=
  match b with IntBand px => length px | DblBand px => length px end.

(** Validity of pixel [i]: inside the band and unmasked. *)
Definition px_valid {A} (px : list (Pixel A)) (i : nat) : bool :=
  match px !! i with Some p => pmask p | None => false end.

Definition band_valid (b : Band) (i : nat) : bool :=
  match b with IntBand px => px_valid px i | DblBand px => px_valid px i end.

(** Values of a band as floating-point numbers. *)
Definition to_dbl (b : Band) : list (Pixel Q) :=
  match b with
  | IntBand px => (fun p => mkPixel (inject_Z (pval p)) (pmask p)) <$> px
  | DblBand px => px
  end.

Definition band_value (b : Band) (i : nat) : option Q := pval <$> to_dbl b !! i.

(** The geometry engine of the platform. *)
Class GeoEngine := {
  Geometry : Type;
  (** do two geometries intersect ([filterBounds] against a footprint) *)
  intersects : Geometry -> Geometry -> bool;
  (** does the region cover cell [i] of the grid at the given scale *)
  covers : Geometry -> Z -> nat -> bool;
  (** [g.buffer(d)] *)
  buffer : Geometry -> Z -> Geometry
}.

Section Raster.
Context `{GeoEngine}.

Record Image := mkImage {
  bands : list (string * Band);
  time_start : Z;            (* 'system:time_start', ms since the epoch *)
  cloud_cover : option Q;    (* 'CLOUD_COVER' *)
  footprint : Geometry       (* 'system:footprint' *)
}.

Definition band_names (image : Image) : list string := fst <$> bands image.

(** The first band of that name. *)
Fixpoint find_band (name : string) (l : list (string * Band)) : option Band :=
  match l with
  | [] => None
  | (n, b) :: l' => if String.eqb n name then Some b else find_band name l'
  end.

(** [image.select(name)]: the single-band image, an error when there is no
    such band. *)
Definition select (name : string) (image : Image) : option (string * Band) :=
  b ← find_band name (bands image); Some (name, b).

(** ** Per-pixel operators on single-band images *)

(** [x.bitwiseAnd(k)]: integer bands only. *)
Definition bitwiseAnd (x : string * Band) (k : Z) : option (string * Band) :=
  match x.2 with
  | IntBand px => Some (x.1, IntBand ((fun p => mkPixel (Z.land (pval p) k) (pmask p)) <$> px))
  | DblBand _ => None
  end.

(** [x.eq(k)]: 1 where the value equals [k], 0 elsewhere. *)
Definition eq_ (x : string * Band) (k : Z) : string * Band :=
  (x.1, IntBand ((fun p => mkPixel (if Qeq_bool (pval p) (inject_Z k) then 1 else 0) (pmask p))
                   <$> to_dbl x.2)).

(** [x.and(y)]: 1 where both values are non-zero; masked where either
    input is. *)
Definition and_ (x y : string * Band) : string * Band :=
  (x.1, IntBand (zip_with
     (fun p q => mkPixel (if negb (Qeq_bool (pval p) 0) && negb (Qeq_bool (pval q) 0) then 1 else 0)
                         (pmask p && pmask q))
     (to_dbl x.2) (to_dbl y.2))).

(** Is the mask image set at cell [i]: present, unmasked and non-zero. *)
Definition mask_set (m : string * Band) (i : nat) : bool :=
  match to_dbl m.2 !! i with
  | Some p => pmask p && negb (Qeq_bool (pval p) 0)
  | None => false
  end.

Definition px_updateMask {A} (m : string * Band) (i : nat) (p : Pixel A) : Pixel A :=
  mkPixel (pval p) (pmask p && mask_set m i).

Definition band_updateMask (m : string * Band) (b : Band) : Band :=
  match b with
  | IntBand px => IntBand (imap (px_updateMask m) px)
  | DblBand px => DblBand (imap (px_updateMask m) px)
  end.

(** [image.updateMask(m)]: the single-band mask is applied to every band;
    values, metadata and footprint are kept. *)
Definition updateMask (image : Image) (m : string * Band) : Image :=
  mkImage ((fun nb => (nb.1, band_updateMask m nb.2)) <$> bands image)
          (time_start image) (cloud_cover image) (footprint image).

Definition band_arith (f : Q -> Q) (x : string * Band) : string * Band :=
  (x.1, DblBand ((fun p => mkPixel (f (pval p)) (pmask p)) <$> to_dbl x.2)).

Definition multiply (x : string * Band) (c : Q) := band_arith (fun v => v * c)%Q x.
Definition add (x : string * Band) (c : Q) := band_arith (fun v => v + c)%Q x.
Definition subtract (x : string * Band) (c : Q) := band_arith (fun v => v - c)%Q x.

Definition rename (x : string * Band) (name : string) : string * Band := (name, x.2).

(** [addBands] without overwrite: a band whose name is taken is added under
    the name with the first free suffix [_1], [_2], ... *)
Definition fresh_name (taken : list string) (name : string) : string :=
  if bool_decide (name ∈ taken) then
    let candidates := (fun k => name +:+ "_" +:+ pretty k) <$> seq 1 (S (length taken)) in
    default name (List.find (fun c => negb (bool_decide (c ∈ taken))) candidates)
  else name.

Definition addBands (image : Image) (x : string * Band) : Image :=
  mkImage (bands image ++ [(fresh_name (band_names image) x.1, x.2)])
          (time_start image) (cloud_cover image) (footprint image).

(* ===================================================================== *)
(** * The two functions shared by both scripts *)
(* ===================================================================== *)

(** Function to mask clouds in Landsat images. *)
Definition maskClouds (image : Image) : option Image :=
  qa ← select "QA_PIXEL" image;
  shadow ← bitwiseAnd qa (Z.shiftl 1 3);   (* Cloud shadow *)
  cloud ← bitwiseAnd qa (Z.shiftl 1 4);    (* Cloud *)
  cirrus ← bitwiseAnd qa (Z.shiftl 1 2);   (* Cirrus *)
  let cloudMask := and_ (and_ (eq_ shadow 0) (eq_ cloud 0)) (eq_ cirrus 0) in
  Some (updateMask image cloudMask).

(** The calibration of one digital number, the specification's [f]. *)
Definition lst_of_dn (dn : Q) : Q := (dn * 0.00341802 + 149.0 - 273.15)%Q.

(** Function to calculate LST from Landsat Collection 2. *)
Definition calculateLST (image : Image) : option Image :=
  st ← select "ST_B10" image;
  let lst := rename (subtract (add (multiply st 0.00341802%Q)  (* Scale factor *)
                                   149.0%Q)                     (* Offset *)
                              273.15%Q)                         (* Kelvin to Celsius *)
                    "LST" in
  Some (addBands image lst).

End Raster.

(* ===================================================================== *)
(** * Dates ([ee.Date], UTC, proleptic Gregorian calendar) *)
(* ===================================================================== *)

Definition ms_per_day : Z := 86400000.

(** Day number (days since 1970-01-01) of a timestamp. *)
Definition day_number (t : Z) : Z := t / ms_per_day.

(** Day of the 400-year era, from the day number shifted to 0000-03-01. *)
Definition day_of_era (z : Z) : Z := (z + 719468) mod 146097.
Definition era (z : Z) : Z := (z + 719468) / 146097.

Definition year_of_era (doe : Z) : Z :=
  (doe - doe / 1460 + doe / 36524 - doe / 146096) / 365.

(** Day of the year that starts on March 1st. *)
Definition day_of_march_year (doe : Z) : Z :=
  let yoe := year_of_era doe in doe - (365 * yoe + yoe / 4 - yoe / 100).

(** Month index of a day of the March year: 0 is March, 11 is February. *)
Definition month_index (doy : Z) : Z := (5 * doy + 2) / 153.

Definition month_of_doy (doy : Z) : Z :=
  let mp := month_index doy in
  if mp <? 10 then mp + 3 else mp - 9.

Definition day_of_doy (doy : Z) : Z :=
  doy - (153 * month_index doy + 2) / 5 + 1.

(** Calendar month, day and year of a day number. *)
Definition civil_month (z : Z) : Z := month_of_doy (day_of_march_year (day_of_era z)).
Definition civil_day (z : Z) : Z := day_of_doy (day_of_march_year (day_of_era z)).
Definition civil_year (z : Z) : Z :=
  year_of_era (day_of_era z) + era z * 400 + (if civil_month z <=? 2 then 1 else 0).

(** [date.get('month')], [date.get('day')], [date.get('year')]. *)
Definition date_month (t : Z) : Z := civil_month (day_number t).
Definition date_day (t : Z) : Z := civil_day (day_number t).
Definition date_year (t : Z) : Z := civil_year (day_number t).

(** Day number of a calendar date; timestamp of its midnight. *)
Definition days_from_civil (y m d : Z) : Z :=
  let y' := if m <=? 2 then y - 1 else y in
  let yoe := y' mod 400 in
  let doy := (153 * (if m <=? 2 then m + 9 else m - 3) + 2) / 5 + d - 1 in
  (y' / 400) * 146097 + (yoe * 365 + yoe / 4 - yoe / 100 + doy) - 719468.

Definition date_millis (y m d : Z) : Z := days_from_civil y m d * ms_per_day.

(** [date.getRelative('day', 'year')]: 0-based day of the year. *)
Definition date_doy (t : Z) : Z :=
  day_number t - days_from_civil (date_year t) 1 1.

Definition pad (width : nat) (n : Z) : string :=
  let s := pretty n in
  String.concat "" (replicate (width - String.length s) "0") +:+ s.

(** [date.format('YYYY-MM-dd')]. *)
Definition date_format (t : Z) : string :=
  pad 4 (date_year t) +:+ "-" +:+ pad 2 (date_month t) +:+ "-" +:+ pad 2 (date_day t).

Definition is_digit (c : Ascii.ascii) : bool :=
  let n := nat_of_ascii c in (48 <=? n)%nat && (n <=? 57)%nat.

(** The shape [dddd-dd-dd] of an ISO 8601 calendar date. *)
Definition is_iso_date (s : string) : bool :=
  match s with
  | String y1 (String y2 (String y3 (String y4 (String h1
      (String m1 (String m2 (String h2 (String d1 (String d2 EmptyString))))))))) =>
      is_digit y1 && is_digit y2 && is_digit y3 && is_digit y4 &&
      Ascii.eqb h1 "-" && is_digit m1 && is_digit m2 &&
      Ascii.eqb h2 "-" && is_digit d1 && is_digit d2
  | _ => false
  end.

(** The configured values of both scripts. *)
Module Config.

Definition startDate : Z := date_millis 2014 1 1.
Definition endDate : Z := date_millis 2024 1 1.
Definition bufferSize : Z := 100.  (* meters *)
Definition scale : Z := 30.        (* Landsat resolution *)

End Config.

(* ===================================================================== *)
(** * Values, reducers, lists and feature collections *)
(* ===================================================================== *)

(** A property value of a feature, an element of an [ee.List], or the
    output of a reducer.  [VSqrt v] is the non-negative square root of
    [v]. *)
Inductive Value :=
| VNull
| VInt (z : Z)
| VNum (q : Q)
| VSqrt (q : Q)
| VStr (s : string).

(** A feature without geometry, [ee.Feature(null, {...})], and a
    dictionary: maps from property names to values. *)
Abbreviation Feature := (gmap string Value).

Definition qltb (a b : Q) : bool := negb (Qle_bool b a).

Definition as_number (v : Value) : option Q :=
  match v with
  | VInt z => Some (inject_Z z)
  | VNum q => Some q
  | _ => None
  end.

(** Equality of values as the filters see it: numbers by value. *)
Definition value_eqb (a b : Value) : bool :=
  match a, b with
  | VNull, VNull => true
  | VStr s, VStr t => String.eqb s t
  | VSqrt p, VSqrt q => Qeq_bool p q
  | VSqrt p, (VInt _ | VNum _) =>
      match as_number b with
      | Some q => Qle_bool 0 q && Qeq_bool (q * q) p
      | None => false
      end
  | (VInt _ | VNum _), VSqrt q =>
      match as_number a with
      | Some p => Qle_bool 0 p && Qeq_bool (p * p) q
      | None => false
      end
  | (VInt _ | VNum _), (VInt _ | VNum _) =>
      match as_number a, as_number b with
      | Some p, Some q => Qeq_bool p q
      | _, _ => false
      end
  | _, _ => false
  end.

(** The numbers of a list; reducers only see these. *)
Definition numbers (l : list Value) : list Q := omap as_number l.

(** ** Statistics over a list of numbers *)

Definition Qsum (l : list Q) : Q := foldr Qplus 0%Q l.

Definition mean (l : list Q) : Q := (Qsum l / inject_Z (Z.of_nat (length l)))%Q.

(** Population variance. *)
Definition variance (l : list Q) : Q :=
  mean ((fun x => (x - mean l) * (x - mean l))%Q <$> l).

Definition Qmin (a b : Q) : Q := if Qle_bool a b then a else b.
Definition Qmax (a b : Q) : Q := if Qle_bool a b then b else a.
Definition minimum (x : Q) (l : list Q) : Q := foldr Qmin x l.
Definition maximum (x : Q) (l : list Q) : Q := foldr Qmax x l.

Fixpoint insert_sorted (x : Q) (l : list Q) : list Q :=
  match l with
  | [] => [x]
  | y :: l' => if Qle_bool x y then x :: l else y :: insert_sorted x l'
  end.

Definition sort (l : list Q) : list Q := foldr insert_sorted [] l.

(** The middle of a list of sorted values, the mean of the two middle values
    for an even count. *)
Definition middle (s : list Q) : Q :=
  let n := length s in
  if Nat.even n
  then ((nth (n / 2 - 1) s 0 + nth (n / 2) s 0) / 2)%Q
  else nth (n / 2) s 0%Q.

Definition median (l : list Q) : Q := middle (sort l).

(** ** Reducers: a reducer with no input yields null *)

Definition on_nonempty (f : list Q -> Value) (l : list Q) : Value :=
  match l with [] => VNull | _ => f l end.

(** A basic reducer has one named output; [combine] with shared inputs
    joins a basic reducer to a reducer. *)
Definition Reducer1 : Type := string * (list Q -> Value).
Definition Reducer : Type := list Reducer1.

Definition Reducer_count : Reducer1 := ("count", fun l => VInt (Z.of_nat (length l))).
Definition Reducer_mean : Reducer1 := ("mean", on_nonempty (fun l => VNum (mean l))).
Definition Reducer_min : Reducer1 :=
  ("min", fun l => match l with [] => VNull | x :: l' => VNum (minimum x l') end).
Definition Reducer_max : Reducer1 :=
  ("max", fun l => match l with [] => VNull | x :: l' => VNum (maximum x l') end).
Definition Reducer_stdDev : Reducer1 := ("stdDev", on_nonempty (fun l => VSqrt (variance l))).
Definition Reducer_median : Reducer1 := ("median", on_nonempty (fun l => VNum (median l))).

Definition combine (r : Reducer) (reducer2 : Reducer1) : Reducer := r ++ [reducer2].

(** ** [ee.List] *)

(** [ee.List.sequence(a, b)] *)
Definition sequence (a b : Z) : list Value :=
  (fun k => VInt (a + Z.of_nat k)) <$> seq 0 (Z.to_nat (b - a + 1)).

(** [l.removeAll(other)] *)
Definition removeAll (other l : list Value) : list Value :=
  List.filter (fun v => negb (existsb (value_eqb v) other)) l.

(** [l.size()] *)
Definition size (l : list Value) : Value := VInt (Z.of_nat (length l)).

(** [l.reduce(reducer)] for a basic reducer. *)
Definition reduce (reducer : Reducer1) (l : list Value) : Value := reducer.2 (numbers l).

(** ** Feature collections *)

(** A property that is not set reads as null. *)
Definition prop (name : string) (f : Feature) : Value := default VNull (f !! name).

(** [ee.Filter.eq(name, v)] *)
Definition Filter_eq (name : string) (v : Value) (f : Feature) : bool :=
  value_eqb (prop name f) v.

(** [ee.Filter.neq(name, v)]; with [v] null it keeps the features whose
    property is set ("Filter out null values"). *)
Definition Filter_neq (name : string) (v : Value) (f : Feature) : bool :=
  negb (Filter_eq name v f).

(** [ee.Filter.inList(name, l)] *)
Definition Filter_inList (name : string) (l : list Value) (f : Feature) : bool :=
  existsb (value_eqb (prop name f)) l.

(** [fc.aggregate_array(name)]: the values of the property, in order. *)
Definition aggregate_array (name : string) (fc : list Feature) : list Value :=
  omap (fun f => f !! name) fc.

(** [fc.aggregate_mean(name)]: the mean of the non-null values. *)
Definition aggregate_mean (name : string) (fc : list Feature) : Value :=
  reduce Reducer_mean (aggregate_array name fc).

Section Collections.
Context `{GeoEngine}.

(** ** Image collections *)

Definition filterBounds (geometry : Geometry) (c : list Image) : list Image :=
  List.filter (fun image => intersects (footprint image) geometry) c.

(** [c.filterDate(start, end)]: start inclusive, end exclusive. *)
Definition filterDate (start_ end_ : Z) (c : list Image) : list Image :=
  List.filter (fun image => (start_ <=? time_start image) && (time_start image <? end_)) c.

(** [c.filter(ee.Filter.lt('CLOUD_COVER', limit))] *)
Definition filter_lt_CLOUD_COVER (limit : Q) (c : list Image) : list Image :=
  List.filter (fun image =>
            match cloud_cover image with
            | Some cc => qltb cc limit
            | None => false
            end) c.

Definition merge (c1 c2 : list Image) : list Image := c1 ++ c2.

(** ** [reduceRegion] *)

(** The inputs of the reducer: the values of the unmasked pixels of the
    band that the region covers at the given scale.  The pixel budget
    ([maxPixels], [bestEffort]) is never exhausted on the finite grid. *)
Definition region_values (x : string * Band) (geometry : Geometry) (scale : Z) : list Q :=
  omap id (imap (fun i p => if pmask p && covers geometry scale i then Some (pval p) else None)
                (to_dbl x.2)).

(** The dictionary of results: keyed by the band name for a reducer with
    one output, by band name and output name otherwise. *)
Definition reduceRegion (x : string * Band) (reducer : Reducer) (geometry : Geometry)
    (scale : Z) : Feature :=
  let inputs := region_values x geometry scale in
  match reducer with
  | [(_, f)] => {[ x.1 := f inputs ]}
  | _ => list_to_map ((fun o => (x.1 +:+ "_" +:+ o.1, o.2 inputs)) <$> reducer)
  end.

End Collections.

(* ===================================================================== *)
(** * The shapefile (area) tool *)
(* ===================================================================== *)

Module Area.

(** One line group of the seasonal printout. *)
Record SeasonReport := mkSeasonReport {
  season_name : string;
  season_count : Value;
  season_mean : Value;
  season_min : Value;
  season_max : Value
}.

Record Report := mkReport {
  rep_lstTimeSeries : list Feature;
  rep_validTimeSeries : list Feature;
  rep_stats : gmap string Value;
  rep_monthlyStats : list Feature;
  rep_yearlyLST : list Feature;
  rep_seasonal : list SeasonReport
}.

Section Analysis.
Context `{GeoEngine}.
(** The configuration variables and the image catalog
    ([ee.ImageCollection(id)]). *)
Variables (startDate endDate scale : Z).
Variable ImageCollection : string -> list Image.

Definition landsat8 (geometry : Geometry) : option (list Image) :=
  masked ← mapM maskClouds
    (filter_lt_CLOUD_COVER 30
      (filterDate startDate endDate
        (filterBounds geometry (ImageCollection "LANDSAT/LC08/C02/T1_L2"))));
  mapM calculateLST masked.

Definition landsat9 (geometry : Geometry) : option (list Image) :=
  masked ← mapM maskClouds
    (filter_lt_CLOUD_COVER 30
      (filterDate startDate endDate
        (filterBounds geometry (ImageCollection "LANDSAT/LC09/C02/T1_L2"))));
  mapM calculateLST masked.

(** Merge collections. *)
Definition allLandsat (geometry : Geometry) : option (list Image) :=
  l8 ← landsat8 geometry; l9 ← landsat9 geometry; Some (merge l8 l9).

(** Function to extract LST values for each image. *)
Definition extractLST (geometry : Geometry) (image : Image) : option Feature :=
  lst ← select "LST" image;
  let lstStats :=
    reduceRegion lst (combine (combine [Reducer_mean] Reducer_stdDev) Reducer_count)
                 geometry scale in
  LST_mean ← lstStats !! "LST_mean";
  LST_stdDev ← lstStats !! "LST_stdDev";
  LST_count ← lstStats !! "LST_count";
  Some (list_to_map
    [("date", VStr (date_format (time_start image)));
     ("LST_mean", LST_mean);
     ("LST_stdDev", LST_stdDev);
     ("LST_count", LST_count);
     ("year", VInt (date_year (time_start image)));
     ("month", VInt (date_month (time_start image)));
     ("day", VInt (date_day (time_start image)));
     ("doy", VInt (date_doy (time_start image)))]).

(** Extract LST time series. *)
Definition lstTimeSeries (geometry : Geometry) (allLandsat : list Image)
    : option (list Feature) :=
  mapM (extractLST geometry) allLandsat.

(** Filter out null values. *)
Definition validTimeSeries (lstTimeSeries : list Feature) : list Feature :=
  List.filter (Filter_neq "LST_mean" VNull) lstTimeSeries.

(** Calculate overall statistics. *)
Definition stats (validTimeSeries : list Feature) : gmap string Value :=
  let lstValues := aggregate_array "LST_mean" validTimeSeries in
  let validLST := removeAll [VNull] lstValues in
  list_to_map
    [("count", size validLST);
     ("mean", reduce Reducer_mean validLST);
     ("min", reduce Reducer_min validLST);
     ("max", reduce Reducer_max validLST);
     ("std", reduce Reducer_stdDev validLST);
     ("median", reduce Reducer_median validLST)].

(** Monthly analysis. *)
Definition monthData (validTimeSeries : list Feature) (month : Value) : list Feature :=
  List.filter (Filter_eq "month" month) validTimeSeries.

Definition months : list Value := sequence 1 12.

Definition monthlyStats (validTimeSeries : list Feature) : list Feature :=
  (fun month =>
         let monthLST := aggregate_array "LST_mean" (monthData validTimeSeries month) in
         let validMonthLST := removeAll [VNull] monthLST in
         list_to_map
           [("month", month);
            ("count", size validMonthLST);
            ("mean_LST", reduce Reducer_mean validMonthLST);
            ("min_LST", reduce Reducer_min validMonthLST);
            ("max_LST", reduce Reducer_max validMonthLST)])
    <$> months.

(** Annual averages. *)
Definition yearData (validTimeSeries : list Feature) (year : Value) : list Feature :=
  List.filter (Filter_eq "year" year) validTimeSeries.

Definition years : list Value := sequence 2014 2023.

Definition yearlyLST (validTimeSeries : list Feature) : list Feature :=
  (fun year =>
         let yearLST := aggregate_array "LST_mean" (yearData validTimeSeries year) in
         let validYearLST := removeAll [VNull] yearLST in
         list_to_map
           [("year", year);
            ("count", size validYearLST);
            ("yearly_mean_LST", reduce Reducer_mean validYearLST);
            ("yearly_min_LST", reduce Reducer_min validYearLST);
            ("yearly_max_LST", reduce Reducer_max validYearLST)])
    <$> years.

(** Seasonal analysis. *)
Definition seasons : list (string * list Value) :=
  [("Winter (Dec-Feb)", [VInt 12; VInt 1; VInt 2]);
   ("Spring (Mar-May)", [VInt 3; VInt 4; VInt 5]);
   ("Monsoon (Jun-Aug)", [VInt 6; VInt 7; VInt 8]);
   ("Post-Monsoon (Sep-Nov)", [VInt 9; VInt 10; VInt 11])].

Definition seasonData (validTimeSeries : list Feature) (season : string * list Value)
    : list Feature :=
  List.filter (Filter_inList "month" season.2) validTimeSeries.

Definition seasonal (validTimeSeries : list Feature) : list SeasonReport :=
  (fun season =>
         let seasonLST := aggregate_array "LST_mean" (seasonData validTimeSeries season) in
         let validSeasonLST := removeAll [VNull] seasonLST in
         mkSeasonReport (season.1 +:+ ":")
                        (size validSeasonLST)
                        (reduce Reducer_mean validSeasonLST)
                        (reduce Reducer_min validSeasonLST)
                        (reduce Reducer_max validSeasonLST))
    <$> seasons.

(** Function to process LST for uploaded shapefile: everything it prints. *)
Definition analyzeLSTForArea (geometry : Geometry) : option Report :=
  allLandsat ← allLandsat geometry;
  lstTimeSeries ← lstTimeSeries geometry allLandsat;
  let validTimeSeries := validTimeSeries lstTimeSeries in
  Some (mkReport lstTimeSeries validTimeSeries (stats validTimeSeries)
                 (monthlyStats validTimeSeries) (yearlyLST validTimeSeries)
                 (seasonal validTimeSeries)).

End Analysis.
End Area.

(* ===================================================================== *)
(** * The point tool *)
(* ===================================================================== *)

Module Point.

Record Report := mkReport {
  rep_lstTimeSeries : list Feature;
  rep_stats : gmap string Value;
  rep_yearlyLST : list Feature
}.

Section Analysis.
Context `{GeoEngine}.
Variables (startDate endDate bufferSize scale : Z).
Variable ImageCollection : string -> list Image.

Definition landsat8 (point : Geometry) : option (list Image) :=
  masked ← mapM maskClouds
    (filter_lt_CLOUD_COVER 20
      (filterDate startDate endDate
        (filterBounds point (ImageCollection "LANDSAT/LC08/C02/T1_L2"))));
  mapM calculateLST masked.

Definition landsat9 (point : Geometry) : option (list Image) :=
  masked ← mapM maskClouds
    (filter_lt_CLOUD_COVER 20
      (filterDate startDate endDate
        (filterBounds point (ImageCollection "LANDSAT/LC09/C02/T1_L2"))));
  mapM calculateLST masked.

(** Merge collections. *)
Definition allLandsat (point : Geometry) : option (list Image) :=
  l8 ← landsat8 point; l9 ← landsat9 point; Some (merge l8 l9).

(** Function to extract LST values for each image; [buffer_] is the
    buffer around the point. *)
Definition extractLST (buffer_ : Geometry) (image : Image) : option Feature :=
  lst ← select "LST" image;
  let meanLST := reduceRegion lst [Reducer_mean] buffer_ scale in
  LST ← meanLST !! "LST";
  Some (list_to_map
    [("date", VStr (date_format (time_start image)));
     ("LST", LST);
     ("year", VInt (date_year (time_start image)));
     ("month", VInt (date_month (time_start image)));
     ("day", VInt (date_day (time_start image)))]).

(** Extract LST time series. *)
Definition lstTimeSeries (buffer_ : Geometry) (allLandsat : list Image)
    : option (list Feature) :=
  mapM (extractLST buffer_) allLandsat.

(** Calculate statistics. *)
Definition stats (lstTimeSeries : list Feature) : gmap string Value :=
  let lstValues := aggregate_array "LST" lstTimeSeries in
  let validLST := removeAll [VNull] lstValues in
  list_to_map
    [("count", size validLST);
     ("mean", reduce Reducer_mean validLST);
     ("min", reduce Reducer_min validLST);
     ("max", reduce Reducer_max validLST);
     ("std", reduce Reducer_stdDev validLST)].

(** Create annual averages. *)
Definition yearData (lstTimeSeries : list Feature) (year : Value) : list Feature :=
  List.filter (Filter_eq "year" year) lstTimeSeries.

Definition years : list Value := sequence 2014 2023.

Definition yearlyLST (lstTimeSeries : list Feature) : list Feature :=
  (fun year =>
         let yearlyMean := aggregate_mean "LST" (yearData lstTimeSeries year) in
         list_to_map [("year", year); ("yearly_mean_LST", yearlyMean)])
    <$> years.

(** Function to process LST for a given point: everything it prints. *)
Definition analyzeLSTAtPoint (point : Geometry) : option Report :=
  let buffer_ := buffer point bufferSize in
  allLandsat ← allLandsat point;
  lstTimeSeries ← lstTimeSeries buffer_ allLandsat;
  Some (mkReport lstTimeSeries (stats lstTimeSeries) (yearlyLST lstTimeSeries)).

End Analysis.
End Point.

(* ===================================================================== *)
(** * Vocabulary of the properties *)
(* ===================================================================== *)

(** Bounded universal checks by evaluation. *)
Definition Zall_step (f : Z -> bool) (st : Z * bool) : Z * bool :=
  (st.1 + 1, st.2 && f st.1).

Definition Zall (f : Z -> bool) (lo : Z) (n : N) : bool :=
  (N.iter n (Zall_step f) (lo, true)).2.

Definition digits2 (s : string) : bool :=
  match s with
  | String a (String b EmptyString) => is_digit a && is_digit b
  | _ => false
  end.

Definition digits4 (s : string) : bool :=
  match s with
  | String a (String b (String c (String d EmptyString))) =>
      is_digit a && is_digit b && is_digit c && is_digit d
  | _ => false
  end.

(** The flags of a QA value that [maskClouds] tests: cloud shadow (bit 3),
    cloud (bit 4), cirrus (bit 2). *)
Definition qa_flagged (v : Z) : bool :=
  Z.testbit v 3 || Z.testbit v 4 || Z.testbit v 2.

(** The QA pixel [i] is readable and none of its three flags is set. *)
Definition qa_clear_at (px : list (Pixel Z)) (i : nat) : bool :=
  match px !! i with
  | Some p => pmask p && negb (qa_flagged (pval p))
  | None => false
  end.

(** The means of the records that have one: the valid LST means. *)
Definition valid_means (name : string) (ts : list Feature) : list Q :=
  omap (fun r => as_number (prop name r)) ts.

(** An observation record: its aggregate is a number or null. *)
Definition observation (name : string) (r : Feature) : Prop :=
  prop name r = VNull \/ exists q, prop name r = VNum q.

Definition int_of (v : Value) : Z := match v with VInt n => n | _ => 0 end.
Definition count_of (row : Feature) : Z := int_of (prop "count" row).
Definition Zsum (l : list Z) : Z := foldr Z.add 0 l.

(** A statistics object holds the count, arithmetic mean, minimum, maximum
    and (population) standard deviation of the values. *)
Definition summarizes (st : gmap string Value) (vs : list Q) : Prop :=
  st !! "count" = Some (VInt (Z.of_nat (length vs))) /\
  (exists m, st !! "mean" = Some (VNum m) /\
     (m * inject_Z (Z.of_nat (length vs)) == Qsum vs)%Q) /\
  (exists m, st !! "min" = Some (VNum m) /\ m ∈ vs /\ forall x, x ∈ vs -> (m <= x)%Q) /\
  (exists m, st !! "max" = Some (VNum m) /\ m ∈ vs /\ forall x, x ∈ vs -> (x <= m)%Q) /\
  (exists v, st !! "std" = Some (VSqrt v) /\
     (v * inject_Z (Z.of_nat (length vs)) ==
      Qsum ((fun x => (x - mean vs) * (x - mean vs)) <$> vs))%Q).

(** A statistics object holds the median of the values: the middle of
    their sorted arrangement. *)
Definition has_median (st : gmap string Value) (vs : list Q) : Prop :=
  exists m s, st !! "median" = Some (VNum m) /\
    Permutation s vs /\ Sorted Qle s /\ m = middle s.

Section Vocabulary.
Context `{GeoEngine}.

(** The mask image that [maskClouds] computes from the QA pixels. *)
Definition cloudMask_of (name : string) (px : list (Pixel Z)) : string * Band :=
  let bit k :=
    (name, IntBand ((fun p => mkPixel (Z.land (pval p) (Z.shiftl 1 k)) (pmask p)) <$> px)) in
  and_ (and_ (eq_ (bit 3) 0) (eq_ (bit 4) 0)) (eq_ (bit 2) 0).

(** A pixel of an image is valid when it is valid in every band. *)
Definition image_valid (image : Image) (i : nat) : bool :=
  forallb (fun nb => band_valid nb.2 i) (bands image).

(** Cloud mask, then LST derivation. *)
Definition process (image : Image) : option Image :=
  masked ← maskClouds image; calculateLST masked.

(** The three conditions of the collection builder. *)
Definition selected (geometry : Geometry) (start_ end_ : Z) (limit : Q)
    (image : Image) : Prop :=
  intersects (footprint image) geometry = true /\
  start_ <= time_start image < end_ /\
  exists cc, cloud_cover image = Some cc /\ (cc < limit)%Q.

Definition selectedb (geometry : Geometry) (start_ end_ : Z) (limit : Q)
    (image : Image) : bool :=
  intersects (footprint image) geometry &&
  (((start_ <=? time_start image) && (time_start image <? end_)) &&
   match cloud_cover image with Some cc => qltb cc limit | None => false end).

(** What the two tools build from the two sources, for a cloud-cover limit:
    the merge of the processed selections, and so exactly the processed
    images of either source that meet the three conditions. *)
Definition built_from (source8 source9 : list Image) (geometry : Geometry)
    (start_ end_ : Z) (limit : Q) (built : list Image) : Prop :=
  (exists l8 l9,
     mapM process (List.filter (selectedb geometry start_ end_ limit) source8) = Some l8 /\
     mapM process (List.filter (selectedb geometry start_ end_ limit) source9) = Some l9 /\
     built = merge l8 l9) /\
  (forall out, out ∈ built <->
     exists image, (image ∈ source8 \/ image ∈ source9) /\
       selected geometry start_ end_ limit image /\ process image = Some out).

(** No pixel of the band is both unmasked and covered by the region. *)
Definition fully_masked (x : string * Band) (geometry : Geometry) (scale : Z) : Prop :=
  forall i, covers geometry scale i = true -> band_valid x.2 i = false.

(** The time series that each tool reports. *)
Definition rep_lstTimeSeries_of_area (startDate endDate scale : Z)
    (ImageCollection : string -> list Image) (geometry : Geometry) : option (list Feature) :=
  Area.rep_lstTimeSeries <$> Area.analyzeLSTForArea startDate endDate scale ImageCollection geometry.

Definition rep_lstTimeSeries_of_point (startDate endDate bufferSize scale : Z)
    (ImageCollection : string -> list Image) (point : Geometry) : option (list Feature) :=
  Point.rep_lstTimeSeries
    <$> Point.analyzeLSTAtPoint startDate endDate bufferSize scale ImageCollection point.

End Vocabulary.

(* ===================================================================== *)
(** * A concrete geometry engine and sample data *)
(* ===================================================================== *)

(** Geometries as sets of cells of a one-dimensional grid of 30 m cells. *)
Definition grid_engine : GeoEngine := {|
  Geometry := list nat;
  intersects := fun g1 g2 => existsb (fun c => bool_decide (c ∈ g2)) g1;
  covers := fun g _ i => bool_decide (i ∈ g);
  buffer := fun g d =>
    let k := Z.to_nat (d / 30) in
    flat_map (fun c => seq (c - k) (2 * k + 1)) g
|}.

Module Sample.
#[local] Existing Instance grid_engine.

Definition px {A} (v : A) : Pixel A := mkPixel v true.

(** A clear image, a partly cloudy image, an image under cloud everywhere,
    an image dated at the end of the range (so outside it), and an image
    with a cloud cover between the two limits.  QA values: 4 is cirrus,
    8 is cloud shadow, 16 is cloud. *)
Definition clear : Image :=
  mkImage [("ST_B10", IntBand [px 44000; px 45000; px 46000]);
           ("QA_PIXEL", IntBand [px 0; px 1; px 64])]
          (date_millis 2015 7 4) (Some 5%Q) [0%nat; 1%nat; 2%nat].

Definition partly : Image :=
  mkImage [("ST_B10", IntBand [px 44000; px 45000; mkPixel 46000 false]);
           ("QA_PIXEL", IntBand [px 16; px 0; px 0])]
          (date_millis 2016 12 25 + 3600000) (Some 12.5%Q) [0%nat; 1%nat; 2%nat].

Definition overcast : Image :=
  mkImage [("ST_B10", IntBand [px 40000; px 40000; px 40000]);
           ("QA_PIXEL", IntBand [px 8; px 16; px 4])]
          (date_millis 2015 3 1) (Some 19%Q) [0%nat; 1%nat; 2%nat].

Definition late : Image :=
  mkImage [("ST_B10", IntBand [px 44000; px 45000; px 46000]);
           ("QA_PIXEL", IntBand [px 0; px 0; px 0])]
          (date_millis 2024 1 1) (Some 1%Q) [0%nat; 1%nat; 2%nat].

Definition hazy : Image :=
  mkImage [("ST_B10", IntBand [px 44000; px 45000; px 46000]);
           ("QA_PIXEL", IntBand [px 0; px 0; px 0])]
          (date_millis 2020 5 17) (Some 25%Q) [1%nat; 2%nat].

Definition catalog (id : string) : list Image :=
  if String.eqb id "LANDSAT/LC08/C02/T1_L2" then [clear; partly; late]
  else if String.eqb id "LANDSAT/LC09/C02/T1_L2" then [overcast; hazy]
  else [].

Definition area : Geometry := [0%nat; 1%nat; 2%nat].
Definition point : Geometry := [1%nat].

(** A time series with the LST means 20, 25 and 30. *)
Definition record (month year : Z) (v : Value) : Feature :=
  list_to_map [("LST_mean", v); ("LST", v); ("month", VInt month); ("year", VInt year)].

Definition three : list Feature :=
  [record 1 2014 (VNum 20.0); record 6 2015 (VNum 25.0); record 6 2023 (VNum 30.0)].

(** The collections the two tools build from the catalog, their time
    series, and single results used below. *)
Definition processed (image : Image) : Image := default image (process image).

Definition built_area : list Image :=
  merge (processed <$> [clear; partly]) (processed <$> [overcast; hazy]).

Definition built_point : list Image :=
  merge (processed <$> [clear; partly]) (processed <$> [overcast]).

Definition series_area : list Feature :=
  default [] (Area.lstTimeSeries Config.scale area built_area).

Definition series_point : list Feature :=
  default [] (Point.lstTimeSeries Config.scale (buffer point Config.bufferSize) built_point).

Definition partly_masked : Image :=
  mkImage [("ST_B10", IntBand [mkPixel 44000 false; px 45000; mkPixel 46000 false]);
           ("QA_PIXEL", IntBand [mkPixel 16 false; px 0; px 0])]
          (date_millis 2016 12 25 + 3600000) (Some 12.5%Q) [0%nat; 1%nat; 2%nat].

Definition clear_thermal : Band := IntBand [px 44000; px 45000; px 46000].

Definition overcast_record : Feature :=
  list_to_map [("date", VStr "2015-03-01"); ("LST", VNull);
               ("year", VInt 2015); ("month", VInt 3); ("day", VInt 1)].

Definition clear_record_area : Feature :=
  default ∅ (Area.extractLST Config.scale area (processed clear)).

Definition clear_record_point : Feature :=
  default ∅ (Point.extractLST Config.scale (buffer point Config.bufferSize) (processed clear)).

End Sample.

From Stdlib Require Import Lqa.

(* ===================================================================== *)
(** * The map layer of the most recent image *)
(* ===================================================================== *)

Section RecentImage.
Context `{GeoEngine}.

(** [c.sort('system:time_start', false)]: descending by acquisition time. *)
Fixpoint insert_descending (image : Image) (c : list Image) : list Image :=
  match c with
  | [] => [image]
  | other :: c' =>
      if time_start other <? time_start image then image :: c
      else other :: insert_descending image c'
  end.

Definition sort_time_start_descending (c : list Image) : list Image :=
  foldr insert_descending [] c.

(** [c.first()]: null for an empty collection. *)
Definition first (c : list Image) : option Image := head c.

(** Get most recent LST image for visualization. *)
Definition recentImage (allLandsat : list Image) : option Image :=
  first (sort_time_start_descending allLandsat).

(** The layer both tools add to the map, [recentImage.select('LST')]; the
    area tool clips it to the geometry for display. *)
Definition recentLayer (allLandsat : list Image) : option (string * Band) :=
  recentImage allLandsat ≫= select "LST".

(** [a] may come before [b] in a collection sorted by descending time. *)
Definition not_earlier (a b : Image) : Prop := time_start b <= time_start a.

End RecentImage.

(* ===================================================================== *)
(** * More vocabulary *)
(* ===================================================================== *)

(** A row of bucket statistics holds the count, mean, minimum and maximum
    of the values, and null for the last three when there is no value. *)
Definition row_summarizes (count mean_ min_ max_ : Value) (vs : list Q) : Prop :=
  count = VInt (Z.of_nat (length vs)) /\
  match vs with
  | [] => mean_ = VNull /\ min_ = VNull /\ max_ = VNull
  | _ :: _ =>
      (exists m, mean_ = VNum m /\ (m * inject_Z (Z.of_nat (length vs)) == Qsum vs)%Q) /\
      (exists m, min_ = VNum m /\ m ∈ vs /\ forall x, x ∈ vs -> (m <= x)%Q) /\
      (exists m, max_ = VNum m /\ m ∈ vs /\ forall x, x ∈ vs -> (x <= m)%Q)
  end.

(** The digital numbers of an unsigned 16-bit band. *)
Definition uint16_band (b : Band) : Prop :=
  exists px, b = IntBand px /\ Forall (fun p => 0 <= pval p <= 65535) px.

(** A Landsat image as the analysis needs it: an integer QA band and a
    thermal band. *)
Definition well_formed `{GeoEngine} (image : Image) : Prop :=
  (exists px, find_band "QA_PIXEL" (bands image) = Some (IntBand px)) /\
  is_Some (find_band "ST_B10" (bands image)).

(** The date fields of a record: year, month, day and the ISO date. *)
Definition record_date (r : Feature) (y m d : Z) : Prop :=
  r !! "year" = Some (VInt y) /\ r !! "month" = Some (VInt m) /\
  r !! "day" = Some (VInt d) /\
  r !! "date" = Some (VStr (pad 4 y +:+ "-" +:+ pad 2 m +:+ "-" +:+ pad 2 d)).

(** A calendar day of the configured range. *)
Definition configured_day (y m d : Z) : Prop :=
  2014 <= y <= 2023 /\ 1 <= m <= 12 /\ 1 <= d <= 31 /\
  Config.startDate <= date_millis y m d < Config.endDate.

Section MoreVocabulary.
Context `{GeoEngine}.

(** The calibrated values of the thermal pixels that are unmasked, clear in
    the QA band and covered by the region. *)
Definition clear_inputs (px : list (Pixel Z)) (st : Band) (geometry : Geometry)
    (scale : Z) : list Q :=
  omap id (imap (fun i p =>
                   if pmask p && qa_clear_at px i && covers geometry scale i
                   then Some (lst_of_dn (pval p)) else None)
                (to_dbl st)).

End MoreVocabulary.

(* ===================================================================== *)
(** * The upload dialog of the area tool: the button handlers *)
(* ===================================================================== *)

Module Dialog.

(** A JavaScript number as [parseFloat] returns it. *)
Inductive Number :=
| NaN
| Finite (q : Q)
| Infinity (negative : bool).

Definition isNaN (x : Number) : bool :=
  match x with NaN => true | _ => false end.

(** The client-side descriptions the handlers build. *)
Inductive FeatureCollection :=
| Asset (assetPath : string)                                  (* ee.FeatureCollection(assetPath) *)
| filter_eq (fc : FeatureCollection) (name value : string).   (* fc.filter(ee.Filter.eq(name, value)) *)

Inductive GeometryExpr :=
| Rectangle (xMin yMin xMax yMax : Number)   (* ee.Geometry.Rectangle([xMin, yMin, xMax, yMax]) *)
| fc_geometry (fc : FeatureCollection)          (* fc.geometry() *)
| fc_first_geometry (fc : FeatureCollection).   (* fc.first().geometry() *)

(** What a handler does to the page, in order.  The argument of
    [analyzeLSTForArea] is [None] for [undefined]. *)
Inductive Effect :=
| loadButton_style (backgroundColor color : string)
| exampleButton_style (backgroundColor color : string)
| Map_remove_dialog
| print (args : list string)
| analyzeLSTForArea (geometry : option GeometryExpr).

(** How a block of statements completes. *)
Inductive Completion (A : Type) :=
| Normal (a : A)
| Return
| Throw (error : string).
Arguments Normal {A} a.
Arguments Return {A}.
Arguments Throw {A} error.

(** A handler computation: the effects performed and the completion. *)
Definition Handler (A : Type) : Type := list Effect * Completion A.

#[global] Instance Handler_ret : MRet Handler := fun A a => ([], Normal a).

#[global] Instance Handler_bind : MBind Handler := fun A B k m =>
  match m.2 with
  | Normal a => (m.1 ++ (k a).1, (k a).2)
  | Return => (m.1, Return)
  | Throw error => (m.1, Throw error)
  end.

Definition emit (e : Effect) : Handler () := ([e], Normal ()).
Definition return_ {A} : Handler A := ([], Return).
Definition throw {A} (error : string) : Handler A := ([], Throw error).

(** [try { body } catch (error) { handler }]: an exception of the body
    runs the handler; a [return] in the body leaves the function. *)
Definition try_catch (body : Handler ()) (handler : string -> Handler ()) : Handler () :=
  match body.2 with
  | Throw error => (body.1 ++ (handler error).1, (handler error).2)
  | _ => body
  end.

(** The values of the widgets, [widget.getValue()]; a text box that was
    never filled has no value. *)
Record Widgets := mkWidgets {
  methodSelect : string;
  exampleSelect : string;
  lonMinInput : option string;
  latMinInput : option string;
  lonMaxInput : option string;
  latMaxInput : option string;
  assetPathInput : option string;
  featureSelect : string;
  propertyInput : option string;
  valueInput : option string
}.

(** The items of the three selects. *)
Definition methodSelect_items : list string :=
  ["Use existing asset"; "Upload new shapefile"; "Use example data"].

Definition exampleSelect_items : list string :=
  ["Pokhara region (Rectangle)"; "Kathmandu Valley (Approx)"; "Nepal - Gandaki Province";
   "Custom coordinates"].

Definition featureSelect_items : list string :=
  ["Use all features (merged)"; "Use first feature only"; "Select by property"].

(** [!v] for the value of a text box: unset or empty. *)
Definition not_ (v : option string) : bool :=
  match v with
  | None | Some EmptyString => true
  | Some _ => false
  end.

Definition text (v : option string) : string := default "" v.

(** Use predefined example areas.  The object is only read at the value of
    the example select, one of its items, so a lookup that misses is
    [undefined]. *)
Definition examples : gmap string GeometryExpr :=
  list_to_map
    [("Pokhara region (Rectangle)",
      Rectangle (Finite 83.8) (Finite 28.1) (Finite 84.1) (Finite 28.3));
     ("Kathmandu Valley (Approx)",
      Rectangle (Finite 85.0) (Finite 27.5) (Finite 85.5) (Finite 27.9));
     ("Nepal - Gandaki Province",
      Rectangle (Finite 83.0) (Finite 27.8) (Finite 85.0) (Finite 29.0))].

Section Handlers.
(** The built-in [parseFloat]; the exception, if any, that the platform
    raises while a geometry is built from user input; the exception, if
    any, that the analysis raises. *)
Variable parseFloat : option string -> Number.
Variable construction_error : GeometryExpr -> option string.
Variable analysis_error : option GeometryExpr -> option string.

Definition construct (g : GeometryExpr) : Handler (option GeometryExpr) :=
  match construction_error g with
  | Some error => throw error
  | None => mret (Some g)
  end.

Definition call_analyzeLSTForArea (geometry : option GeometryExpr) : Handler () :=
  emit (analyzeLSTForArea geometry);;
  match analysis_error geometry with
  | Some error => throw error
  | None => mret ()
  end.

Definition loadButton_onClick (w : Widgets) : Handler () :=
  (* Change button to white when clicked *)
  emit (loadButton_style "white" "black");;
  let method := methodSelect w in
  if String.eqb method "Use example data" then
    let exampleType := exampleSelect w in
    geometry ←
      (if String.eqb exampleType "Custom coordinates" then
         let lonMin := parseFloat (lonMinInput w) in
         let latMin := parseFloat (latMinInput w) in
         let lonMax := parseFloat (lonMaxInput w) in
         let latMax := parseFloat (latMaxInput w) in
         if isNaN lonMin || isNaN latMin || isNaN lonMax || isNaN latMax then
           emit (print ["ERROR: Please enter valid coordinates"]);;
           emit (loadButton_style "#28a745" "black");;
           return_
         else construct (Rectangle lonMin latMin lonMax latMax)
       else mret (examples !! exampleType));
    emit Map_remove_dialog;;
    emit (print ["Loading example area:"; exampleType]);;
    call_analyzeLSTForArea geometry
  else
    let assetPath := assetPathInput w in
    if not_ assetPath then
      emit (print ["ERROR: Please enter an asset path"]);;
      emit (loadButton_style "#28a745" "black");;
      return_
    else
      emit (print ["Loading shapefile from:"; text assetPath]);;
      try_catch
        (let fc := Asset (text assetPath) in
         let selection := featureSelect w in
         geometry ←
           (if String.eqb selection "Use all features (merged)" then
              construct (fc_geometry fc)
            else if String.eqb selection "Use first feature only" then
              construct (fc_first_geometry fc)
            else if String.eqb selection "Select by property" then
              let propName := propertyInput w in
              let propValue := valueInput w in
              if not_ propName || not_ propValue then
                emit (print ["ERROR: Please enter both property name and value"]);;
                emit (loadButton_style "#28a745" "black");;
                return_
              else construct (fc_geometry (filter_eq fc (text propName) (text propValue)))
            else mret None);
         emit Map_remove_dialog;;
         emit (print ["Shapefile loaded successfully! Starting analysis..."]);;
         call_analyzeLSTForArea geometry)
        (fun error =>
           emit (print ["ERROR loading shapefile:"; error]);;
           emit (print ["Please check:"]);;
           emit (print ["1. Asset path is correct"]);;
           emit (print ["2. Asset has been shared (if not yours)"]);;
           emit (print ["3. Asset upload completed successfully"]);;
           emit (loadButton_style "#28a745" "black")).

Definition exampleButton_onClick : Handler () :=
  (* Change button to white when clicked *)
  emit (exampleButton_style "white" "black");;
  emit Map_remove_dialog;;
  emit (print ["Loading example area (Pokhara region)..."]);;
  let exampleGeometry := Rectangle (Finite 83.8) (Finite 28.1) (Finite 84.1) (Finite 28.3) in
  call_analyzeLSTForArea (Some exampleGeometry).

Definition cancelButton_onClick : Handler () :=
  emit Map_remove_dialog;;
  emit (print ["Upload cancelled. You can restart by refreshing the page."]).

End Handlers.

(** The page as the handlers change it: is the dialog on the map, the
    background colours of the two buttons, the console, and the calls of
    the analysis. *)
Record Page := mkPage {
  dialog_on_map : bool;
  loadButton_backgroundColor : string;
  exampleButton_backgroundColor : string;
  console : list (list string);
  analyses : list (option GeometryExpr)
}.

Definition perform (page : Page) (e : Effect) : Page :=
  match e with
  | loadButton_style backgroundColor _ =>
      mkPage (dialog_on_map page) backgroundColor (exampleButton_backgroundColor page)
             (console page) (analyses page)
  | exampleButton_style backgroundColor _ =>
      mkPage (dialog_on_map page) (loadButton_backgroundColor page) backgroundColor
             (console page) (analyses page)
  | Map_remove_dialog =>
      mkPage false (loadButton_backgroundColor page) (exampleButton_backgroundColor page)
             (console page) (analyses page)
  | print args =>
      mkPage (dialog_on_map page) (loadButton_backgroundColor page)
             (exampleButton_backgroundColor page) (console page ++ [args]) (analyses page)
  | analyzeLSTForArea geometry =>
      mkPage (dialog_on_map page) (loadButton_backgroundColor page)
             (exampleButton_backgroundColor page) (console page)
             (analyses page ++ [geometry])
  end.

Definition after (page : Page) (h : Handler ()) : Page := foldl perform page h.1.

(** The analysis calls of a trace, and whether it removes the dialog. *)
Definition calls (trace : list Effect) : list (option GeometryExpr) :=
  omap (fun e => match e with analyzeLSTForArea geometry => Some geometry | _ => None end) trace.

Definition removes_dialog (trace : list Effect) : bool :=
  existsb (fun e => match e with Map_remove_dialog => true | _ => false end) trace.

(** Effects on the buttons and the console only. *)
Definition cosmetic (e : Effect) : bool :=
  match e with
  | loadButton_style _ _ | exampleButton_style _ _ | print _ => true
  | Map_remove_dialog | analyzeLSTForArea _ => false
  end.

(** What the catch block of the load handler does. *)
Definition catch_trace (error : string) : list Effect :=
  [print ["ERROR loading shapefile:"; error];
   print ["Please check:"];
   print ["1. Asset path is correct"];
   print ["2. Asset has been shared (if not yours)"];
   print ["3. Asset upload completed successfully"];
   loadButton_style "#28a745" "black"].

(** The input that the load handler rejects: coordinates that do not
    parse, no asset path, or a property selection without name or value. *)
Definition rejected (parseFloat : option string -> Number) (w : Widgets) : Prop :=
  (methodSelect w = "Use example data" /\ exampleSelect w = "Custom coordinates" /\
   (parseFloat (lonMinInput w) = NaN \/ parseFloat (latMinInput w) = NaN \/
    parseFloat (lonMaxInput w) = NaN \/ parseFloat (latMaxInput w) = NaN)) \/
  (methodSelect w <> "Use example data" /\
   (assetPathInput w = None \/ assetPathInput w = Some "")) \/
  (methodSelect w <> "Use example data" /\
   (exists path, assetPathInput w = Some path /\ path <> "") /\
   featureSelect w = "Select by property" /\
   (propertyInput w = None \/ propertyInput w = Some "" \/
    valueInput w = None \/ valueInput w = Some "")).

(** The geometry the load handler builds from an asset, by the feature
    selection. *)
Definition asset_choice (w : Widgets) (ge : GeometryExpr) : Prop :=
  let fc := Asset (text (assetPathInput w)) in
  (featureSelect w = "Use all features (merged)" /\ ge = fc_geometry fc) \/
  (featureSelect w = "Use first feature only" /\ ge = fc_first_geometry fc) \/
  (featureSelect w = "Select by property" /\
   not_ (propertyInput w) || not_ (valueInput w) = false /\
   ge = fc_geometry (filter_eq fc (text (propertyInput w)) (text (valueInput w)))).

End Dialog.

(** Sample states of the dialog.  [readings] stands for [parseFloat] on
    the four numerals that the samples use; no platform call raises. *)
Module DialogSample.
Import Dialog.

Definition readings (v : option string) : Number :=
  let s := text v in
  if String.eqb s "83.8" then Finite 83.8
  else if String.eqb s "28.1" then Finite 28.1
  else if String.eqb s "84.1" then Finite 84.1
  else if String.eqb s "28.3" then Finite 28.3
  else NaN.

Definition no_error {A} (x : A) : option string := None.

(** The dialog as it opens, with the example method chosen. *)
Definition example_chosen : Widgets :=
  mkWidgets "Use example data" "Pokhara region (Rectangle)" None None None None
            None "Use all features (merged)" None None.

(** Custom coordinates with the latitude boxes left empty. *)
Definition custom_incomplete : Widgets :=
  mkWidgets "Use example data" "Custom coordinates" (Some "83.8") None (Some "84.1") None
            None "Use all features (merged)" None None.

Definition custom_complete : Widgets :=
  mkWidgets "Use example data" "Custom coordinates"
            (Some "83.8") (Some "28.1") (Some "84.1") (Some "28.3")
            None "Use all features (merged)" None None.

(** An asset with a selection by property. *)
Definition by_property : Widgets :=
  mkWidgets "Use existing asset" "Pokhara region (Rectangle)" None None None None
            (Some "users/someone/districts") "Select by property"
            (Some "DISTRICT") (Some "Kaski").

Definition opened : Page := mkPage true "#28a745" "#28a745" [] [].

End DialogSample.

(** The report of the area tool on the sample catalog. *)
Module SampleRun.
#[local] Existing Instance grid_engine.

Definition report_area : Area.Report :=
  default (Area.mkReport [] [] ∅ [] [] [])
          (Area.analyzeLSTForArea Config.startDate Config.endDate Config.scale
             Sample.catalog Sample.area).

Definition partly_qa : list (Pixel Z) := [Sample.px 16; Sample.px 0; Sample.px 0].

Definition partly_thermal : Band :=
  IntBand [Sample.px 44000; Sample.px 45000; mkPixel 46000 false].

End SampleRun.

(* ===================================================================== *)
(** * Properties: dates *)
(* ===================================================================== *)

Lemma Zall_iter f lo n :
  (N.iter n (Zall_step f) (lo, true)).1 = lo + Z.of_N n /\
  ((N.iter n (Zall_step f) (lo, true)).2 = true ->
   forall z, lo <= z < lo + Z.of_N n -> f z = true).
Proof.
  induction n as [|n [IH1 IH2]] using N.peano_ind.
  - simpl. split; [lia|]. intros _ z Hz. lia.
  - rewrite N.iter_succ. unfold Zall_step at 1 3. cbn [fst snd].
    rewrite IH1. split; [lia|].
    intros [Hn Hf]%andb_true_iff z Hz.
    destruct (Z.eq_dec z (lo + Z.of_N n)) as [->|Hne]; [done|].
    apply IH2; [done|lia].
Qed.

Lemma Zall_spec f lo n :
  Zall f lo n = true -> forall z, lo <= z < lo + Z.of_N n -> f z = true.
Proof. apply Zall_iter. Qed.

(** ** The calendar *)

Lemma day_of_march_year_range doe :
  0 <= doe < 146097 -> 0 <= day_of_march_year doe <= 365.
Proof.
  intros Hdoe. unfold day_of_march_year, year_of_era. cbv zeta.
  Z.to_euclidean_division_equations. lia.
Qed.

Lemma month_day_of_doy_range doy :
  0 <= doy <= 365 ->
  1 <= month_of_doy doy <= 12 /\ 1 <= day_of_doy doy <= 31.
Proof.
  intros Hdoy. unfold month_of_doy, day_of_doy, month_index. cbv zeta.
  destruct (Z.ltb_spec ((5 * doy + 2) / 153) 10);
    Z.to_euclidean_division_equations; lia.
Qed.

Lemma civil_month_day_range z :
  1 <= civil_month z <= 12 /\ 1 <= civil_day z <= 31.
Proof.
  unfold civil_month, civil_day. apply month_day_of_doy_range, day_of_march_year_range.
  unfold day_of_era. apply Z.mod_pos_bound. lia.
Qed.

(** The days of the configured range lie in the years 2014 to 2023. *)
Lemma config_days_year z : 16071 <= z < 19723 -> 2014 <= civil_year z <= 2023.
Proof.
  intros Hz. unfold civil_year, civil_month, day_of_era, era.
  assert (He : (z + 719468) / 146097 = 5) by (Z.to_euclidean_division_equations; lia).
  assert (Hd : (z + 719468) mod 146097 = z - 11017)
    by (Z.to_euclidean_division_equations; lia).
  rewrite He, Hd.
  set (doe := z - 11017). assert (Hdoe : 5054 <= doe < 8706) by (unfold doe; lia).
  clearbody doe. clear He Hd Hz z.
  assert (Hdoy : 0 <= day_of_march_year doe <= 365)
    by (apply day_of_march_year_range; lia).
  unfold month_of_doy, month_index.
  set (doy := day_of_march_year doe) in *.
  assert (Hy : 365 * year_of_era doe + year_of_era doe / 4 - year_of_era doe / 100
               = doe - doy).
  { unfold doy, day_of_march_year. cbv zeta. lia. }
  cbv zeta.
  destruct (Z.ltb_spec ((5 * doy + 2) / 153) 10) as [Hmp|Hmp];
    [destruct (Z.leb_spec ((5 * doy + 2) / 153 + 3) 2)
    |destruct (Z.leb_spec ((5 * doy + 2) / 153 - 9) 2)];
    Z.to_euclidean_division_equations; lia.
Qed.

Lemma config_range_days t :
  Config.startDate <= t < Config.endDate -> 16071 <= day_number t < 19723.
Proof.
  intros Ht. unfold day_number, ms_per_day.
  change Config.startDate with (16071 * 86400000) in Ht.
  change Config.endDate with (19723 * 86400000) in Ht.
  split.
  - apply Z.div_le_lower_bound; lia.
  - apply Z.div_lt_upper_bound; lia.
Qed.

Lemma config_range_year t :
  Config.startDate <= t < Config.endDate -> 2014 <= date_year t <= 2023.
Proof. intros Ht. apply config_days_year, config_range_days, Ht. Qed.

(** ** The text of a date *)

Lemma pad2_digits : Zall (fun n => digits2 (pad 2 n)) 0 100 = true.
Proof. vm_compute. reflexivity. Qed.

Lemma pad4_digits : Zall (fun n => digits4 (pad 4 n)) 0 10000 = true.
Proof. vm_compute. reflexivity. Qed.

Lemma iso_shape y m d :
  digits4 y = true -> digits2 m = true -> digits2 d = true ->
  is_iso_date (y +:+ "-" +:+ m +:+ "-" +:+ d) = true.
Proof.
  destruct y as [|y1 [|y2 [|y3 [|y4 [|]]]]]; try done.
  destruct m as [|m1 [|m2 [|]]]; try done.
  destruct d as [|d1 [|d2 [|]]]; try done.
  cbv [String.append digits4 digits2 is_iso_date]. intros Hy Hm Hd.
  rewrite Hy. apply andb_true_iff in Hm as [-> ->]. apply andb_true_iff in Hd as [-> ->].
  reflexivity.
Qed.

Lemma date_format_iso t :
  0 <= date_year t <= 9999 -> is_iso_date (date_format t) = true.
Proof.
  intros Hy. unfold date_format.
  destruct (civil_month_day_range (day_number t)) as [Hm Hd].
  apply iso_shape.
  - apply (Zall_spec _ _ _ pad4_digits). lia.
  - apply (Zall_spec _ _ _ pad2_digits). unfold date_month. lia.
  - apply (Zall_spec _ _ _ pad2_digits). unfold date_day. lia.
Qed.

(** On the configured range the calendar date of a day gives the day back. *)
Lemma civil_roundtrip_days :
  Zall (fun z => days_from_civil (civil_year z) (civil_month z) (civil_day z) =? z)
       16071 3652 = true.
Proof. vm_compute. reflexivity. Qed.

Lemma civil_roundtrip t :
  Config.startDate <= t < Config.endDate ->
  days_from_civil (date_year t) (date_month t) (date_day t) = day_number t.
Proof.
  intros Ht%config_range_days. unfold date_year, date_month, date_day.
  apply Z.eqb_eq, (Zall_spec _ _ _ civil_roundtrip_days). simpl. lia.
Qed.

(* ===================================================================== *)
(** * Properties: cloud mask and LST derivation *)
(* ===================================================================== *)

Section RasterFacts.
Context `{GeoEngine}.

Lemma find_band_app name (l l' : list (string * Band)) :
  find_band name (l ++ l') = match find_band name l with Some b => Some b | None => find_band name l' end.
Proof.
  induction l as [|[n b] l IH]; simpl; [done|].
  destruct (String.eqb n name); [done|apply IH].
Qed.

Lemma find_band_None name (l : list (string * Band)) :
  find_band name l = None <-> name ∉ l.*1.
Proof.
  induction l as [|[n b] l IH]; simpl.
  - split; [intros _; apply not_elem_of_nil|done].
  - destruct (String.eqb_spec n name) as [->|Hne].
    + split; [done|]. intros Hn. exfalso. apply Hn, elem_of_cons. by left.
    + rewrite IH, not_elem_of_cons. split; [by intros ?; split|by intros [_ ?]].
Qed.

Lemma find_band_fmap (f : Band -> Band) name (l : list (string * Band)) :
  find_band name ((fun nb => (nb.1, f nb.2)) <$> l) = f <$> find_band name l.
Proof.
  induction l as [|[n b] l IH]; simpl; [done|].
  destruct (String.eqb n name); [done|apply IH].
Qed.

Lemma fresh_name_free taken name : name ∉ taken -> fresh_name taken name = name.
Proof. intros Hn. unfold fresh_name. by rewrite bool_decide_eq_false_2. Qed.

(** The name under which a band is added is never taken: among the
    candidates [name_1 .. name_(n+1)] one is free of the [n] taken names. *)
Lemma fresh_name_fresh taken name : fresh_name taken name ∉ taken.
Proof.
  unfold fresh_name. case_bool_decide as Hin; [|done].
  set (cand := fun k : nat => name +:+ "_" +:+ pretty k).
  destruct (List.find _ (cand <$> seq 1 (S (length taken)))) as [c|] eqn:Hfind.
  - apply find_some in Hfind as [_ Hc]. simpl.
    apply negb_true_iff, bool_decide_eq_false in Hc. exact Hc.
  - exfalso.
    assert (Hall : forall k, (1 <= k <= S (length taken))%nat -> cand k ∈ taken).
    { intros k Hk.
      assert (Hk' : In (cand k) (cand <$> seq 1 (S (length taken)))).
      { apply list_elem_of_In, list_elem_of_fmap. exists k. split; [done|].
        apply elem_of_seq. lia. }
      pose proof (find_none _ _ Hfind _ Hk') as Hn.
      apply negb_false_iff, bool_decide_eq_true in Hn. exact Hn. }
    assert (Hinj : forall j k, cand j = cand k -> j = k).
    { intros j k Hjk. unfold cand in Hjk.
      apply (inj (String.append name)) in Hjk.
      apply (inj (String.append "_")) in Hjk.
      by apply (inj pretty) in Hjk. }
    assert (Hnd : NoDup (cand <$> seq 1 (S (length taken)))).
    { apply NoDup_fmap_2; [intros j k; apply Hinj|apply NoDup_seq]. }
    assert (Hsub : cand <$> seq 1 (S (length taken)) ⊆ taken).
    { intros c (k & -> & Hk%elem_of_seq)%list_elem_of_fmap. apply Hall. lia. }
    pose proof (submseteq_length _ _ (NoDup_submseteq _ _ Hnd Hsub)) as Hlen.
    rewrite length_fmap, length_seq in Hlen. lia.
Qed.

Lemma select_Some name image x :
  select name image = Some x <-> x.1 = name /\ find_band name (bands image) = Some x.2.
Proof.
  unfold select. destruct (find_band name (bands image)) as [b|]; simpl.
  - split; [intros [= <-]; done|]. destruct x as [n b']; simpl. by intros [-> [= ->]].
  - split; [done|]. by intros [_ ?].
Qed.

(** What [calculateLST] builds: the input bands followed by the new band. *)
Lemma calculateLST_Some image st :
  find_band "ST_B10" (bands image) = Some st ->
  calculateLST image =
    Some (mkImage
            (bands image ++
               [(fresh_name (band_names image) "LST",
                 DblBand ((fun p => mkPixel (pval p * 0.00341802 + 149.0 - 273.15)%Q (pmask p))
                            <$> to_dbl st))])
            (time_start image) (cloud_cover image) (footprint image)).
Proof.
  intros Hst. unfold calculateLST, select. rewrite Hst. simpl.
  unfold addBands. simpl. do 3 f_equal.
  rewrite <- !list_fmap_compose. done.
Qed.


Lemma calculateLST_inv image out :
  calculateLST image = Some out ->
  exists st, find_band "ST_B10" (bands image) = Some st /\
    bands out =
      bands image ++
        [(fresh_name (band_names image) "LST",
          DblBand ((fun p => mkPixel (pval p * 0.00341802 + 149.0 - 273.15)%Q (pmask p))
                     <$> to_dbl st))].
Proof.
  destruct (find_band "ST_B10" (bands image)) as [st|] eqn:Hst.
  - rewrite (calculateLST_Some _ _ Hst). intros [= <-]. by exists st.
  - unfold calculateLST, select. by rewrite Hst.
Qed.

Lemma land_bit_eqb v n :
  0 <= n -> (Z.land v (Z.shiftl 1 n) =? 0) = negb (Z.testbit v n).
Proof.
  intros Hn. rewrite Z.shiftl_1_l.
  destruct (Z.testbit v n) eqn:Hb; simpl.
  - apply Z.eqb_neq. intros H0.
    assert (Ht : Z.testbit (Z.land v (2 ^ n)) n = true).
    { rewrite Z.land_spec, Hb, Z.pow2_bits_true; done. }
    rewrite H0, Z.bits_0 in Ht. discriminate.
  - apply Z.eqb_eq, Z.bits_inj'. intros m Hm.
    rewrite Z.land_spec, Z.bits_0, Z.pow2_bits_eqb by done.
    destruct (Z.eqb_spec n m) as [->|]; [by rewrite Hb|by rewrite andb_false_r].
Qed.

Lemma Qeq_bool_inject_Z a b : Qeq_bool (inject_Z a) (inject_Z b) = (a =? b).
Proof.
  apply eq_iff_eq_true. by rewrite Qeq_bool_iff, Z.eqb_eq, inject_Z_injective.
Qed.

Lemma mask_set_cloudMask name px i :
  mask_set (cloudMask_of name px) i = qa_clear_at px i.
Proof.
  unfold mask_set, cloudMask_of, qa_clear_at, and_, eq_. simpl.
  rewrite !list_lookup_fmap, !lookup_zip_with, !list_lookup_fmap.
  rewrite !lookup_zip_with, !list_lookup_fmap.
  destruct (px !! i) as [[v m]|]; simpl; [|done].
  rewrite !Qeq_bool_inject_Z, !land_bit_eqb by lia.
  unfold qa_flagged.
  destruct m, (Z.testbit v 3), (Z.testbit v 4), (Z.testbit v 2); reflexivity.
Qed.

Lemma maskClouds_Some image out :
  maskClouds image = Some out <->
  exists px, find_band "QA_PIXEL" (bands image) = Some (IntBand px) /\
             out = updateMask image (cloudMask_of "QA_PIXEL" px).
Proof.
  unfold maskClouds, select.
  destruct (find_band "QA_PIXEL" (bands image)) as [[px|px]|]; simpl.
  - split; [intros [= <-]; eauto|]. by intros (px' & [= <-] & ->).
  - split; [done|]. by intros (px' & [=] & _).
  - split; [done|]. by intros (px' & [=] & _).
Qed.

Lemma band_valid_updateMask m b i :
  band_valid (band_updateMask m b) i = band_valid b i && mask_set m i.
Proof.
  destruct b as [px|px]; simpl; unfold px_valid; rewrite list_lookup_imap;
    destruct (px !! i) as [p|]; done.
Qed.


Lemma find_band_elem name l b :
  find_band name l = Some b -> (name, b) ∈ l.
Proof.
  induction l as [|[n b'] l IH]; simpl; [done|].
  destruct (String.eqb_spec n name) as [->|_].
  - intros [= ->]. apply elem_of_cons. by left.
  - intros Hf. apply elem_of_cons. right. by apply IH.
Qed.

(** C2: when [maskClouds] returns [out] for an image, a pixel is valid in
    [out] (valid in every band) if and only if it was valid in the image and
    none of the QA bits 3 (cloud shadow), 4 (cloud) and 2 (cirrus) is set at
    that pixel.  Band by band, the output band is valid exactly where the
    input band is valid and the QA pixel is readable with the three bits
    clear; so the valid pixels of every output band are among the valid
    pixels of the input band. *)
Theorem maskClouds_valid_iff (image out : Image) :
  maskClouds image = Some out ->
  exists px,
    find_band "QA_PIXEL" (bands image) = Some (IntBand px) /\
    (forall i, image_valid out i = true <->
       image_valid image i = true /\
       exists qa, px !! i = Some qa /\
         Z.testbit (pval qa) 3 = false /\ Z.testbit (pval qa) 4 = false /\
         Z.testbit (pval qa) 2 = false) /\
    (forall k name b, bands image !! k = Some (name, b) ->
       exists b', bands out !! k = Some (name, b') /\
         forall i, band_valid b' i = band_valid b i && qa_clear_at px i) /\
    (forall k name b name' b', bands image !! k = Some (name, b) ->
       bands out !! k = Some (name', b') ->
       forall i, band_valid b' i = true -> band_valid b i = true).
Proof.
  intros Hm. apply maskClouds_Some in Hm as (px & Hqa & ->).
  exists px. split; [done|].
  assert (Hband : forall k name b, bands image !! k = Some (name, b) ->
            bands (updateMask image (cloudMask_of "QA_PIXEL" px)) !! k =
              Some (name, band_updateMask (cloudMask_of "QA_PIXEL" px) b)).
  { intros k name b Hk. simpl. by rewrite list_lookup_fmap, Hk. }
  split; [|split].
  - intros i. unfold image_valid, updateMask. cbn [bands].
    rewrite !forallb_forall.
    split.
    + intros Hout.
      assert (Hall : forall nb, In nb (bands image) ->
                band_valid nb.2 i = true /\ qa_clear_at px i = true).
      { intros nb Hin. apply andb_true_iff.
        rewrite <- (mask_set_cloudMask "QA_PIXEL"), <- band_valid_updateMask.
        apply (Hout (nb.1, band_updateMask (cloudMask_of "QA_PIXEL" px) nb.2)).
        apply list_elem_of_In, list_elem_of_fmap. exists nb. split; [done|].
        by apply list_elem_of_In. }
      split; [intros nb Hin; by apply Hall|].
      apply find_band_elem, list_elem_of_In, Hall in Hqa as [_ Hc].
      unfold qa_clear_at, qa_flagged in Hc.
      destruct (px !! i) as [qa|]; [|done].
      apply andb_true_iff in Hc as [_ Hc]. apply negb_true_iff in Hc.
      rewrite !orb_false_iff in Hc. destruct Hc as [[H3 H4] H2].
      exists qa. repeat split; assumption.
    + intros [Hin (qa & Hi & H3 & H4 & H2)] nb' Hnb'.
      apply list_elem_of_In, list_elem_of_fmap in Hnb' as (nb & -> & Hnb). simpl.
      rewrite band_valid_updateMask, mask_set_cloudMask.
      apply list_elem_of_In in Hnb. rewrite (Hin nb Hnb). simpl.
      apply find_band_elem, list_elem_of_In, Hin in Hqa. simpl in Hqa.
      unfold px_valid in Hqa. unfold qa_clear_at, qa_flagged.
      rewrite Hi in *. by rewrite Hqa, H3, H4, H2.
  - intros k name b Hk. eexists. split; [by apply Hband|].
    intros i. by rewrite band_valid_updateMask, mask_set_cloudMask.
  - intros k name b name' b' Hk Hk' i. rewrite (Hband _ _ _ Hk) in Hk'.
    injection Hk' as <- <-. rewrite band_valid_updateMask.
    by intros [? _]%andb_true_iff.
Qed.


(** C9: for an image with a thermal band, [calculateLST] returns the image
    with one band appended, named LST when the image had no band of that
    name (as every sourced image); every band that was there keeps its
    position, name, pixel values and masks, and the metadata is kept.  The
    function is pure: its argument is a value that nothing changes. *)
Theorem calculateLST_appends (image : Image) (st : Band) :
  find_band "ST_B10" (bands image) = Some st ->
  exists out name lst,
    calculateLST image = Some out /\
    bands out = bands image ++ [(name, lst)] /\
    (find_band "LST" (bands image) = None -> name = "LST") /\
    (name ∉ band_names image) /\
    (forall n b, find_band n (bands image) = Some b ->
                 find_band n (bands out) = Some b) /\
    (forall k nb, bands image !! k = Some nb -> bands out !! k = Some nb) /\
    time_start out = time_start image /\
    cloud_cover out = cloud_cover image /\
    footprint out = footprint image.
Proof.
  intros Hst. eexists _, _, _. split; [by apply calculateLST_Some|]. simpl.
  split; [reflexivity|]. split; [|split; [|split; [|split; [|done]]]].
  - intros Hlst. by rewrite fresh_name_free by (by apply find_band_None).
  - apply fresh_name_fresh.
  - intros n b Hb. by rewrite find_band_app, Hb.
  - intros k nb Hk. by apply lookup_app_l_Some.
Qed.

End RasterFacts.

(* ===================================================================== *)
(** * Properties: the image collection builder *)
(* ===================================================================== *)

Lemma qltb_lt a b : qltb a b = true <-> (a < b)%Q.
Proof.
  unfold qltb. rewrite negb_true_iff, <- not_true_iff_false, Qle_bool_iff.
  split; [apply Qnot_le_lt|apply Qlt_not_le].
Qed.

Lemma filter_filter {A} (p q : A -> bool) l :
  List.filter p (List.filter q l) = List.filter (fun x => q x && p x) l.
Proof.
  induction l as [|x l IH]; simpl; [done|].
  destruct (q x); simpl; [destruct (p x)|]; by rewrite IH.
Qed.

Lemma mapM_bind {A B C} (f : A -> option B) (g : B -> option C) l :
  mapM f l ≫= mapM g = mapM (fun x => f x ≫= g) l.
Proof.
  induction l as [|x l IH]; simpl; [done|].
  destruct (f x) as [y|]; simpl; [|done].
  rewrite <- IH. destruct (mapM f l) as [k|]; simpl; [done|].
  by destruct (g y).
Qed.

Section CollectionFacts.
Context `{GeoEngine}.

Lemma selectedb_spec geometry start_ end_ limit image :
  selectedb geometry start_ end_ limit image = true <->
  selected geometry start_ end_ limit image.
Proof.
  unfold selectedb, selected. rewrite !andb_true_iff, Z.leb_le, Z.ltb_lt.
  destruct (cloud_cover image) as [cc|].
  - rewrite qltb_lt. split.
    + intros [? [? ?]]. eauto.
    + intros (? & ? & cc' & [= <-] & ?). done.
  - split; [by intros [_ [_ ?]]|]. by intros (_ & _ & cc' & [=] & _).
Qed.

(** The chain of filters and maps of one source. *)
Lemma source_chain geometry start_ end_ limit (source : list Image) :
  mapM maskClouds
    (filter_lt_CLOUD_COVER limit (filterDate start_ end_ (filterBounds geometry source)))
    ≫= mapM calculateLST =
  mapM process (List.filter (selectedb geometry start_ end_ limit) source).
Proof.
  unfold filter_lt_CLOUD_COVER, filterDate, filterBounds.
  rewrite !filter_filter, mapM_bind. done.
Qed.

Lemma mapM_process_elem (source built : list Image) out :
  mapM process source = Some built ->
  out ∈ built <-> exists image, image ∈ source /\ process image = Some out.
Proof.
  intros HF%mapM_Some. split.
  - intros (i & Hi)%list_elem_of_lookup.
    destruct (Forall2_lookup_r _ _ _ _ _ HF Hi) as (x & Hx & Hp).
    exists x. split; [by eapply list_elem_of_lookup_2|done].
  - intros (x & (i & Hi)%list_elem_of_lookup & Hp).
    destruct (Forall2_lookup_l _ _ _ _ _ HF Hi) as (y & Hy & Hp').
    rewrite Hp in Hp'. injection Hp' as <-. by eapply list_elem_of_lookup_2.
Qed.

Lemma elem_of_filter_selected geometry start_ end_ limit (source : list Image) image :
  image ∈ List.filter (selectedb geometry start_ end_ limit) source <->
  image ∈ source /\ selected geometry start_ end_ limit image.
Proof. by rewrite !list_elem_of_In, filter_In, selectedb_spec. Qed.

Lemma built_from_chain source8 source9 geometry start_ end_ limit l8 l9 :
  mapM process (List.filter (selectedb geometry start_ end_ limit) source8) = Some l8 ->
  mapM process (List.filter (selectedb geometry start_ end_ limit) source9) = Some l9 ->
  built_from source8 source9 geometry start_ end_ limit (merge l8 l9).
Proof.
  intros H8 H9. split; [by exists l8, l9|].
  intros out. unfold merge. rewrite elem_of_app.
  rewrite (mapM_process_elem _ _ _ H8), (mapM_process_elem _ _ _ H9).
  setoid_rewrite elem_of_filter_selected. split.
  - intros [(image & [? ?] & ?)|(image & [? ?] & ?)]; exists image; eauto.
  - intros (image & [?|?] & ? & ?); [left|right]; exists image; eauto.
Qed.

Lemma Area_allLandsat_built startDate endDate ImageCollection geometry built :
  Area.allLandsat startDate endDate ImageCollection geometry = Some built ->
  built_from (ImageCollection "LANDSAT/LC08/C02/T1_L2")
             (ImageCollection "LANDSAT/LC09/C02/T1_L2")
             geometry startDate endDate 30 built.
Proof.
  unfold Area.allLandsat, Area.landsat8, Area.landsat9. rewrite !source_chain.
  destruct (mapM process (List.filter _ (ImageCollection "LANDSAT/LC08/C02/T1_L2")))
    as [l8|] eqn:H8; [|done]. simpl.
  destruct (mapM process (List.filter _ (ImageCollection "LANDSAT/LC09/C02/T1_L2")))
    as [l9|] eqn:H9; [|done]. simpl.
  intros [= <-]. by apply built_from_chain.
Qed.

Lemma Point_allLandsat_built startDate endDate ImageCollection point built :
  Point.allLandsat startDate endDate ImageCollection point = Some built ->
  built_from (ImageCollection "LANDSAT/LC08/C02/T1_L2")
             (ImageCollection "LANDSAT/LC09/C02/T1_L2")
             point startDate endDate 20 built.
Proof.
  unfold Point.allLandsat, Point.landsat8, Point.landsat9. rewrite !source_chain.
  destruct (mapM process (List.filter _ (ImageCollection "LANDSAT/LC08/C02/T1_L2")))
    as [l8|] eqn:H8; [|done]. simpl.
  destruct (mapM process (List.filter _ (ImageCollection "LANDSAT/LC09/C02/T1_L2")))
    as [l9|] eqn:H9; [|done]. simpl.
  intros [= <-]. by apply built_from_chain.
Qed.


(** The collection is built whenever every selected image has its QA and
    thermal bands. *)
Lemma process_Some image px st :
  find_band "QA_PIXEL" (bands image) = Some (IntBand px) ->
  find_band "ST_B10" (bands image) = Some st ->
  is_Some (process image).
Proof.
  intros Hqa Hst. unfold process.
  destruct (maskClouds image) as [m|] eqn:Hm.
  - simpl. pose proof Hm as Hm'. apply maskClouds_Some in Hm' as (px' & _ & ->).
    erewrite calculateLST_Some; [done|].
    unfold updateMask. cbn [bands]. by rewrite find_band_fmap, Hst.
  - exfalso. assert (Hs : is_Some (maskClouds image)); [|by rewrite Hm in Hs; destruct Hs].
    eexists. apply maskClouds_Some. eauto.
Qed.

Lemma mapM_process_Some geometry start_ end_ limit (source : list Image) :
  (forall image, image ∈ source ->
     (exists px, find_band "QA_PIXEL" (bands image) = Some (IntBand px)) /\
     is_Some (find_band "ST_B10" (bands image))) ->
  is_Some (mapM process (List.filter (selectedb geometry start_ end_ limit) source)).
Proof.
  intros Hwf. apply mapM_is_Some, Forall_forall.
  intros image [Hin _]%elem_of_filter_selected.
  destruct (Hwf image Hin) as [[px Hqa] [st Hst]]. by eapply process_Some.
Qed.

(** Both tools build their collection whenever the images of the two
    sources have an integer QA band and a thermal band. *)
Lemma allLandsat_total startDate endDate ImageCollection geometry :
  (forall id image, image ∈ ImageCollection id ->
     (exists px, find_band "QA_PIXEL" (bands image) = Some (IntBand px)) /\
     is_Some (find_band "ST_B10" (bands image))) ->
  is_Some (Area.allLandsat startDate endDate ImageCollection geometry) /\
  is_Some (Point.allLandsat startDate endDate ImageCollection geometry).
Proof.
  intros Hwf. split.
  - unfold Area.allLandsat, Area.landsat8, Area.landsat9. rewrite !source_chain.
    destruct (mapM_process_Some geometry startDate endDate 30 _
                (Hwf "LANDSAT/LC08/C02/T1_L2")) as [l8 ->].
    destruct (mapM_process_Some geometry startDate endDate 30 _
                (Hwf "LANDSAT/LC09/C02/T1_L2")) as [l9 ->].
    by eexists.
  - unfold Point.allLandsat, Point.landsat8, Point.landsat9. rewrite !source_chain.
    destruct (mapM_process_Some geometry startDate endDate 20 _
                (Hwf "LANDSAT/LC08/C02/T1_L2")) as [l8 ->].
    destruct (mapM_process_Some geometry startDate endDate 20 _
                (Hwf "LANDSAT/LC09/C02/T1_L2")) as [l9 ->].
    by eexists.
Qed.

Lemma process_time_start image out :
  process image = Some out -> time_start out = time_start image.
Proof.
  unfold process. destruct (maskClouds image) as [masked|] eqn:Hm; [|done]. simpl.
  apply maskClouds_Some in Hm as (px & _ & ->).
  unfold calculateLST. destruct (select "ST_B10" _) as [st|]; [|done]. simpl.
  by intros [= <-].
Qed.

Lemma built_in_range source8 source9 geometry start_ end_ limit built :
  built_from source8 source9 geometry start_ end_ limit built ->
  Forall (fun image => start_ <= time_start image < end_) built.
Proof.
  intros [_ Hb]. apply Forall_forall. intros out (raw & _ & (_ & Hr & _) & Hp)%Hb.
  by rewrite (process_time_start _ _ Hp).
Qed.

Lemma calculateLST_has_LST image out :
  calculateLST image = Some out -> is_Some (find_band "LST" (bands out)).
Proof.
  unfold calculateLST, select.
  destruct (find_band "ST_B10" (bands image)) as [st|]; [|done]. simpl.
  intros [= <-]. unfold addBands. cbn [bands fst snd rename].
  rewrite find_band_app.
  destruct (find_band "LST" (bands image)) as [b|] eqn:Hb; [done|].
  rewrite fresh_name_free by (by apply find_band_None). done.
Qed.

Lemma built_has_LST source8 source9 geometry start_ end_ limit built image :
  built_from source8 source9 geometry start_ end_ limit built ->
  image ∈ built -> is_Some (find_band "LST" (bands image)).
Proof.
  intros [_ Hb] (raw & _ & _ & Hp)%Hb. unfold process in Hp.
  destruct (maskClouds raw) as [m|]; [|done]. by apply calculateLST_has_LST in Hp.
Qed.

End CollectionFacts.

(* ===================================================================== *)
(** * Properties: the per-image extractor *)
(* ===================================================================== *)

Lemma numbers_VNum (l : list Q) : numbers (VNum <$> l) = l.
Proof. unfold numbers. induction l as [|q l IH]; simpl; [done|by f_equal]. Qed.

Section FeatureFacts.
Context `{GeoEngine}.

Lemma omap_imap_None {A B} (f : nat -> A -> option B) (l : list A) :
  (forall i x, l !! i = Some x -> f i x = None) -> omap id (imap f l) = [].
Proof.
  revert f. induction l as [|x l IH]; intros f Hf; simpl; [done|].
  rewrite (Hf 0%nat x eq_refl). simpl. apply IH.
  intros i y Hi. by apply (Hf (S i)).
Qed.

Lemma band_valid_to_dbl b i :
  band_valid b i = match to_dbl b !! i with Some p => pmask p | None => false end.
Proof.
  destruct b as [px|px]; simpl; unfold px_valid; [|done].
  rewrite list_lookup_fmap. by destruct (px !! i).
Qed.

Lemma region_values_fully_masked x geometry scale :
  fully_masked x geometry scale -> region_values x geometry scale = [].
Proof.
  intros Hm. unfold region_values. apply omap_imap_None.
  intros i p Hp. specialize (Hm i). rewrite band_valid_to_dbl, Hp in Hm.
  destruct (covers geometry scale i); [|by rewrite andb_false_r].
  by rewrite Hm.
Qed.

(** Where the QA band is unreadable or flagged, no band of the processed
    image is valid: an image under cloud all over the region has an LST
    band that is fully masked there. *)
Lemma process_flagged image out px i :
  find_band "QA_PIXEL" (bands image) = Some (IntBand px) ->
  process image = Some out ->
  qa_clear_at px i = false ->
  forall nb, nb ∈ bands out -> band_valid nb.2 i = false.
Proof.
  intros Hqa Hp Hflag nb Hnb. unfold process in Hp.
  destruct (maskClouds image) as [masked|] eqn:Hm; [|done]. simpl in Hp.
  apply maskClouds_Some in Hm as (px' & Hqa' & ->).
  rewrite Hqa in Hqa'. injection Hqa' as <-.
  assert (Hmasked : forall nb', nb' ∈ bands (updateMask image (cloudMask_of "QA_PIXEL" px)) ->
                      band_valid nb'.2 i = false).
  { intros nb' (nb0 & -> & _)%list_elem_of_fmap. cbn [snd].
    by rewrite band_valid_updateMask, mask_set_cloudMask, Hflag, andb_false_r. }
  apply calculateLST_inv in Hp as (st & Hst & Hb). rewrite Hb in Hnb.
  apply elem_of_app in Hnb as [Hnb|Hnb%list_elem_of_singleton]; [by apply Hmasked|].
  subst nb.
  cbn [snd]. apply find_band_elem, Hmasked in Hst. cbn [snd] in Hst.
  rewrite band_valid_to_dbl in Hst. rewrite band_valid_to_dbl. cbn [to_dbl].
  rewrite list_lookup_fmap. by destruct (to_dbl st !! i).
Qed.

Lemma process_overcast image out px lst geometry scale :
  find_band "QA_PIXEL" (bands image) = Some (IntBand px) ->
  process image = Some out ->
  (forall i, covers geometry scale i = true -> qa_clear_at px i = false) ->
  select "LST" out = Some lst ->
  fully_masked lst geometry scale.
Proof.
  intros Hqa Hp Hflag (_ & Hlst)%select_Some i Hi.
  apply find_band_elem in Hlst.
  by apply (process_flagged _ _ _ _ Hqa Hp (Hflag i Hi) _ Hlst).
Qed.

(** The record of the area tool for an image with LST band [b]. *)
Lemma Area_extractLST_Some scale geometry image r :
  Area.extractLST scale geometry image = Some r <->
  exists b, find_band "LST" (bands image) = Some b /\
    let inputs := region_values ("LST", b) geometry scale in
    r = list_to_map
          [("date", VStr (date_format (time_start image)));
           ("LST_mean", Reducer_mean.2 inputs);
           ("LST_stdDev", Reducer_stdDev.2 inputs);
           ("LST_count", Reducer_count.2 inputs);
           ("year", VInt (date_year (time_start image)));
           ("month", VInt (date_month (time_start image)));
           ("day", VInt (date_day (time_start image)));
           ("doy", VInt (date_doy (time_start image)))].
Proof.
  unfold Area.extractLST, select.
  destruct (find_band "LST" (bands image)) as [b|]; simpl.
  - split; [intros [= <-]; eauto|]. by intros (b' & [= <-] & ->).
  - split; [done|]. by intros (b' & [=] & _).
Qed.

Lemma Point_extractLST_Some scale buffer_ image r :
  Point.extractLST scale buffer_ image = Some r <->
  exists b, find_band "LST" (bands image) = Some b /\
    r = list_to_map
          [("date", VStr (date_format (time_start image)));
           ("LST", Reducer_mean.2 (region_values ("LST", b) buffer_ scale));
           ("year", VInt (date_year (time_start image)));
           ("month", VInt (date_month (time_start image)));
           ("day", VInt (date_day (time_start image)))].
Proof.
  unfold Point.extractLST, select.
  destruct (find_band "LST" (bands image)) as [b|]; simpl.
  - split; [intros [= <-]; eauto|]. by intros (b' & [= <-] & ->).
  - split; [done|]. by intros (b' & [=] & _).
Qed.


(** C8 (amended): a record of the area tool carries exactly the fields
    date, LST_mean, LST_stdDev, LST_count, year, month, day and doy, the date
    being the [YYYY-MM-dd] text of the acquisition day (an ISO 8601 date for
    years 0 to 9999); a record of the point tool carries exactly date, LST,
    year, month and day: no standard deviation, pixel count or day of
    year. *)
Theorem record_fields (scale : Z) (geometry buffer_ : Geometry) (image : Image)
    (ra rp : Feature) :
  Area.extractLST scale geometry image = Some ra ->
  Point.extractLST scale buffer_ image = Some rp ->
  (dom ra = list_to_set ["date"; "LST_mean"; "LST_stdDev"; "LST_count";
                         "year"; "month"; "day"; "doy"] /\
   ra !! "date" = Some (VStr (date_format (time_start image))) /\
   (exists lst inputs, select "LST" image = Some lst /\
      inputs = region_values lst geometry scale /\
      ra !! "LST_mean" = Some (reduce Reducer_mean (VNum <$> inputs)) /\
      ra !! "LST_stdDev" = Some (reduce Reducer_stdDev (VNum <$> inputs)) /\
      ra !! "LST_count" = Some (VInt (Z.of_nat (length inputs)))) /\
   ra !! "year" = Some (VInt (date_year (time_start image))) /\
   ra !! "month" = Some (VInt (date_month (time_start image))) /\
   ra !! "day" = Some (VInt (date_day (time_start image))) /\
   ra !! "doy" = Some (VInt (date_doy (time_start image)))) /\
  (dom rp = list_to_set ["date"; "LST"; "year"; "month"; "day"] /\
   rp !! "date" = Some (VStr (date_format (time_start image))) /\
   (exists lst, select "LST" image = Some lst /\
      rp !! "LST" = Some (reduce Reducer_mean (VNum <$> region_values lst buffer_ scale))) /\
   rp !! "year" = Some (VInt (date_year (time_start image))) /\
   rp !! "month" = Some (VInt (date_month (time_start image))) /\
   rp !! "day" = Some (VInt (date_day (time_start image))) /\
   rp !! "LST_stdDev" = None /\ rp !! "LST_count" = None /\ rp !! "doy" = None) /\
  (0 <= date_year (time_start image) <= 9999 ->
   is_iso_date (date_format (time_start image)) = true) /\
  1 <= date_month (time_start image) <= 12 /\
  1 <= date_day (time_start image) <= 31.
Proof.
  intros (b & Hb & ->)%Area_extractLST_Some (b' & Hb' & ->)%Point_extractLST_Some.
  rewrite Hb in Hb'. injection Hb' as <-.
  pose proof numbers_VNum as Hnum.
  split; [|split; [|split; [apply date_format_iso|apply civil_month_day_range]]].
  - split; [by rewrite dom_list_to_map_L|]. split; [done|].
    split; [|done].
    exists ("LST", b), (region_values ("LST", b) geometry scale).
    unfold select, reduce. rewrite Hb, Hnum. done.
  - split; [by rewrite dom_list_to_map_L|]. split; [done|].
    split; [|done].
    exists ("LST", b). unfold select, reduce. rewrite Hb, Hnum. done.
Qed.


Lemma mapM_total {A B} (f : A -> option B) (l : list A) :
  (forall x, x ∈ l -> is_Some (f x)) ->
  exists k, mapM f l = Some k /\ length k = length l /\
    forall i x, l !! i = Some x -> exists y, k !! i = Some y /\ f x = Some y.
Proof.
  intros Hall.
  destruct (mapM f l) as [k|] eqn:Hk.
  - exists k. split; [done|]. apply mapM_Some in Hk.
    split; [symmetry; by eapply Forall2_length|].
    intros i x Hi. destruct (Forall2_lookup_l _ _ _ _ _ Hk Hi) as (y & ? & ?). eauto.
  - assert (Hs : is_Some (mapM f l)) by (by apply mapM_is_Some, Forall_forall).
    rewrite Hk in Hs. by destruct Hs.
Qed.

(** C10: for the collection either tool builds, the extractor yields a
    time series with exactly one record per image, in order, and this is the
    series the tool reports; an image whose LST band has no valid pixel in
    the region still gets its record, with a null aggregate (and, in the
    area tool, a pixel count of 0). *)
Theorem one_record_per_image (startDate endDate scale bufferSize : Z)
    (ImageCollection : string -> list Image) (geometry : Geometry) :
  (forall images,
     Area.allLandsat startDate endDate ImageCollection geometry = Some images ->
     exists ts,
       Area.lstTimeSeries scale geometry images = Some ts /\
       rep_lstTimeSeries_of_area startDate endDate scale ImageCollection geometry = Some ts /\
       length ts = length images /\
       forall k image, images !! k = Some image ->
         exists r lst, ts !! k = Some r /\
           Area.extractLST scale geometry image = Some r /\
           select "LST" image = Some lst /\
           (fully_masked lst geometry scale ->
            r !! "LST_mean" = Some VNull /\ r !! "LST_count" = Some (VInt 0))) /\
  (forall images,
     Point.allLandsat startDate endDate ImageCollection geometry = Some images ->
     exists ts,
       Point.lstTimeSeries scale (buffer geometry bufferSize) images = Some ts /\
       rep_lstTimeSeries_of_point startDate endDate bufferSize scale ImageCollection geometry
         = Some ts /\
       length ts = length images /\
       forall k image, images !! k = Some image ->
         exists r lst, ts !! k = Some r /\
           Point.extractLST scale (buffer geometry bufferSize) image = Some r /\
           select "LST" image = Some lst /\
           (fully_masked lst (buffer geometry bufferSize) scale ->
            r !! "LST" = Some VNull)).
Proof.
  split; intros images Hall.
  - pose proof (Area_allLandsat_built _ _ _ _ _ Hall) as Hbuilt.
    destruct (mapM_total (Area.extractLST scale geometry) images) as (ts & Hts & Hlen & Hk).
    { intros image [b Hb]%(built_has_LST _ _ _ _ _ _ _ _ Hbuilt).
      eexists. apply Area_extractLST_Some. eauto. }
    exists ts. split; [done|]. split; [|split; [done|]].
    { unfold rep_lstTimeSeries_of_area, Area.analyzeLSTForArea. rewrite Hall. simpl.
      unfold Area.lstTimeSeries in Hts. unfold Area.lstTimeSeries. by rewrite Hts. }
    intros k image Hi. destruct (Hk k image Hi) as (r & Hr & Hex).
    pose proof Hex as (b & Hb & ->)%Area_extractLST_Some.
    eexists _, ("LST", b). split; [exact Hr|]. split; [done|].
    split; [by unfold select; rewrite Hb|].
    intros Hm%region_values_fully_masked. cbv zeta. rewrite Hm. done.
  - pose proof (Point_allLandsat_built _ _ _ _ _ Hall) as Hbuilt.
    destruct (mapM_total (Point.extractLST scale (buffer geometry bufferSize)) images)
      as (ts & Hts & Hlen & Hk).
    { intros image [b Hb]%(built_has_LST _ _ _ _ _ _ _ _ Hbuilt).
      eexists. apply Point_extractLST_Some. eauto. }
    exists ts. split; [done|]. split; [|split; [done|]].
    { unfold rep_lstTimeSeries_of_point, Point.analyzeLSTAtPoint. rewrite Hall. simpl.
      unfold Point.lstTimeSeries in Hts. unfold Point.lstTimeSeries. by rewrite Hts. }
    intros k image Hi. destruct (Hk k image Hi) as (r & Hr & Hex).
    pose proof Hex as (b & Hb & ->)%Point_extractLST_Some.
    eexists _, ("LST", b). split; [exact Hr|]. split; [done|].
    split; [by unfold select; rewrite Hb|].
    intros Hm%region_values_fully_masked. rewrite Hm. done.
Qed.

End FeatureFacts.

(* ===================================================================== *)
(** * Properties: the time-series aggregator *)
(* ===================================================================== *)

(** ** Values and filters *)

Lemma value_eqb_VNull v : value_eqb v VNull = true <-> v = VNull.
Proof. destruct v; simpl; split; done. Qed.

Lemma Filter_neq_VNull name r :
  Filter_neq name VNull r = true <-> prop name r <> VNull.
Proof.
  unfold Filter_neq, Filter_eq. rewrite negb_true_iff, <- not_true_iff_false.
  by rewrite value_eqb_VNull.
Qed.

Lemma numbers_removeAll_VNull l : numbers (removeAll [VNull] l) = numbers l.
Proof.
  unfold numbers, removeAll. induction l as [|v l IH]; simpl; [done|].
  destruct v; simpl; first [exact IH | f_equal; exact IH].
Qed.

Lemma numbers_aggregate_array name (ts : list Feature) :
  numbers (aggregate_array name ts) = valid_means name ts.
Proof.
  unfold numbers, aggregate_array, valid_means, prop.
  induction ts as [|r ts IH]; simpl; [done|].
  destruct (r !! name) as [v|]; simpl; [|exact IH].
  destruct (as_number v); first [exact IH | f_equal; exact IH].
Qed.

Lemma valid_means_filter_neq name (ts : list Feature) :
  valid_means name (List.filter (Filter_neq name VNull) ts) = valid_means name ts.
Proof.
  unfold valid_means. induction ts as [|r ts IH]; simpl; [done|].
  destruct (Filter_neq name VNull r) eqn:Hf; simpl.
  - destruct (as_number (prop name r)); first [exact IH | f_equal; exact IH].
  - apply not_true_iff_false in Hf. rewrite Filter_neq_VNull in Hf.
    destruct (prop name r); try exact IH. all: exfalso; apply Hf; intros [=].
Qed.

(** The numbers that every statistic of the area tool reduces. *)
Lemma area_valid_numbers (ts : list Feature) :
  numbers (removeAll [VNull] (aggregate_array "LST_mean" (Area.validTimeSeries ts))) =
  valid_means "LST_mean" ts.
Proof.
  unfold Area.validTimeSeries.
  by rewrite numbers_removeAll_VNull, numbers_aggregate_array, valid_means_filter_neq.
Qed.

Lemma point_valid_numbers (ts : list Feature) :
  numbers (removeAll [VNull] (aggregate_array "LST" ts)) = valid_means "LST" ts.
Proof. by rewrite numbers_removeAll_VNull, numbers_aggregate_array. Qed.

Lemma removeAll_VNull_length name (l : list Feature) :
  Forall (fun r => Filter_neq name VNull r = true) l ->
  length (removeAll [VNull] (aggregate_array name l)) = length l.
Proof.
  unfold removeAll, aggregate_array.
  induction 1 as [|r l Hr _ IH]; simpl; [done|].
  apply Filter_neq_VNull in Hr. unfold prop in Hr.
  destruct (r !! name) as [v|]; simpl; [|done].
  destruct (value_eqb v VNull) eqn:Hv; simpl.
  - apply value_eqb_VNull in Hv. by subst.
  - f_equal. exact IH.
Qed.

(** ** The statistics *)

Lemma mean_sum (l : list Q) :
  l <> [] -> (mean l * inject_Z (Z.of_nat (length l)) == Qsum l)%Q.
Proof.
  intros Hl. unfold mean. field.
  destruct l; [done|]. intros Hq. unfold Qeq in Hq. cbn [Qnum Qden inject_Z] in Hq.
  rewrite length_cons in Hq. lia.
Qed.

Lemma Qmin_spec a b : (Qmin a b = a \/ Qmin a b = b) /\ (Qmin a b <= a)%Q /\ (Qmin a b <= b)%Q.
Proof.
  unfold Qmin. destruct (Qle_bool a b) eqn:Hab.
  - apply Qle_bool_iff in Hab. split; [by left|]. split; [apply Qle_refl|done].
  - split; [by right|]. split; [|apply Qle_refl].
    apply Qlt_le_weak, Qnot_le_lt. intros Hle%Qle_bool_iff. congruence.
Qed.

Lemma Qmax_spec a b : (Qmax a b = a \/ Qmax a b = b) /\ (a <= Qmax a b)%Q /\ (b <= Qmax a b)%Q.
Proof.
  unfold Qmax. destruct (Qle_bool a b) eqn:Hab.
  - apply Qle_bool_iff in Hab. split; [by right|]. split; [done|apply Qle_refl].
  - split; [by left|]. split; [apply Qle_refl|].
    apply Qlt_le_weak, Qnot_le_lt. intros Hle%Qle_bool_iff. congruence.
Qed.

Lemma minimum_spec x l :
  minimum x l ∈ x :: l /\ forall y, y ∈ x :: l -> (minimum x l <= y)%Q.
Proof.
  induction l as [|z l [IHin IHle]]; simpl.
  - split; [apply list_elem_of_here|]. intros y ->%list_elem_of_singleton. apply Qle_refl.
  - destruct (Qmin_spec z (minimum x l)) as ([Hm|Hm] & Hz & Hr); rewrite Hm in *.
    + split; [apply list_elem_of_further, list_elem_of_here|].
      intros y [->|[->|Hy]%elem_of_cons]%elem_of_cons.
      * eapply Qle_trans; [exact Hr|]. apply IHle, list_elem_of_here.
      * apply Qle_refl.
      * eapply Qle_trans; [exact Hr|]. by apply IHle, list_elem_of_further.
    + split.
      { apply elem_of_cons in IHin as [Hx|Hx]; [rewrite Hx; apply list_elem_of_here|].
        by do 2 apply list_elem_of_further. }
      intros y [->|[->|Hy]%elem_of_cons]%elem_of_cons.
      * apply IHle, list_elem_of_here.
      * done.
      * by apply IHle, list_elem_of_further.
Qed.

Lemma maximum_spec x l :
  maximum x l ∈ x :: l /\ forall y, y ∈ x :: l -> (y <= maximum x l)%Q.
Proof.
  induction l as [|z l [IHin IHle]]; simpl.
  - split; [apply list_elem_of_here|]. intros y ->%list_elem_of_singleton. apply Qle_refl.
  - destruct (Qmax_spec z (maximum x l)) as ([Hm|Hm] & Hz & Hr); rewrite Hm in *.
    + split; [apply list_elem_of_further, list_elem_of_here|].
      intros y [->|[->|Hy]%elem_of_cons]%elem_of_cons.
      * eapply Qle_trans; [|exact Hr]. apply IHle, list_elem_of_here.
      * apply Qle_refl.
      * eapply Qle_trans; [|exact Hr]. by apply IHle, list_elem_of_further.
    + split.
      { apply elem_of_cons in IHin as [Hx|Hx]; [rewrite Hx; apply list_elem_of_here|].
        by do 2 apply list_elem_of_further. }
      intros y [->|[->|Hy]%elem_of_cons]%elem_of_cons.
      * apply IHle, list_elem_of_here.
      * done.
      * by apply IHle, list_elem_of_further.
Qed.

Lemma insert_sorted_perm x l : Permutation (insert_sorted x l) (x :: l).
Proof.
  induction l as [|y l IH]; simpl; [done|].
  destruct (Qle_bool x y); [done|].
  rewrite IH. apply perm_swap.
Qed.

Lemma sort_perm l : Permutation (sort l) l.
Proof.
  induction l as [|x l IH]; simpl; [done|].
  rewrite insert_sorted_perm. by constructor.
Qed.

Lemma insert_sorted_sorted x l : Sorted Qle l -> Sorted Qle (insert_sorted x l).
Proof.
  induction 1 as [|y l Hs IH Hhd]; simpl.
  - by repeat constructor.
  - destruct (Qle_bool x y) eqn:Hxy.
    + apply Qle_bool_iff in Hxy. by repeat constructor.
    + assert (Hyx : (y <= x)%Q).
      { apply Qlt_le_weak, Qnot_le_lt. intros Hle%Qle_bool_iff. congruence. }
      constructor; [done|].
      destruct l as [|z l]; simpl in *; [by constructor|].
      destruct (Qle_bool x z); constructor; [done|]. by inversion Hhd.
Qed.

Lemma sort_sorted l : Sorted Qle (sort l).
Proof.
  induction l as [|x l IH]; simpl; [constructor|]. by apply insert_sorted_sorted.
Qed.

Lemma reducers_summarize (st : gmap string Value) (l : list Value) (vs : list Q) :
  numbers l = vs -> vs <> [] ->
  st !! "count" = Some (size l) ->
  length l = length vs ->
  st !! "mean" = Some (reduce Reducer_mean l) ->
  st !! "min" = Some (reduce Reducer_min l) ->
  st !! "max" = Some (reduce Reducer_max l) ->
  st !! "std" = Some (reduce Reducer_stdDev l) ->
  summarizes st vs.
Proof.
  intros Hn Hvs Hcount Hlen Hmean Hmin Hmax Hstd.
  unfold reduce in *. rewrite Hn in *. unfold size in Hcount. rewrite Hlen in Hcount.
  destruct vs as [|x vs']; [done|]. simpl in Hmean, Hmin, Hmax, Hstd.
  split; [done|]. split; [|split; [|split]].
  - eexists. split; [exact Hmean|]. by apply mean_sum.
  - eexists. split; [exact Hmin|]. apply minimum_spec.
  - eexists. split; [exact Hmax|]. apply maximum_spec.
  - eexists. split; [exact Hstd|]. unfold variance.
    rewrite <- (length_fmap (fun y => (y - mean (x :: vs')) * (y - mean (x :: vs')))%Q).
    by apply mean_sum.
Qed.

Lemma removeAll_numbers_length (l : list Value) :
  Forall (fun v => v = VNull \/ is_Some (as_number v)) l ->
  length (removeAll [VNull] l) = length (numbers l).
Proof.
  unfold removeAll, numbers.
  induction 1 as [|v l Hv _ IH]; simpl; [done|].
  destruct Hv as [->|[q Hq]]; simpl; [exact IH|].
  rewrite Hq. destruct v; try done; simpl; f_equal; exact IH.
Qed.

Lemma aggregate_array_observations name (ts : list Feature) :
  Forall (observation name) ts ->
  Forall (fun v => v = VNull \/ is_Some (as_number v)) (aggregate_array name ts).
Proof.
  unfold aggregate_array. induction 1 as [|r ts Hr _ IH]; simpl; [constructor|].
  unfold observation, prop in Hr.
  destruct (r !! name) as [v|]; simpl; [|exact IH].
  constructor; [|exact IH]. simpl in Hr.
  destruct Hr as [->|[q ->]]; [by left|right; by eexists].
Qed.

Lemma Forall_List_filter {A} (P : A -> Prop) (p : A -> bool) l :
  Forall P l -> Forall P (List.filter p l).
Proof.
  induction 1 as [|x l Hx _ IH]; simpl; [constructor|].
  destruct (p x); [by constructor|done].
Qed.

(** C7 (amended): for observation records with at least one non-null LST
    mean, the overall statistics of the area tool are the count, arithmetic
    mean, minimum, maximum, standard deviation and median of the valid LST
    means; those of the point tool are the count, mean, minimum, maximum and
    standard deviation, and hold no median.  For the means 20, 25, 30: count
    3, mean 25, minimum 20, maximum 30 in both tools (median 25 in the area
    tool). *)
Theorem overall_statistics (ts tsp : list Feature) :
  Forall (observation "LST_mean") ts ->
  Forall (observation "LST") tsp ->
  valid_means "LST_mean" ts <> [] ->
  valid_means "LST" tsp <> [] ->
  (summarizes (Area.stats (Area.validTimeSeries ts)) (valid_means "LST_mean" ts) /\
   has_median (Area.stats (Area.validTimeSeries ts)) (valid_means "LST_mean" ts)) /\
  (summarizes (Point.stats tsp) (valid_means "LST" tsp) /\
   Point.stats tsp !! "median" = None) /\
  (valid_means "LST_mean" Sample.three = [20.0; 25.0; 30.0]%Q /\
   valid_means "LST" Sample.three = [20.0; 25.0; 30.0]%Q /\
   Area.stats (Area.validTimeSeries Sample.three) !! "count" = Some (VInt 3) /\
   Point.stats Sample.three !! "count" = Some (VInt 3) /\
   (exists m, Area.stats (Area.validTimeSeries Sample.three) !! "mean" = Some (VNum m) /\
              Point.stats Sample.three !! "mean" = Some (VNum m) /\ (m == 25.0)%Q) /\
   (exists m, Area.stats (Area.validTimeSeries Sample.three) !! "min" = Some (VNum m) /\
              Point.stats Sample.three !! "min" = Some (VNum m) /\ (m == 20.0)%Q) /\
   (exists m, Area.stats (Area.validTimeSeries Sample.three) !! "max" = Some (VNum m) /\
              Point.stats Sample.three !! "max" = Some (VNum m) /\ (m == 30.0)%Q) /\
   (exists m, Area.stats (Area.validTimeSeries Sample.three) !! "median" = Some (VNum m) /\
              (m == 25.0)%Q)).
Proof.
  intros Hobs Hobsp Hvs Hvsp. split; [split|split; [split|]].
  - eapply reducers_summarize; try reflexivity; [apply area_valid_numbers|done|].
    rewrite <- area_valid_numbers, numbers_removeAll_VNull.
    apply removeAll_numbers_length, aggregate_array_observations.
    by apply Forall_List_filter.
  - unfold has_median.
    exists (median (valid_means "LST_mean" ts)), (sort (valid_means "LST_mean" ts)).
    split; [|split; [apply sort_perm|split; [apply sort_sorted|done]]].
    assert (Hm : Area.stats (Area.validTimeSeries ts) !! "median" =
                 Some (reduce Reducer_median
                         (removeAll [VNull]
                            (aggregate_array "LST_mean" (Area.validTimeSeries ts)))))
      by reflexivity.
    rewrite Hm. unfold reduce. rewrite area_valid_numbers.
    by destruct (valid_means "LST_mean" ts).
  - eapply reducers_summarize; try reflexivity; [apply point_valid_numbers|done|].
    rewrite <- point_valid_numbers, numbers_removeAll_VNull.
    by apply removeAll_numbers_length, aggregate_array_observations.
  - reflexivity.
  - split; [reflexivity|]. split; [reflexivity|]. split; [reflexivity|].
    split; [reflexivity|].
    repeat split; eexists; (split; [reflexivity|]); try (split; [reflexivity|]); reflexivity.
Qed.

(** ** Buckets *)

Lemma Zsum_filter_cons {A B} (P : B -> A -> bool) (bs : list B) (x : A) (l : list A) :
  Zsum ((fun b => Z.of_nat (length (List.filter (P b) (x :: l)))) <$> bs) =
  Z.of_nat (length (List.filter (fun b => P b x) bs)) +
  Zsum ((fun b => Z.of_nat (length (List.filter (P b) l))) <$> bs).
Proof.
  induction bs as [|b bs IH]; [done|].
  rewrite !fmap_cons.
  change (Zsum (?a :: ?k)) with (a + Zsum k). rewrite IH.
  cbn [List.filter]. destruct (P b x); cbn [length]; lia.
Qed.

Lemma bucket_count_sum {A B} (P : B -> A -> bool) (bs : list B) (l : list A) :
  (forall x, x ∈ l -> length (List.filter (fun b => P b x) bs) = 1%nat) ->
  Zsum ((fun b => Z.of_nat (length (List.filter (P b) l))) <$> bs) = Z.of_nat (length l).
Proof.
  induction l as [|x l IH]; intros Hone.
  - clear Hone. induction bs as [|b bs IHb]; [done|].
    rewrite fmap_cons. change (Zsum (?a :: ?k)) with (a + Zsum k). by rewrite IHb.
  - rewrite Zsum_filter_cons, (Hone x) by apply list_elem_of_here.
    rewrite IH; [simpl length; lia|].
    intros y Hy. by apply Hone, list_elem_of_further.
Qed.

Lemma Forall_filter_true {A} (p : A -> bool) l :
  Forall (fun x => p x = true) (List.filter p l).
Proof.
  induction l as [|x l IH]; simpl; [constructor|].
  destruct (p x) eqn:Hp; [by constructor|done].
Qed.

(** A bucket of valid records counts every record of the bucket. *)
Lemma valid_bucket_count (ts : list Feature) (p : Feature -> bool) :
  size (removeAll [VNull]
          (aggregate_array "LST_mean" (List.filter p (Area.validTimeSeries ts)))) =
  VInt (Z.of_nat (length (List.filter p (Area.validTimeSeries ts)))).
Proof.
  unfold size. f_equal. f_equal. apply removeAll_VNull_length.
  apply Forall_List_filter, Forall_filter_true.
Qed.

Ltac cases_between lo hi m :=
  let rec go k n :=
    lazymatch n with
    | O => exfalso; lia
    | S ?n' =>
        let Hk := fresh "Hk" in
        destruct (Z.eq_dec m k) as [Hk|Hk];
        [subst m|let k' := eval cbv in (k + 1) in go k' n']
    end in
  let n := eval cbv in (Z.to_nat (hi - lo + 1)) in
  go lo n.

Lemma one_month m :
  1 <= m <= 12 ->
  length (List.filter (fun month => value_eqb (VInt m) month) Area.months) = 1%nat /\
  length (List.filter (fun season : string * list Value =>
                         existsb (value_eqb (VInt m)) season.2) Area.seasons) = 1%nat.
Proof. intros Hm. cases_between 1 12 m; split; reflexivity. Qed.

Lemma one_year y :
  2014 <= y <= 2023 ->
  length (List.filter (fun year => value_eqb (VInt y) year) Area.years) = 1%nat.
Proof. intros Hy. cases_between 2014 2023 y; reflexivity. Qed.

Section BucketFacts.
Context `{GeoEngine}.

(** The grouping keys of the records of an extracted time series. *)
Lemma series_record_keys scale geometry images (ts : list Feature) r :
  Area.lstTimeSeries scale geometry images = Some ts ->
  r ∈ ts ->
  exists image, image ∈ images /\
    prop "month" r = VInt (date_month (time_start image)) /\
    prop "year" r = VInt (date_year (time_start image)) /\
    observation "LST_mean" r.
Proof.
  intros HF%mapM_Some (i & Hi)%list_elem_of_lookup.
  destruct (Forall2_lookup_r _ _ _ _ _ HF Hi) as (image & Himg & Hex).
  apply Area_extractLST_Some in Hex as (b & _ & ->).
  exists image. split; [by eapply list_elem_of_lookup_2|].
  split; [done|]. split; [done|].
  unfold observation. cbv zeta.
  destruct (region_values ("LST", b) geometry scale); [by left|right; by eexists].
Qed.

(** Extracted records are observation records. *)
Lemma area_series_observations scale geometry images (ts : list Feature) :
  Area.lstTimeSeries scale geometry images = Some ts ->
  Forall (observation "LST_mean") ts.
Proof.
  intros Hts. apply Forall_forall. intros r Hr.
  by destruct (series_record_keys _ _ _ _ _ Hts Hr) as (_ & _ & _ & _ & ?).
Qed.

Lemma point_series_observations scale buffer_ images (ts : list Feature) :
  Point.lstTimeSeries scale buffer_ images = Some ts ->
  Forall (observation "LST") ts.
Proof.
  intros HF%mapM_Some. apply Forall_forall. intros r (i & Hi)%list_elem_of_lookup.
  destruct (Forall2_lookup_r _ _ _ _ _ HF Hi) as (image & _ & Hex).
  apply Point_extractLST_Some in Hex as (b & _ & ->).
  unfold observation.
  destruct (region_values ("LST", b) buffer_ scale); [by left|right; by eexists].
Qed.

(** A valid record of an extracted time series dated in the configured
    range matches one month, one year and one season. *)
Lemma record_buckets scale geometry images (ts : list Feature) :
  Area.lstTimeSeries scale geometry images = Some ts ->
  Forall (fun image => Config.startDate <= time_start image < Config.endDate) images ->
  forall r, r ∈ Area.validTimeSeries ts ->
    length (List.filter (fun month => Filter_eq "month" month r) Area.months) = 1%nat /\
    length (List.filter (fun year => Filter_eq "year" year r) Area.years) = 1%nat /\
    length (List.filter (fun season : string * list Value =>
                           Filter_inList "month" season.2 r) Area.seasons) = 1%nat.
Proof.
  intros Hts Hrange r Hr. unfold Area.validTimeSeries in Hr.
  apply list_elem_of_In, filter_In in Hr as [Hr%list_elem_of_In _].
  destruct (series_record_keys _ _ _ _ _ Hts Hr) as (image & Himg & Hm & Hy & _).
  rewrite Forall_forall in Hrange. apply Hrange in Himg.
  unfold Filter_eq, Filter_inList. rewrite Hm, Hy.
  destruct (one_month (date_month (time_start image))) as [H1 H2];
    [apply civil_month_day_range|].
  split; [exact H1|]. split; [|exact H2].
  by apply one_year, config_range_year.
Qed.

(** When every valid record matches one bucket of each family, the counts
    of each family sum to the number of valid records. *)
Lemma bucket_sums (ts : list Feature) :
  let valid := Area.validTimeSeries ts in
  (forall r, r ∈ valid ->
     length (List.filter (fun month => Filter_eq "month" month r) Area.months) = 1%nat /\
     length (List.filter (fun year => Filter_eq "year" year r) Area.years) = 1%nat /\
     length (List.filter (fun season : string * list Value =>
                            Filter_inList "month" season.2 r) Area.seasons) = 1%nat) ->
  Zsum (count_of <$> Area.monthlyStats valid) = Z.of_nat (length valid) /\
  Zsum (count_of <$> Area.yearlyLST valid) = Z.of_nat (length valid) /\
  Zsum ((fun rep => int_of (Area.season_count rep)) <$> Area.seasonal valid) =
    Z.of_nat (length valid).
Proof.
  intros valid Hone. split; [|split].
  - unfold Area.monthlyStats. rewrite <- list_fmap_compose.
    rewrite <- (bucket_count_sum (fun month r => Filter_eq "month" month r) Area.months valid)
      by (intros r Hr; by apply Hone).
    f_equal. apply list_fmap_ext. intros _ month _. simpl.
    change (count_of _) with
      (int_of (size (removeAll [VNull]
                       (aggregate_array "LST_mean"
                          (List.filter (Filter_eq "month" month) valid))))).
    unfold valid. by rewrite valid_bucket_count.
  - unfold Area.yearlyLST. rewrite <- list_fmap_compose.
    rewrite <- (bucket_count_sum (fun year r => Filter_eq "year" year r) Area.years valid)
      by (intros r Hr; by apply Hone).
    f_equal. apply list_fmap_ext. intros _ year _. simpl.
    change (count_of _) with
      (int_of (size (removeAll [VNull]
                       (aggregate_array "LST_mean"
                          (List.filter (Filter_eq "year" year) valid))))).
    unfold valid. by rewrite valid_bucket_count.
  - unfold Area.seasonal. rewrite <- list_fmap_compose.
    rewrite <- (bucket_count_sum
                  (fun (season : string * list Value) r => Filter_inList "month" season.2 r)
                  Area.seasons valid)
      by (intros r Hr; by apply Hone).
    f_equal. apply list_fmap_ext. intros _ season _.
    unfold compose. cbn [Area.season_count].
    unfold valid, Area.seasonData. by rewrite valid_bucket_count.
Qed.

(** C6: for the time series extracted from images dated in the configured
    range, every valid record belongs to exactly one of the 12 month
    buckets, exactly one of the 10 year buckets (2014 to 2023) and exactly
    one of the 4 season buckets, and the monthly counts, the yearly counts
    and the seasonal counts each sum to the number of valid records. *)
Theorem bucket_partition (scale : Z) (geometry : Geometry) (images : list Image)
    (ts : list Feature) :
  Area.lstTimeSeries scale geometry images = Some ts ->
  Forall (fun image => Config.startDate <= time_start image < Config.endDate) images ->
  let valid := Area.validTimeSeries ts in
  (forall r, r ∈ valid ->
     length (List.filter (fun month => Filter_eq "month" month r) Area.months) = 1%nat /\
     length (List.filter (fun year => Filter_eq "year" year r) Area.years) = 1%nat /\
     length (List.filter (fun season : string * list Value =>
                            Filter_inList "month" season.2 r) Area.seasons) = 1%nat) /\
  (length (Area.monthlyStats valid) = 12%nat /\
   length (Area.yearlyLST valid) = 10%nat /\
   length (Area.seasonal valid) = 4%nat) /\
  Zsum (count_of <$> Area.monthlyStats valid) = Z.of_nat (length valid) /\
  Zsum (count_of <$> Area.yearlyLST valid) = Z.of_nat (length valid) /\
  Zsum ((fun rep => int_of (Area.season_count rep)) <$> Area.seasonal valid) =
    Z.of_nat (length valid).
Proof.
  intros Hts Hrange valid.
  pose proof (record_buckets _ _ _ _ Hts Hrange) as Hone.
  split; [exact Hone|]. split; [done|]. by apply bucket_sums.
Qed.

(** X12: a run of the area tool as configured: whatever the catalog and
    the geometry, the counts of the monthly rows, of the yearly rows and of
    the seasonal reports each sum to the number of valid records of the
    report. *)
Lemma configured_run_partition (ImageCollection : string -> list Image)
    (geometry : Geometry) (report : Area.Report) :
  Area.analyzeLSTForArea Config.startDate Config.endDate Config.scale ImageCollection geometry
    = Some report ->
  Zsum (count_of <$> Area.rep_monthlyStats report)
    = Z.of_nat (length (Area.rep_validTimeSeries report)) /\
  Zsum (count_of <$> Area.rep_yearlyLST report)
    = Z.of_nat (length (Area.rep_validTimeSeries report)) /\
  Zsum ((fun rep => int_of (Area.season_count rep)) <$> Area.rep_seasonal report)
    = Z.of_nat (length (Area.rep_validTimeSeries report)).
Proof.
  unfold Area.analyzeLSTForArea.
  destruct (Area.allLandsat _ _ _ _) as [images|] eqn:Hall; [|done]. simpl.
  destruct (Area.lstTimeSeries _ _ _) as [ts|] eqn:Hts; [|done]. simpl.
  intros [= <-]. cbn [Area.rep_monthlyStats Area.rep_yearlyLST Area.rep_seasonal
                      Area.rep_validTimeSeries].
  apply Area_allLandsat_built, built_in_range in Hall.
  apply bucket_sums. by eapply record_buckets.
Qed.

End BucketFacts.

Section AggregatorFacts.
Context `{GeoEngine}.


Lemma elem_of_List_filter {A} (p : A -> bool) l x :
  x ∈ List.filter p l <-> x ∈ l /\ p x = true.
Proof. by rewrite !list_elem_of_In, filter_In. Qed.

(** C4 (amended): in the area tool the valid time series is the records
    with a non-null LST mean, and the monthly, yearly and seasonal groupings
    select from that same series, so their inputs hold no null record; the
    report is computed from it throughout.  In the point tool the yearly
    grouping selects from the unfiltered time series, and its mean is taken
    over the non-null values of the selection. *)
Theorem groupings_inputs (ts : list Feature) :
  (forall r, r ∈ Area.validTimeSeries ts <-> r ∈ ts /\ prop "LST_mean" r <> VNull) /\
  (forall month r, r ∈ Area.monthData (Area.validTimeSeries ts) month <->
     (r ∈ ts /\ prop "LST_mean" r <> VNull) /\ Filter_eq "month" month r = true) /\
  (forall year r, r ∈ Area.yearData (Area.validTimeSeries ts) year <->
     (r ∈ ts /\ prop "LST_mean" r <> VNull) /\ Filter_eq "year" year r = true) /\
  (forall season r, r ∈ Area.seasonData (Area.validTimeSeries ts) season <->
     (r ∈ ts /\ prop "LST_mean" r <> VNull) /\ Filter_inList "month" season.2 r = true) /\
  (forall startDate endDate scale ImageCollection geometry report,
     Area.analyzeLSTForArea startDate endDate scale ImageCollection geometry = Some report ->
     let valid := Area.validTimeSeries (Area.rep_lstTimeSeries report) in
     Area.rep_validTimeSeries report = valid /\
     Area.rep_stats report = Area.stats valid /\
     Area.rep_monthlyStats report = Area.monthlyStats valid /\
     Area.rep_yearlyLST report = Area.yearlyLST valid /\
     Area.rep_seasonal report = Area.seasonal valid) /\
  (forall year r, r ∈ Point.yearData ts year <-> r ∈ ts /\ Filter_eq "year" year r = true) /\
  (forall k year, Point.years !! k = Some year ->
     exists row, Point.yearlyLST ts !! k = Some row /\
       row !! "yearly_mean_LST" =
         Some (reduce Reducer_mean (VNum <$> valid_means "LST" (Point.yearData ts year)))) /\
  (forall startDate endDate bufferSize scale ImageCollection point report,
     Point.analyzeLSTAtPoint startDate endDate bufferSize scale ImageCollection point
       = Some report ->
     Point.rep_stats report = Point.stats (Point.rep_lstTimeSeries report) /\
     Point.rep_yearlyLST report = Point.yearlyLST (Point.rep_lstTimeSeries report)).
Proof.
  assert (Hvalid : forall r,
            r ∈ Area.validTimeSeries ts <-> r ∈ ts /\ prop "LST_mean" r <> VNull).
  { intros r. unfold Area.validTimeSeries. by rewrite elem_of_List_filter, Filter_neq_VNull. }
  split; [exact Hvalid|].
  split; [intros month r; unfold Area.monthData; by rewrite elem_of_List_filter, Hvalid|].
  split; [intros year r; unfold Area.yearData; by rewrite elem_of_List_filter, Hvalid|].
  split; [intros season r; unfold Area.seasonData; by rewrite elem_of_List_filter, Hvalid|].
  split; [|split; [|split]].
  - intros startDate endDate scale ImageCollection geometry report.
    unfold Area.analyzeLSTForArea.
    destruct (Area.allLandsat _ _ _ _) as [images|]; [|done]. simpl.
    destruct (Area.lstTimeSeries _ _ _) as [series|]; [|done]. simpl.
    by intros [= <-].
  - intros year r. unfold Point.yearData. by rewrite elem_of_List_filter.
  - intros k year Hk. eexists. split.
    + unfold Point.yearlyLST. rewrite list_lookup_fmap, Hk. reflexivity.
    + unfold aggregate_mean, reduce.
      by rewrite numbers_VNum, numbers_aggregate_array.
  - intros startDate endDate bufferSize scale ImageCollection point report.
    unfold Point.analyzeLSTAtPoint.
    destruct (Point.allLandsat _ _ _ _) as [images|]; [|done]. simpl.
    destruct (Point.lstTimeSeries _ _ _) as [series|]; [|done]. simpl.
    by intros [= <-].
Qed.

End AggregatorFacts.

(* ===================================================================== *)
(** * More properties: cloud mask, derivation and reducer inputs *)
(* ===================================================================== *)

Section MaskFacts.
Context `{GeoEngine}.

Lemma band_names_updateMask image m : band_names (updateMask image m) = band_names image.
Proof.
  unfold band_names, updateMask. cbn [bands].
  rewrite <- list_fmap_compose. by apply list_fmap_ext.
Qed.

Lemma to_dbl_updateMask m b :
  to_dbl (band_updateMask m b) = imap (px_updateMask m) (to_dbl b).
Proof.
  destruct b as [px|px]; simpl; [|done].
  apply list_eq. intros i.
  rewrite list_lookup_fmap, !list_lookup_imap, list_lookup_fmap.
  by destruct (px !! i).
Qed.

Lemma band_updateMask_absorb m m' b :
  (forall i, mask_set m i = true -> mask_set m' i = true) ->
  band_updateMask m' (band_updateMask m b) = band_updateMask m b.
Proof.
  intros Hm.
  assert (Hpx : forall A (px : list (Pixel A)),
            imap (px_updateMask m') (imap (px_updateMask m) px) = imap (px_updateMask m) px).
  { intros A px. apply list_eq. intros i. rewrite !list_lookup_imap.
    destruct (px !! i) as [p|]; [|done]. simpl. f_equal.
    unfold px_updateMask. simpl. f_equal.
    destruct (pmask p); [|done]. simpl.
    destruct (mask_set m i) eqn:E; [|done]. by rewrite (Hm i E). }
  destruct b as [px|px]; simpl; by rewrite Hpx.
Qed.

Lemma qa_clear_at_updateMask px i :
  qa_clear_at px i = true ->
  qa_clear_at (imap (px_updateMask (cloudMask_of "QA_PIXEL" px)) px) i = true.
Proof.
  unfold qa_clear_at at 2. rewrite list_lookup_imap. intros Hc.
  destruct (px !! i) as [p|] eqn:Hp.
  - simpl. rewrite mask_set_cloudMask, Hc.
    unfold qa_clear_at in Hc. rewrite Hp in Hc.
    apply andb_true_iff in Hc as [-> ->]. done.
  - unfold qa_clear_at in Hc. by rewrite Hp in Hc.
Qed.

Lemma maskClouds_None image :
  (forall px, find_band "QA_PIXEL" (bands image) <> Some (IntBand px)) ->
  maskClouds image = None.
Proof.
  intros Hno. destruct (maskClouds image) as [out|] eqn:E; [|done].
  apply maskClouds_Some in E as (px & Hqa & _). by destruct (Hno px).
Qed.

Lemma calculateLST_None image :
  find_band "ST_B10" (bands image) = None -> calculateLST image = None.
Proof. intros Hno. unfold calculateLST, select. by rewrite Hno. Qed.

(** X1: masking clouds twice is masking them once: the cloud mask computed
    from an already masked image changes nothing. *)
Theorem maskClouds_idempotent (image out : Image) :
  maskClouds image = Some out -> maskClouds out = Some out.
Proof.
  intros Hm. apply maskClouds_Some in Hm as (px & Hqa & ->).
  apply maskClouds_Some.
  exists (imap (px_updateMask (cloudMask_of "QA_PIXEL" px)) px). split.
  - unfold updateMask. cbn [bands]. by rewrite find_band_fmap, Hqa.
  - unfold updateMask. cbn [bands time_start cloud_cover footprint]. f_equal.
    rewrite <- list_fmap_compose. apply list_fmap_ext. intros k [n b] _. simpl. f_equal.
    symmetry. apply band_updateMask_absorb. intros i.
    rewrite !mask_set_cloudMask. apply qa_clear_at_updateMask.
Qed.

Lemma calibrate_updateMask m (f : Q -> Q) (px : list (Pixel Q)) :
  (fun p => mkPixel (f (pval p)) (pmask p)) <$> imap (px_updateMask m) px =
  imap (px_updateMask m) ((fun p => mkPixel (f (pval p)) (pmask p)) <$> px).
Proof.
  apply list_eq. intros i.
  rewrite list_lookup_fmap, !list_lookup_imap, list_lookup_fmap.
  by destruct (px !! i).
Qed.

(** X2: the cloud mask and the LST derivation commute: masking then
    deriving gives the same image as deriving then masking, and one order
    fails exactly when the other does. *)
Theorem maskClouds_calculateLST_commute (image : Image) :
  maskClouds image ≫= calculateLST = calculateLST image ≫= maskClouds.
Proof.
  destruct (find_band "ST_B10" (bands image)) as [st|] eqn:Hst.
  - rewrite (calculateLST_Some _ _ Hst). cbn [mbind option_bind].
    destruct (find_band "QA_PIXEL" (bands image)) as [[px|px]|] eqn:Hqa.
    + set (m := cloudMask_of "QA_PIXEL" px).
      assert (Hmask : maskClouds image = Some (updateMask image m)).
      { apply maskClouds_Some. by exists px. }
      rewrite Hmask. cbn [mbind option_bind].
      erewrite calculateLST_Some;
        [|unfold updateMask; cbn [bands]; by rewrite find_band_fmap, Hst].
      symmetry.
      match goal with |- maskClouds ?d = _ =>
        assert (Hd : maskClouds d = Some (updateMask d m)) end.
      { apply maskClouds_Some. exists px. split; [|done].
        cbn [bands]. by rewrite find_band_app, Hqa. }
      rewrite Hd. f_equal. unfold updateMask at 1.
      cbn [bands time_start cloud_cover footprint].
      rewrite band_names_updateMask. unfold updateMask.
      cbn [bands time_start cloud_cover footprint]. f_equal.
      rewrite fmap_app. f_equal. simpl. do 3 f_equal.
      rewrite to_dbl_updateMask.
      symmetry.
      exact (calibrate_updateMask m (fun v => v * 0.00341802 + 149.0 - 273.15)%Q (to_dbl st)).
    + rewrite maskClouds_None; [|intros px'; by rewrite Hqa].
      symmetry. apply maskClouds_None. intros px'. cbn [bands].
      by rewrite find_band_app, Hqa.
    + rewrite maskClouds_None; [|intros px'; by rewrite Hqa].
      symmetry. apply maskClouds_None. intros px'. cbn [bands].
      rewrite find_band_app, Hqa. simpl.
      by destruct (String.eqb _ _).
  - rewrite (calculateLST_None _ Hst). cbn [mbind option_bind].
    destruct (maskClouds image) as [masked|] eqn:Hm; [|done].
    cbn [mbind option_bind]. apply calculateLST_None.
    apply maskClouds_Some in Hm as (px & _ & ->).
    unfold updateMask. cbn [bands]. by rewrite find_band_fmap, Hst.
Qed.

(** X3: the cloud mask only changes masks: the masked image has the same
    metadata and footprint, the same bands under the same names in the same
    order, every band of the same type and size, and every pixel value as
    before, also where the pixel is now masked. *)
Theorem maskClouds_keeps_values (image out : Image) :
  maskClouds image = Some out ->
  time_start out = time_start image /\
  cloud_cover out = cloud_cover image /\
  footprint out = footprint image /\
  band_names out = band_names image /\
  (forall k name b, bands image !! k = Some (name, b) ->
     exists b', bands out !! k = Some (name, b') /\
       band_size b' = band_size b /\
       (forall px, b = IntBand px -> exists px', b' = IntBand px') /\
       (forall px, b = DblBand px -> exists px', b' = DblBand px') /\
       forall i, band_value b' i = band_value b i) /\
  (forall name, find_band name (bands out) = None <-> find_band name (bands image) = None).
Proof.
  intros Hm. apply maskClouds_Some in Hm as (px & Hqa & ->).
  set (m := cloudMask_of "QA_PIXEL" px).
  repeat split; try done.
  - apply band_names_updateMask.
  - intros k name b Hk. exists (band_updateMask m b). split; [|split; [|split; [|split]]].
    + unfold updateMask. cbn [bands]. by rewrite list_lookup_fmap, Hk.
    + destruct b; simpl; by rewrite length_imap.
    + intros px0 ->. by eexists.
    + intros px0 ->. by eexists.
    + intros i. unfold band_value. rewrite to_dbl_updateMask, list_lookup_imap.
      by destruct (to_dbl b !! i).
  - unfold updateMask. cbn [bands]. rewrite find_band_fmap.
    by destruct (find_band name (bands image)).
  - unfold updateMask. cbn [bands]. rewrite find_band_fmap. by intros ->.
Qed.

(** A processed image: success, the LST band, and the inputs of a region
    reduction over it. *)
Lemma processed_inputs (image : Image) (px : list (Pixel Z)) (st : Band)
    (geometry : Geometry) (scale : Z) :
  find_band "QA_PIXEL" (bands image) = Some (IntBand px) ->
  find_band "ST_B10" (bands image) = Some st ->
  find_band "LST" (bands image) = None ->
  exists out b,
    process image = Some out /\
    find_band "LST" (bands out) = Some b /\
    region_values ("LST", b) geometry scale = clear_inputs px st geometry scale.
Proof.
  intros Hqa Hst Hlst.
  set (m := cloudMask_of "QA_PIXEL" px).
  assert (Hmask : maskClouds image = Some (updateMask image m)).
  { apply maskClouds_Some. by exists px. }
  assert (Hst' : find_band "ST_B10" (bands (updateMask image m)) = Some (band_updateMask m st)).
  { unfold updateMask. cbn [bands]. by rewrite find_band_fmap, Hst. }
  pose proof (calculateLST_Some _ _ Hst') as Hc.
  rewrite band_names_updateMask in Hc.
  rewrite fresh_name_free in Hc by (by apply find_band_None).
  eexists _, _. split; [unfold process; rewrite Hmask; exact Hc|].
  split.
  - cbn [bands]. rewrite find_band_app.
    unfold updateMask at 1. cbn [bands]. by rewrite find_band_fmap, Hlst.
  - unfold region_values, clear_inputs. f_equal. apply list_eq. intros i.
    cbn [to_dbl snd]. rewrite to_dbl_updateMask.
    rewrite !list_lookup_imap, list_lookup_fmap, list_lookup_imap.
    destruct (to_dbl st !! i) as [p|]; [|done]. simpl.
    unfold m. by rewrite mask_set_cloudMask.
Qed.

Lemma clear_inputs_elem px st geometry scale v :
  v ∈ clear_inputs px st geometry scale ->
  exists i p, to_dbl st !! i = Some p /\ pmask p = true /\
    qa_clear_at px i = true /\ covers geometry scale i = true /\
    v = lst_of_dn (pval p).
Proof.
  unfold clear_inputs. intros (o & Ho & Hid)%list_elem_of_omap. simpl in Hid. subst o.
  apply list_elem_of_lookup in Ho as (i & Hi).
  rewrite list_lookup_imap in Hi.
  destruct (to_dbl st !! i) as [p|] eqn:Hp; [|done]. simpl in Hi.
  destruct (pmask p) eqn:E1; [|done].
  destruct (qa_clear_at px i) eqn:E2; [|done].
  destruct (covers geometry scale i) eqn:E3; [|done].
  simpl in Hi. injection Hi as <-. by exists i, p.
Qed.

(** X4: what the reducers see of a processed image.  For an image with an
    integer QA band, a thermal band and no band named LST, processing
    succeeds, the LST band can be selected, and the inputs of a region
    reduction are exactly the calibrated values of the thermal pixels that
    are unmasked, have none of the three QA flags and lie in the region, in
    pixel order: a masked, flagged or uncovered pixel never contributes. *)
Theorem process_region_inputs (image : Image) (px : list (Pixel Z)) (st : Band)
    (geometry : Geometry) (scale : Z) :
  find_band "QA_PIXEL" (bands image) = Some (IntBand px) ->
  find_band "ST_B10" (bands image) = Some st ->
  find_band "LST" (bands image) = None ->
  exists out lst,
    process image = Some out /\
    select "LST" out = Some lst /\
    region_values lst geometry scale = clear_inputs px st geometry scale /\
    (forall v, v ∈ region_values lst geometry scale ->
       exists i p, to_dbl st !! i = Some p /\ pmask p = true /\
         qa_clear_at px i = true /\ covers geometry scale i = true /\
         v = lst_of_dn (pval p)) /\
    (length (region_values lst geometry scale) <= band_size st)%nat.
Proof.
  intros Hqa Hst Hlst.
  destruct (processed_inputs image px st geometry scale Hqa Hst Hlst)
    as (out & b & Hp & Hb & Heq).
  exists out, ("LST", b). split; [done|].
  split; [unfold select; by rewrite Hb|].
  split; [exact Heq|]. rewrite Heq. split.
  - intros v. apply clear_inputs_elem.
  - unfold clear_inputs.
    assert (Hlen : forall A B (l : list (option B)) (k : list A),
              length l = length k -> (length (omap id l) <= length k)%nat).
    { intros A B l. induction l as [|o l IH]; intros [|x k] Hl; try done.
      injection Hl as Hl. specialize (IH k Hl).
      change (omap id (o :: l)) with (match o with Some y => y :: omap id l | None => omap id l end).
      destruct o; simpl; lia. }
    replace (band_size st) with (length (to_dbl st))
      by (destruct st; simpl; by rewrite ?length_fmap).
    apply Hlen. by rewrite length_imap.
Qed.

End MaskFacts.

(* ===================================================================== *)
(** * More properties: collections, runs and records *)
(* ===================================================================== *)

Lemma Qsum_nonneg (l : list Q) : Forall (fun x => (0 <= x)%Q) l -> (0 <= Qsum l)%Q.
Proof.
  induction 1 as [|x l Hx _ IH]; simpl; [apply Qle_refl|].
  rewrite <- (Qplus_0_r 0). by apply Qplus_le_compat.
Qed.

Lemma Qsquare_nonneg (x : Q) : (0 <= x * x)%Q.
Proof. destruct x as [n d]. unfold Qle. simpl. nia. Qed.

Lemma length_pos_Q {A} (x : A) (l : list A) :
  (0 < inject_Z (Z.of_nat (length (x :: l))))%Q.
Proof. unfold Qlt. simpl. lia. Qed.

Lemma variance_nonneg (l : list Q) : l <> [] -> (0 <= variance l)%Q.
Proof.
  intros Hl. unfold variance, mean at 1. rewrite length_fmap.
  destruct l as [|x l]; [done|].
  apply Qle_shift_div_l; [apply length_pos_Q|].
  rewrite Qmult_0_l. apply Qsum_nonneg, Forall_forall.
  intros y (z & -> & _)%list_elem_of_fmap. apply Qsquare_nonneg.
Qed.

Lemma filter_sublist_impl {A} (p q : A -> bool) (l : list A) :
  (forall x, p x = true -> q x = true) ->
  sublist (List.filter p l) (List.filter q l).
Proof.
  intros Hpq. induction l as [|x l IH]; simpl; [constructor|].
  destruct (p x) eqn:Hp.
  - rewrite (Hpq x Hp). by constructor.
  - destruct (q x); [by constructor|done].
Qed.

Lemma mapM_sublist {A B} (f : A -> option B) (l' l : list A) (k : list B) :
  sublist l' l -> mapM f l = Some k ->
  exists k', mapM f l' = Some k' /\ sublist k' k.
Proof.
  intros Hs. revert k. induction Hs as [|x l1 l2 Hs IH|x l1 l2 Hs IH]; intros k Hk.
  - exists []. split; [done|]. apply sublist_nil_l.
  - rewrite mapM_Some in Hk. apply Forall2_cons_inv_l in Hk as (y & k2 & Hy & Hk & ->).
    apply mapM_Some in Hk. destruct (IH _ Hk) as (k' & Hk' & Hsub).
    exists (y :: k'). split; [|by constructor].
    apply mapM_Some. constructor; [done|]. by apply mapM_Some.
  - rewrite mapM_Some in Hk. apply Forall2_cons_inv_l in Hk as (y & k2 & Hy & Hk & ->).
    apply mapM_Some in Hk. destruct (IH _ Hk) as (k' & Hk' & Hsub).
    exists k'. split; [done|]. by constructor.
Qed.

Section PipelineFacts.
Context `{GeoEngine}.

Lemma selectedb_limit geometry start_ end_ (a b : Q) image :
  (a <= b)%Q ->
  selectedb geometry start_ end_ a image = true ->
  selectedb geometry start_ end_ b image = true.
Proof.
  intros Hab. rewrite !selectedb_spec.
  intros (Hi & Hd & cc & Hcc & Hlt). split; [done|]. split; [done|].
  exists cc. split; [done|]. by eapply Qlt_le_trans.
Qed.

(** X6: the images the point tool analyses are among those the area tool
    analyses for the same geometry and dates, in the same order: the point
    tool's cloud-cover limit (20) is the stricter one. *)
Theorem point_collection_within_area (startDate endDate : Z)
    (ImageCollection : string -> list Image) (geometry : Geometry) (built : list Image) :
  Area.allLandsat startDate endDate ImageCollection geometry = Some built ->
  exists built_point,
    Point.allLandsat startDate endDate ImageCollection geometry = Some built_point /\
    sublist built_point built /\
    (length built_point <= length built)%nat /\
    forall image, image ∈ built_point -> image ∈ built.
Proof.
  intros Hb. apply Area_allLandsat_built in Hb as [(l8 & l9 & H8 & H9 & ->) _].
  assert (Hlim : forall image,
            selectedb geometry startDate endDate 20 image = true ->
            selectedb geometry startDate endDate 30 image = true).
  { intros image. by apply selectedb_limit. }
  destruct (mapM_sublist _ _ _ _
              (filter_sublist_impl _ _ (ImageCollection "LANDSAT/LC08/C02/T1_L2") Hlim) H8)
    as (p8 & Hp8 & Hs8).
  destruct (mapM_sublist _ _ _ _
              (filter_sublist_impl _ _ (ImageCollection "LANDSAT/LC09/C02/T1_L2") Hlim) H9)
    as (p9 & Hp9 & Hs9).
  exists (merge p8 p9).
  assert (Hsub : sublist (merge p8 p9) (merge l8 l9)) by (by apply sublist_app).
  split; [|split; [done|split]].
  - unfold Point.allLandsat, Point.landsat8, Point.landsat9. rewrite !source_chain.
    by rewrite Hp8, Hp9.
  - by apply sublist_length.
  - intros image Hin. by eapply elem_of_sublist.
Qed.

Lemma process_None image : ~ well_formed image -> process image = None.
Proof.
  intros Hwf. unfold process.
  destruct (find_band "ST_B10" (bands image)) as [st|] eqn:Hst.
  - rewrite maskClouds_None; [done|]. intros px Hqa. apply Hwf.
    split; [by exists px|by exists st].
  - destruct (maskClouds image) as [masked|] eqn:Hm; [|done].
    cbn [mbind option_bind]. apply calculateLST_None.
    apply maskClouds_Some in Hm as (px & _ & ->).
    unfold updateMask. cbn [bands]. by rewrite find_band_fmap, Hst.
Qed.

End PipelineFacts.

Section RunFacts.
Context `{GeoEngine}.

Lemma process_is_Some_iff image : is_Some (process image) <-> well_formed image.
Proof.
  split.
  - intros [out Hp]. unfold process in Hp.
    destruct (maskClouds image) as [masked|] eqn:Hm; [|done].
    cbn [mbind option_bind] in Hp.
    apply maskClouds_Some in Hm as (px & Hqa & ->).
    split; [by exists px|].
    apply calculateLST_inv in Hp as (st & Hst & _).
    unfold updateMask in Hst. cbn [bands] in Hst. rewrite find_band_fmap in Hst.
    by destruct (find_band "ST_B10" (bands image)).
  - intros [[px Hqa] [st Hst]]. by eapply process_Some.
Qed.

Lemma sources_processed_iff geometry start_ end_ limit (source8 source9 : list Image) :
  (exists l8 l9,
     mapM process (List.filter (selectedb geometry start_ end_ limit) source8) = Some l8 /\
     mapM process (List.filter (selectedb geometry start_ end_ limit) source9) = Some l9) <->
  (forall image, image ∈ source8 \/ image ∈ source9 ->
     selected geometry start_ end_ limit image -> well_formed image).
Proof.
  split.
  - intros (l8 & l9 & H8 & H9) image Hin Hsel.
    apply process_is_Some_iff.
    assert (H8' : is_Some (mapM process
                    (List.filter (selectedb geometry start_ end_ limit) source8)))
      by (by eexists).
    assert (H9' : is_Some (mapM process
                    (List.filter (selectedb geometry start_ end_ limit) source9)))
      by (by eexists).
    rewrite mapM_is_Some, Forall_forall in H8'.
    rewrite mapM_is_Some, Forall_forall in H9'.
    destruct Hin as [Hin|Hin]; [apply H8'|apply H9'];
      by apply elem_of_filter_selected.
  - intros Hwf.
    assert (Hs : forall source, (forall image, image ∈ source -> image ∈ source8 \/ image ∈ source9) ->
              is_Some (mapM process
                         (List.filter (selectedb geometry start_ end_ limit) source))).
    { intros source Hsub. apply mapM_is_Some, Forall_forall.
      intros image [Hin Hsel]%elem_of_filter_selected.
      apply process_is_Some_iff, Hwf; [by apply Hsub|done]. }
    destruct (Hs source8) as [l8 H8]; [by left|].
    destruct (Hs source9) as [l9 H9]; [by right|].
    by exists l8, l9.
Qed.

Lemma Area_lstTimeSeries_built scale source8 source9 geometry start_ end_ limit region built :
  built_from source8 source9 geometry start_ end_ limit built ->
  is_Some (Area.lstTimeSeries scale region built).
Proof.
  intros Hb. apply mapM_is_Some, Forall_forall. intros image Hin.
  destruct (built_has_LST _ _ _ _ _ _ _ _ Hb Hin) as [b Hlst].
  eexists. apply Area_extractLST_Some. by exists b.
Qed.

Lemma Point_lstTimeSeries_built scale source8 source9 geometry start_ end_ limit region built :
  built_from source8 source9 geometry start_ end_ limit built ->
  is_Some (Point.lstTimeSeries scale region built).
Proof.
  intros Hb. apply mapM_is_Some, Forall_forall. intros image Hin.
  destruct (built_has_LST _ _ _ _ _ _ _ _ Hb Hin) as [b Hlst].
  eexists. apply Point_extractLST_Some. by exists b.
Qed.

(** X7: the analysis of either tool yields its report if and only if every
    selected image of the two sources has an integer QA band and a thermal
    band; one selected image without them makes the whole analysis an
    error, and images that are not selected never matter. *)
Theorem analysis_runs_iff_well_formed (startDate endDate bufferSize scale : Z)
    (ImageCollection : string -> list Image) (geometry : Geometry) :
  (is_Some (Area.analyzeLSTForArea startDate endDate scale ImageCollection geometry) <->
   forall image,
     image ∈ ImageCollection "LANDSAT/LC08/C02/T1_L2" \/
     image ∈ ImageCollection "LANDSAT/LC09/C02/T1_L2" ->
     selected geometry startDate endDate 30 image -> well_formed image) /\
  (is_Some (Point.analyzeLSTAtPoint startDate endDate bufferSize scale
              ImageCollection geometry) <->
   forall image,
     image ∈ ImageCollection "LANDSAT/LC08/C02/T1_L2" \/
     image ∈ ImageCollection "LANDSAT/LC09/C02/T1_L2" ->
     selected geometry startDate endDate 20 image -> well_formed image).
Proof.
  split.
  - rewrite <- sources_processed_iff. unfold Area.analyzeLSTForArea. split.
    + intros [report Hr].
      destruct (Area.allLandsat startDate endDate ImageCollection geometry)
        as [built|] eqn:Hb; [|done].
      apply Area_allLandsat_built in Hb as [(l8 & l9 & H8 & H9 & _) _]. by exists l8, l9.
    + intros (l8 & l9 & H8 & H9).
      assert (Hb : Area.allLandsat startDate endDate ImageCollection geometry
                   = Some (merge l8 l9)).
      { unfold Area.allLandsat, Area.landsat8, Area.landsat9. rewrite !source_chain.
        by rewrite H8, H9. }
      rewrite Hb. cbn [mbind option_bind].
      destruct (Area_lstTimeSeries_built scale _ _ _ _ _ _ geometry _
                  (built_from_chain _ _ _ _ _ _ _ _ H8 H9)) as [ts Hts].
      rewrite Hts. by eexists.
  - rewrite <- sources_processed_iff. unfold Point.analyzeLSTAtPoint. split.
    + intros [report Hr].
      destruct (Point.allLandsat startDate endDate ImageCollection geometry)
        as [built|] eqn:Hb; [|done].
      apply Point_allLandsat_built in Hb as [(l8 & l9 & H8 & H9 & _) _]. by exists l8, l9.
    + intros (l8 & l9 & H8 & H9).
      assert (Hb : Point.allLandsat startDate endDate ImageCollection geometry
                   = Some (merge l8 l9)).
      { unfold Point.allLandsat, Point.landsat8, Point.landsat9. rewrite !source_chain.
        by rewrite H8, H9. }
      rewrite Hb. cbn [mbind option_bind].
      destruct (Point_lstTimeSeries_built scale _ _ _ _ _ _
                  (buffer geometry bufferSize) _
                  (built_from_chain _ _ _ _ _ _ _ _ H8 H9)) as [ts Hts].
      rewrite Hts. by eexists.
Qed.

(** X8: in the time series of the area tool every record holds its pixel
    count; with a count of 0 the mean and the standard deviation are null,
    with a positive count both are numbers (the standard deviation the root
    of a non-negative variance); the valid records are exactly the records
    with a positive count. *)
Theorem valid_iff_pixels (scale : Z) (geometry : Geometry) (images : list Image)
    (ts : list Feature) :
  Area.lstTimeSeries scale geometry images = Some ts ->
  (forall r, r ∈ ts ->
     exists n : nat, r !! "LST_count" = Some (VInt (Z.of_nat n)) /\
       (n = 0%nat -> r !! "LST_mean" = Some VNull /\ r !! "LST_stdDev" = Some VNull) /\
       (n <> 0%nat -> exists m v,
          r !! "LST_mean" = Some (VNum m) /\ r !! "LST_stdDev" = Some (VSqrt v) /\
          (0 <= v)%Q)) /\
  (forall r, r ∈ Area.validTimeSeries ts <->
     r ∈ ts /\ 0 < int_of (prop "LST_count" r)).
Proof.
  intros Hts.
  assert (Hrec : forall r, r ∈ ts ->
            exists inputs : list Q,
              r !! "LST_count" = Some (VInt (Z.of_nat (length inputs))) /\
              r !! "LST_mean" = Some (Reducer_mean.2 inputs) /\
              r !! "LST_stdDev" = Some (Reducer_stdDev.2 inputs)).
  { intros r (i & Hi)%list_elem_of_lookup. apply mapM_Some in Hts.
    destruct (Forall2_lookup_r _ _ _ _ _ Hts Hi) as (image & _ & Hex).
    apply Area_extractLST_Some in Hex as (b & _ & ->). by eexists. }
  split.
  - intros r Hr. destruct (Hrec r Hr) as (inputs & Hc & Hm & Hs).
    exists (length inputs). split; [done|]. split.
    + intros Hn. destruct inputs; [|done]. by rewrite Hm, Hs.
    + intros Hn. destruct inputs as [|x inputs]; [done|].
      eexists _, _. split; [exact Hm|]. split; [exact Hs|]. by apply variance_nonneg.
  - intros r. unfold Area.validTimeSeries. rewrite elem_of_List_filter.
    split.
    + intros [Hr Hv]. split; [done|].
      destruct (Hrec r Hr) as (inputs & Hc & Hm & _).
      unfold prop. rewrite Hc. simpl.
      apply Filter_neq_VNull in Hv. unfold prop in Hv. rewrite Hm in Hv.
      destruct inputs; [done|]. simpl. lia.
    + intros [Hr Hv]. split; [done|].
      destruct (Hrec r Hr) as (inputs & Hc & Hm & _).
      apply Filter_neq_VNull. unfold prop in *. rewrite Hc in Hv. rewrite Hm.
      destruct inputs; [simpl in Hv; lia|done].
Qed.

End RunFacts.

Lemma config_doy_days :
  Zall (fun z => let doy := z - days_from_civil (civil_year z) 1 1 in
                 (0 <=? doy) && (doy <=? 365)) 16071 3652 = true.
Proof. vm_compute. reflexivity. Qed.

(** The calendar fields of a timestamp of the configured range. *)
Lemma configured_timestamp t :
  Config.startDate <= t < Config.endDate ->
  configured_day (date_year t) (date_month t) (date_day t) /\
  is_iso_date (date_format t) = true /\
  0 <= date_doy t <= 365 /\
  days_from_civil (date_year t) 1 1 + date_doy t =
    days_from_civil (date_year t) (date_month t) (date_day t).
Proof.
  intros Ht.
  pose proof (config_range_year t Ht) as Hy.
  pose proof (config_range_days t Ht) as Hd.
  pose proof (civil_roundtrip t Ht) as Hrt.
  destruct (civil_month_day_range (day_number t)) as [Hm Hday].
  split; [|split; [|split]].
  - unfold configured_day. split; [done|]. split; [done|]. split; [done|].
    change Config.startDate with (16071 * ms_per_day).
    change Config.endDate with (19723 * ms_per_day).
    unfold date_millis. rewrite Hrt. unfold ms_per_day. lia.
  - apply date_format_iso. lia.
  - pose proof (Zall_spec _ _ _ config_doy_days (day_number t) ltac:(lia)) as Hdoy.
    cbv zeta in Hdoy. apply andb_true_iff in Hdoy as [H0 H1].
    unfold date_doy, date_year. lia.
  - unfold date_doy. rewrite Hrt. lia.
Qed.

Section DateFacts.
Context `{GeoEngine}.

(** X9: in a run with the configured dates, every record of the time
    series of either tool is dated by a calendar day of 2014..2023 whose
    midnight lies in the configured range; its year, month and day fields
    are that day, its date field is that day as a ten-character ISO date,
    and (area tool) its day of year counts the days since January 1st of
    its year, from 0 to 365. *)
Theorem configured_run_dates (scale bufferSize : Z)
    (ImageCollection : string -> list Image) (geometry : Geometry) :
  (forall report,
     Area.analyzeLSTForArea Config.startDate Config.endDate scale ImageCollection geometry
       = Some report ->
     Forall (fun r => exists y m d,
               record_date r y m d /\ configured_day y m d /\
               is_iso_date (pad 4 y +:+ "-" +:+ pad 2 m +:+ "-" +:+ pad 2 d) = true /\
               exists doy, r !! "doy" = Some (VInt doy) /\ 0 <= doy <= 365 /\
                 days_from_civil y 1 1 + doy = days_from_civil y m d)
            (Area.rep_lstTimeSeries report)) /\
  (forall report,
     Point.analyzeLSTAtPoint Config.startDate Config.endDate bufferSize scale
       ImageCollection geometry = Some report ->
     Forall (fun r => exists y m d,
               record_date r y m d /\ configured_day y m d /\
               is_iso_date (pad 4 y +:+ "-" +:+ pad 2 m +:+ "-" +:+ pad 2 d) = true)
            (Point.rep_lstTimeSeries report)).
Proof.
  split.
  - intros report Hrep. unfold Area.analyzeLSTForArea in Hrep.
    destruct (Area.allLandsat _ _ _ _) as [built|] eqn:Hb; [|done].
    cbn [mbind option_bind] in Hrep.
    destruct (Area.lstTimeSeries _ _ _) as [ts|] eqn:Hts; [|done].
    cbn [mbind option_bind] in Hrep. injection Hrep as <-. cbn [Area.rep_lstTimeSeries].
    apply Area_allLandsat_built, built_in_range in Hb. rewrite Forall_forall in Hb.
    apply Forall_forall. intros r (i & Hi)%list_elem_of_lookup.
    apply mapM_Some in Hts.
    destruct (Forall2_lookup_r _ _ _ _ _ Hts Hi) as (image & Himg & Hex).
    apply Area_extractLST_Some in Hex as (b & _ & ->).
    apply list_elem_of_lookup_2, Hb in Himg.
    destruct (configured_timestamp _ Himg) as (Hday & Hiso & Hdoy & Heq).
    exists (date_year (time_start image)), (date_month (time_start image)),
           (date_day (time_start image)).
    split; [by repeat split|]. split; [done|]. split; [exact Hiso|].
    exists (date_doy (time_start image)).
    split; [reflexivity|]. split; [exact Hdoy|exact Heq].
  - intros report Hrep. unfold Point.analyzeLSTAtPoint in Hrep.
    destruct (Point.allLandsat _ _ _ _) as [built|] eqn:Hb; [|done].
    cbn [mbind option_bind] in Hrep.
    destruct (Point.lstTimeSeries _ _ _) as [ts|] eqn:Hts; [|done].
    cbn [mbind option_bind] in Hrep. injection Hrep as <-. cbn [Point.rep_lstTimeSeries].
    apply Point_allLandsat_built, built_in_range in Hb. rewrite Forall_forall in Hb.
    apply Forall_forall. intros r (i & Hi)%list_elem_of_lookup.
    apply mapM_Some in Hts.
    destruct (Forall2_lookup_r _ _ _ _ _ Hts Hi) as (image & Himg & Hex).
    apply Point_extractLST_Some in Hex as (b & _ & ->).
    apply list_elem_of_lookup_2, Hb in Himg.
    destruct (configured_timestamp _ Himg) as (Hday & Hiso & _ & _).
    exists (date_year (time_start image)), (date_month (time_start image)),
           (date_day (time_start image)).
    split; [by repeat split|]. split; [done|]. exact Hiso.
Qed.

End DateFacts.

(* ===================================================================== *)
(** * More properties: statistics *)
(* ===================================================================== *)

Lemma length_succ_Q {A} (x : A) (l : list A) :
  (inject_Z (Z.of_nat (length (x :: l))) == inject_Z (Z.of_nat (length l)) + 1)%Q.
Proof.
  cbn [length]. rewrite Nat2Z.inj_succ, <- Z.add_1_r, inject_Z_plus. reflexivity.
Qed.

Lemma Qsum_bounds (a b : Q) (l : list Q) :
  Forall (fun x => (a <= x <= b)%Q) l ->
  (a * inject_Z (Z.of_nat (length l)) <= Qsum l <= b * inject_Z (Z.of_nat (length l)))%Q.
Proof.
  induction 1 as [|x l [Hax Hxb] _ [IHa IHb]].
  - cbn. rewrite !Qmult_0_r. split; apply Qle_refl.
  - rewrite length_succ_Q. cbn [Qsum foldr]. fold (Qsum l). split; nra.
Qed.

Lemma mean_bounds (a b : Q) (l : list Q) :
  l <> [] -> Forall (fun x => (a <= x <= b)%Q) l -> (a <= mean l <= b)%Q.
Proof.
  intros Hl Hall. destruct l as [|x l]; [done|].
  destruct (Qsum_bounds a b _ Hall) as [Ha Hb].
  pose proof (length_pos_Q x l) as Hn. unfold mean. split.
  - by apply Qle_shift_div_l.
  - by apply Qle_shift_div_r.
Qed.

(** Count, mean, minimum and maximum of a list without null. *)
Lemma row_of_reducers (l : list Value) :
  length l = length (numbers l) ->
  row_summarizes (size l) (reduce Reducer_mean l) (reduce Reducer_min l)
                 (reduce Reducer_max l) (numbers l).
Proof.
  intros Hlen. unfold row_summarizes, size, reduce. rewrite Hlen. split; [done|].
  destruct (numbers l) as [|x vs] eqn:Hvs; [done|]. cbn [Reducer_mean Reducer_min Reducer_max snd on_nonempty].
  split; [|split].
  - eexists. split; [done|]. by apply mean_sum.
  - eexists. split; [done|]. apply minimum_spec.
  - eexists. split; [done|]. apply maximum_spec.
Qed.

Lemma valid_means_bucket name (p : Feature -> bool) (ts : list Feature) :
  valid_means name (List.filter p (List.filter (Filter_neq name VNull) ts)) =
  valid_means name (List.filter p ts).
Proof.
  unfold valid_means. induction ts as [|r ts IH]; [done|]. cbn [List.filter].
  destruct (Filter_neq name VNull r) eqn:Hv.
  - cbn [List.filter]. destruct (p r); [|exact IH].
    cbn [omap list_omap]. destruct (as_number (prop name r)); [by f_equal|done].
  - rewrite IH. destruct (p r); [|done].
    assert (Hn : prop name r = VNull).
    { apply value_eqb_VNull. unfold Filter_neq, Filter_eq in Hv.
      by apply negb_false_iff in Hv. }
    cbn [omap list_omap]. by rewrite Hn.
Qed.

(** The row computed for one bucket of the valid records. *)
Lemma bucket_row (ts : list Feature) (p : Feature -> bool) :
  Forall (observation "LST_mean") ts ->
  let l := removeAll [VNull]
             (aggregate_array "LST_mean" (List.filter p (Area.validTimeSeries ts))) in
  row_summarizes (size l) (reduce Reducer_mean l) (reduce Reducer_min l)
                 (reduce Reducer_max l)
                 (valid_means "LST_mean" (List.filter p ts)).
Proof.
  intros Hobs l.
  assert (Hnum : numbers l = valid_means "LST_mean" (List.filter p ts)).
  { unfold l. rewrite numbers_removeAll_VNull, numbers_aggregate_array.
    apply valid_means_bucket. }
  rewrite <- Hnum. apply row_of_reducers.
  unfold l. rewrite numbers_removeAll_VNull.
  apply removeAll_numbers_length, aggregate_array_observations.
  by do 2 apply Forall_List_filter.
Qed.

(** X11: the rows of the monthly, yearly and seasonal tables of the area
    tool.  Row [k] of the monthly table is labelled month [k+1], row [k] of
    the yearly table year [2014+k], and each row, like each seasonal
    report, holds the count, the mean, the minimum and the maximum of the
    LST means of the records of its bucket that have one (null mean,
    minimum and maximum for an empty bucket). *)
Theorem bucket_rows (ts : list Feature) :
  Forall (observation "LST_mean") ts ->
  let valid := Area.validTimeSeries ts in
  (forall k month, Area.months !! k = Some month ->
     month = VInt (Z.of_nat k + 1) /\
     exists row, Area.monthlyStats valid !! k = Some row /\
       row !! "month" = Some month /\
       row_summarizes (prop "count" row) (prop "mean_LST" row) (prop "min_LST" row)
         (prop "max_LST" row)
         (valid_means "LST_mean" (List.filter (Filter_eq "month" month) ts))) /\
  (forall k year, Area.years !! k = Some year ->
     year = VInt (2014 + Z.of_nat k) /\
     exists row, Area.yearlyLST valid !! k = Some row /\
       row !! "year" = Some year /\
       row_summarizes (prop "count" row) (prop "yearly_mean_LST" row)
         (prop "yearly_min_LST" row) (prop "yearly_max_LST" row)
         (valid_means "LST_mean" (List.filter (Filter_eq "year" year) ts))) /\
  (forall k season, Area.seasons !! k = Some season ->
     exists rep, Area.seasonal valid !! k = Some rep /\
       Area.season_name rep = season.1 +:+ ":" /\
       row_summarizes (Area.season_count rep) (Area.season_mean rep)
         (Area.season_min rep) (Area.season_max rep)
         (valid_means "LST_mean" (List.filter (Filter_inList "month" season.2) ts))).
Proof.
  intros Hobs valid. split; [|split].
  - intros k month Hk. split.
    + unfold Area.months, sequence in Hk. rewrite list_lookup_fmap in Hk.
      destruct (seq 0 _ !! k) as [j|] eqn:Hj; [|done].
      apply lookup_seq in Hj as [-> _]. simpl in Hk. injection Hk as <-. f_equal. lia.
    + eexists. split; [unfold Area.monthlyStats; by rewrite list_lookup_fmap, Hk|].
      split; [done|]. exact (bucket_row ts (Filter_eq "month" month) Hobs).
  - intros k year Hk. split.
    + unfold Area.years, sequence in Hk. rewrite list_lookup_fmap in Hk.
      destruct (seq 0 _ !! k) as [j|] eqn:Hj; [|done].
      apply lookup_seq in Hj as [-> _]. simpl in Hk. by injection Hk as <-.
    + eexists. split; [unfold Area.yearlyLST; by rewrite list_lookup_fmap, Hk|].
      split; [done|]. exact (bucket_row ts (Filter_eq "year" year) Hobs).
  - intros k season Hk.
    eexists. split; [unfold Area.seasonal; by rewrite list_lookup_fmap, Hk|].
    split; [done|]. exact (bucket_row ts (Filter_inList "month" season.2) Hobs).
Qed.

Lemma nth_bounds (lo hi : Q) (s : list Q) (k : nat) :
  Forall (fun x => (lo <= x <= hi)%Q) s -> (k < length s)%nat ->
  (lo <= nth k s 0 <= hi)%Q.
Proof.
  intros Hall Hk. rewrite Forall_forall in Hall. apply Hall.
  apply list_elem_of_In. by apply nth_In.
Qed.

Lemma middle_bounds (lo hi : Q) (s : list Q) :
  s <> [] -> Forall (fun x => (lo <= x <= hi)%Q) s -> (lo <= middle s <= hi)%Q.
Proof.
  intros Hs Hall. unfold middle.
  assert (Hpos : (0 < length s)%nat) by (destruct s; [done|simpl; lia]).
  assert (Hhalf : (length s / 2 < length s)%nat) by (apply Nat.div_lt; lia).
  destruct (Nat.even (length s)) eqn:Heven.
  - destruct (nth_bounds lo hi s (length s / 2 - 1) Hall ltac:(lia)) as [Ha1 Ha2].
    destruct (nth_bounds lo hi s (length s / 2) Hall Hhalf) as [Hb1 Hb2].
    split; [apply Qle_shift_div_l|apply Qle_shift_div_r]; lra.
  - by apply nth_bounds.
Qed.

Lemma median_bounds (lo hi : Q) (l : list Q) :
  l <> [] -> Forall (fun x => (lo <= x <= hi)%Q) l -> (lo <= median l <= hi)%Q.
Proof.
  intros Hl Hall. unfold median. apply middle_bounds.
  - intros Hs. pose proof (sort_perm l) as Hp. rewrite Hs in Hp.
    by apply Permutation_nil in Hp.
  - eapply Permutation_Forall; [|exact Hall]. symmetry. apply sort_perm.
Qed.

Lemma between_min_max (x : Q) (l : list Q) :
  Forall (fun y => (minimum x l <= y <= maximum x l)%Q) (x :: l).
Proof.
  apply Forall_forall. intros y Hy. split.
  - by apply minimum_spec.
  - by apply maximum_spec.
Qed.

(** X10: the overall statistics are consistent with each other: whenever
    some record has an LST mean, the minimum is at most the mean and the
    mean at most the maximum, the median (area tool) lies between minimum
    and maximum, and the standard deviation is the root of a non-negative
    number. *)
Theorem statistics_ordered (ts tsp : list Feature) :
  valid_means "LST_mean" ts <> [] ->
  valid_means "LST" tsp <> [] ->
  (exists lo m med hi v,
     Area.stats (Area.validTimeSeries ts) !! "min" = Some (VNum lo) /\
     Area.stats (Area.validTimeSeries ts) !! "mean" = Some (VNum m) /\
     Area.stats (Area.validTimeSeries ts) !! "median" = Some (VNum med) /\
     Area.stats (Area.validTimeSeries ts) !! "max" = Some (VNum hi) /\
     Area.stats (Area.validTimeSeries ts) !! "std" = Some (VSqrt v) /\
     (lo <= m <= hi)%Q /\ (lo <= med <= hi)%Q /\ (0 <= v)%Q) /\
  (exists lo m hi v,
     Point.stats tsp !! "min" = Some (VNum lo) /\
     Point.stats tsp !! "mean" = Some (VNum m) /\
     Point.stats tsp !! "max" = Some (VNum hi) /\
     Point.stats tsp !! "std" = Some (VSqrt v) /\
     (lo <= m <= hi)%Q /\ (0 <= v)%Q).
Proof.
  intros Hts Htsp. split.
  - pose proof (area_valid_numbers ts) as Hnum.
    destruct (valid_means "LST_mean" ts) as [|x vs] eqn:Hvs; [done|].
    exists (minimum x vs), (mean (x :: vs)), (median (x :: vs)), (maximum x vs),
           (variance (x :: vs)).
    assert (Hf : forall name (f : list Q -> Value),
              reduce (name, f)
                (removeAll [VNull]
                   (aggregate_array "LST_mean" (Area.validTimeSeries ts))) = f (x :: vs)).
    { intros name f. unfold reduce. by rewrite Hnum. }
    split; [exact (f_equal Some (Hf _ _))|].
    split; [exact (f_equal Some (Hf _ _))|].
    split; [exact (f_equal Some (Hf _ _))|].
    split; [exact (f_equal Some (Hf _ _))|].
    split; [exact (f_equal Some (Hf _ _))|].
    split; [apply mean_bounds; [done|apply between_min_max]|].
    split; [apply median_bounds; [done|apply between_min_max]|].
    by apply variance_nonneg.
  - pose proof (point_valid_numbers tsp) as Hnum.
    destruct (valid_means "LST" tsp) as [|x vs] eqn:Hvs; [done|].
    exists (minimum x vs), (mean (x :: vs)), (maximum x vs), (variance (x :: vs)).
    assert (Hf : forall name (f : list Q -> Value),
              reduce (name, f) (removeAll [VNull] (aggregate_array "LST" tsp)) = f (x :: vs)).
    { intros name f. unfold reduce. by rewrite Hnum. }
    split; [exact (f_equal Some (Hf _ _))|].
    split; [exact (f_equal Some (Hf _ _))|].
    split; [exact (f_equal Some (Hf _ _))|].
    split; [exact (f_equal Some (Hf _ _))|].
    split; [apply mean_bounds; [done|apply between_min_max]|].
    by apply variance_nonneg.
Qed.

Section RangeFacts.
Context `{GeoEngine}.

Lemma clear_inputs_uint16 px st geometry scale :
  uint16_band st ->
  Forall (fun v => (lst_of_dn 0 <= v <= lst_of_dn 65535)%Q)
         (clear_inputs px st geometry scale).
Proof.
  intros (px0 & -> & Hpx). apply Forall_forall.
  intros v (i & p & Hp & _ & _ & _ & ->)%clear_inputs_elem.
  cbn [to_dbl] in Hp. rewrite list_lookup_fmap in Hp.
  destruct (px0 !! i) as [p0|] eqn:Hp0; [|done]. simpl in Hp. injection Hp as <-.
  cbn [pval]. rewrite Forall_forall in Hpx.
  destruct (Hpx p0 (list_elem_of_lookup_2 _ _ _ Hp0)) as [H0 H1].
  rewrite Zle_Qle in H0, H1. unfold lst_of_dn.
  change (inject_Z 0) with 0%Q in H0. change (inject_Z 65535) with 65535%Q in H1.
  split; lra.
Qed.

(** X5: the range of the reported temperatures.  For an image whose
    thermal band holds unsigned 16-bit digital numbers, the mean that
    either tool records for the processed image is null or a number from
    -124.15 up to (not including) 99.85 degrees Celsius, whatever the
    region. *)
Theorem lst_mean_range (image : Image) (px : list (Pixel Z)) (st : Band)
    (geometry : Geometry) (scale : Z) :
  find_band "QA_PIXEL" (bands image) = Some (IntBand px) ->
  find_band "ST_B10" (bands image) = Some st ->
  find_band "LST" (bands image) = None ->
  uint16_band st ->
  exists out ra rp,
    process image = Some out /\
    Area.extractLST scale geometry out = Some ra /\
    Point.extractLST scale geometry out = Some rp /\
    (ra !! "LST_mean" = Some VNull \/
     exists m, ra !! "LST_mean" = Some (VNum m) /\ (-124.15 <= m)%Q /\ (m < 99.85)%Q) /\
    (rp !! "LST" = Some VNull \/
     exists m, rp !! "LST" = Some (VNum m) /\ (-124.15 <= m)%Q /\ (m < 99.85)%Q) /\
    rp !! "LST" = ra !! "LST_mean".
Proof.
  intros Hqa Hst Hlst Hu.
  destruct (processed_inputs image px st geometry scale Hqa Hst Hlst)
    as (out & b & Hp & Hb & Heq).
  pose proof (clear_inputs_uint16 px st geometry scale Hu) as Hall.
  eexists out, _, _. split; [done|].
  split; [apply Area_extractLST_Some; exists b; split; [done|reflexivity]|].
  split; [apply Point_extractLST_Some; exists b; split; [done|reflexivity]|].
  cbv zeta. rewrite Heq.
  assert (Hm : Reducer_mean.2 (clear_inputs px st geometry scale) = VNull \/
               exists m, Reducer_mean.2 (clear_inputs px st geometry scale) = VNum m /\
                 (-124.15 <= m)%Q /\ (m < 99.85)%Q).
  { destruct (clear_inputs px st geometry scale) as [|x l] eqn:Hin; [by left|right].
    eexists. split; [reflexivity|].
    destruct (mean_bounds _ _ (x :: l) ltac:(done) Hall) as [Hlo Hhi].
    unfold lst_of_dn in Hlo, Hhi. split; lra. }
  split; [|split; [|reflexivity]].
  - destruct Hm as [Hm|(m & Hm & Hr)]; [left|right; exists m; split; [|done]];
      by rewrite <- Hm.
  - destruct Hm as [Hm|(m & Hm & Hr)]; [left|right; exists m; split; [|done]];
      by rewrite <- Hm.
Qed.

End RangeFacts.

(* ===================================================================== *)
(** * Properties: the most recent image *)
(* ===================================================================== *)

Section RecentFacts.
Context `{GeoEngine}.

Lemma insert_descending_perm image c :
  Permutation (insert_descending image c) (image :: c).
Proof.
  induction c as [|other c IH]; simpl; [done|].
  destruct (time_start other <? time_start image); [done|].
  rewrite IH. apply perm_swap.
Qed.

Lemma sort_descending_perm c : Permutation (sort_time_start_descending c) c.
Proof.
  induction c as [|image c IH]; simpl; [done|].
  rewrite insert_descending_perm. by constructor.
Qed.

Lemma insert_descending_sorted image c :
  Sorted not_earlier c -> Sorted not_earlier (insert_descending image c).
Proof.
  induction 1 as [|other c Hs IH Hhd]; simpl; [by repeat constructor|].
  destruct (Z.ltb_spec (time_start other) (time_start image)) as [Hlt|Hge].
  - constructor; [by constructor|]. constructor. unfold not_earlier. lia.
  - constructor; [exact IH|].
    destruct c as [|next c]; simpl.
    + constructor. exact Hge.
    + destruct (time_start next <? time_start image).
      * constructor. exact Hge.
      * constructor. by inversion Hhd.
Qed.

Lemma sort_descending_sorted c : Sorted not_earlier (sort_time_start_descending c).
Proof.
  induction c as [|image c IH]; simpl; [constructor|].
  by apply insert_descending_sorted.
Qed.

Lemma recentImage_spec c image :
  recentImage c = Some image ->
  image ∈ c /\ forall other, other ∈ c -> time_start other <= time_start image.
Proof.
  unfold recentImage, first. intros Hhd.
  pose proof (sort_descending_perm c) as Hperm.
  pose proof (sort_descending_sorted c) as Hsorted.
  destruct (sort_time_start_descending c) as [|x s]; [done|].
  simpl in Hhd. injection Hhd as ->.
  split.
  - rewrite <- Hperm. apply list_elem_of_here.
  - intros other Hin. rewrite <- Hperm in Hin.
    apply Sorted_StronglySorted in Hsorted;
      [|intros a b c' Hab Hbc; unfold not_earlier in *; lia].
    apply StronglySorted_inv in Hsorted as [_ Hall].
    apply elem_of_cons in Hin as [->|Hin]; [lia|].
    rewrite List.Forall_forall in Hall. by apply Hall, list_elem_of_In.
Qed.

Lemma recentImage_None c : recentImage c = None <-> c = [].
Proof.
  unfold recentImage, first. split; [|by intros ->].
  intros Hhd. pose proof (sort_descending_perm c) as Hperm.
  destruct (sort_time_start_descending c) as [|x s]; [|done].
  by apply Permutation_nil in Hperm.
Qed.

Lemma recent_of_built source8 source9 geometry start_ end_ limit built :
  built_from source8 source9 geometry start_ end_ limit built ->
  match recentImage built with
  | Some image =>
      image ∈ built /\
      (forall other, other ∈ built -> time_start other <= time_start image) /\
      start_ <= time_start image < end_ /\
      exists b, recentLayer built = Some ("LST", b)
  | None => built = [] /\ recentLayer built = None
  end.
Proof.
  intros Hb. unfold recentLayer.
  destruct (recentImage built) as [image|] eqn:Hr.
  - destruct (recentImage_spec _ _ Hr) as [Hin Hmax].
    split; [done|]. split; [done|]. split.
    + pose proof (built_in_range _ _ _ _ _ _ _ Hb) as Hrange.
      rewrite Forall_forall in Hrange. by apply Hrange.
    + destruct (built_has_LST _ _ _ _ _ _ _ _ Hb Hin) as [b Hlst].
      exists b. cbn [mbind option_bind]. unfold select. by rewrite Hlst.
  - split; [by apply recentImage_None|done].
Qed.

(** X13: the image both tools show on the map.  The most recent image is
    an image of the collection whose acquisition time is the latest; it
    exists unless the collection is empty.  For the collection either tool
    builds it is dated within the range and its LST band can be selected;
    when no image was selected there is no recent image and the layer is an
    error. *)
Theorem recentImage_latest (startDate endDate : Z)
    (ImageCollection : string -> list Image) (geometry : Geometry) :
  (forall c, recentImage c = None <-> c = []) /\
  (forall c image, recentImage c = Some image ->
     image ∈ c /\ forall other, other ∈ c -> time_start other <= time_start image) /\
  (forall built,
     Area.allLandsat startDate endDate ImageCollection geometry = Some built \/
     Point.allLandsat startDate endDate ImageCollection geometry = Some built ->
     match recentImage built with
     | Some image =>
         image ∈ built /\
         (forall other, other ∈ built -> time_start other <= time_start image) /\
         startDate <= time_start image < endDate /\
         exists b, recentLayer built = Some ("LST", b)
     | None => built = [] /\ recentLayer built = None
     end).
Proof.
  split; [apply recentImage_None|]. split; [apply recentImage_spec|].
  intros built [Hb|Hb].
  - apply Area_allLandsat_built in Hb. by eapply recent_of_built.
  - apply Point_allLandsat_built in Hb. by eapply recent_of_built.
Qed.

End RecentFacts.

(* ===================================================================== *)
(** * Properties: the upload dialog *)
(* ===================================================================== *)

Section DialogFacts.
Import Dialog.

Lemma isNaN_spec x : isNaN x = true <-> x = NaN.
Proof. by destruct x. Qed.

Lemma not_spec v : not_ v = true <-> v = None \/ v = Some "".
Proof.
  destruct v as [[|c s]|]; simpl; split; try done; auto; by intros [|].
Qed.

Lemma not_false v : not_ v = false <-> exists s, v = Some s /\ s <> "".
Proof.
  destruct v as [[|c s]|]; simpl; split; try done.
  - by intros (s & [= <-] & ?).
  - intros _. by eexists.
  - by intros (s & ? & ?).
Qed.

Lemma after_calls (page : Page) (h : Handler ()) :
  analyses (after page h) = analyses page ++ calls h.1.
Proof.
  unfold after. destruct h as [trace c]. cbn [fst]. revert page.
  induction trace as [|e trace IH]; intros page; simpl; [by rewrite app_nil_r|].
  rewrite IH. destruct e; simpl; try done. by rewrite <- app_assoc.
Qed.

Lemma after_dialog (page : Page) (h : Handler ()) :
  dialog_on_map (after page h) = dialog_on_map page && negb (removes_dialog h.1).
Proof.
  unfold after. destruct h as [trace c]. cbn [fst]. revert page.
  induction trace as [|e trace IH]; intros page; simpl; [by rewrite andb_true_r|].
  rewrite IH. destruct e; simpl; try done. by rewrite andb_false_r.
Qed.

Variable parseFloat : option string -> Number.
Variable construction_error : GeometryExpr -> option string.
Variable analysis_error : option GeometryExpr -> option string.

(** Case analysis over the paths of the load handler, in program order. *)
Ltac evaluate := cbn -[lookup examples orb].

Ltac platform_cases :=
  repeat (match goal with
          | |- context [construction_error ?g] => destruct (construction_error g) eqn:?
          | |- context [analysis_error ?g] => destruct (analysis_error g) eqn:?
          end; evaluate).

Ltac load_paths w :=
  unfold loadButton_onClick, construct, call_analyzeLSTForArea, try_catch, emit,
    return_, throw;
  destruct (String.eqb_spec (methodSelect w) "Use example data");
  [ destruct (String.eqb_spec (exampleSelect w) "Custom coordinates");
    [ destruct (isNaN (parseFloat (lonMinInput w)) || isNaN (parseFloat (latMinInput w)) ||
                isNaN (parseFloat (lonMaxInput w)) || isNaN (parseFloat (latMaxInput w)))
        eqn:?
    | ]
  | destruct (not_ (assetPathInput w)) eqn:?;
    [ | destruct (String.eqb_spec (featureSelect w) "Use all features (merged)");
        [ | destruct (String.eqb_spec (featureSelect w) "Use first feature only");
            [ | destruct (String.eqb_spec (featureSelect w) "Select by property");
                [ destruct (not_ (propertyInput w) || not_ (valueInput w)) eqn:? | ] ] ] ] ];
  evaluate; platform_cases.

(** The same with the result of the handler named first. *)
Ltac on_paths w :=
  let h := fresh "h" in
  let Hh := fresh "Hh" in
  remember (loadButton_onClick parseFloat construction_error analysis_error w) as h eqn:Hh;
  revert Hh; load_paths w; intros ->; cbn [fst snd].

(** Closing a path of the handler against facts about the inputs. *)
Ltac input_facts :=
  repeat match goal with
  | H : _ || _ = true |- _ => apply orb_true_iff in H
  | H : _ || _ = false |- _ => apply orb_false_iff in H
  | H : isNaN _ = true |- _ => apply isNaN_spec in H
  | H : not_ _ = true |- _ => apply not_spec in H
  | H : not_ _ = false |- _ => apply not_false in H as (? & ? & ?)
  | H : _ \/ _ |- _ => destruct H
  | H : _ /\ _ |- _ => destruct H
  | H : exists _, _ |- _ => destruct H
  | H : ?x = NaN, H' : isNaN ?x = false |- _ => rewrite H in H'; discriminate H'
  | H : ?v = None, H' : ?v = Some _ |- _ => rewrite H in H'; discriminate H'
  | H : ?v = Some ?a, H' : ?v = Some ?b |- _ =>
      rewrite H in H'; injection H' as H'; subst
  end;
  try congruence.

(** X14: what the load handler does with invalid input.  The click is
    turned down (the handler returns early) exactly when the chosen input
    is missing or does not parse: custom coordinates of which one is not a
    number, no asset path, or a selection by property without a name or a
    value.  Then the handler has printed one of its three error messages
    (after the loading note, when an asset path was given) and put the
    button back to green, and nothing else: the dialog stays on the map and
    no analysis is started. *)
Theorem load_click_validation (w : Widgets) :
  ((loadButton_onClick parseFloat construction_error analysis_error w).2 = Return <->
   rejected parseFloat w) /\
  (rejected parseFloat w ->
   exists notes message,
     (notes = [] \/ notes = [["Loading shapefile from:"; text (assetPathInput w)]]) /\
     message ∈ ["ERROR: Please enter valid coordinates";
                "ERROR: Please enter an asset path";
                "ERROR: Please enter both property name and value"] /\
     (loadButton_onClick parseFloat construction_error analysis_error w).1 =
       loadButton_style "white" "black" ::
       (print <$> notes) ++ [print [message]; loadButton_style "#28a745" "black"] /\
     forall page,
       after page (loadButton_onClick parseFloat construction_error analysis_error w) =
         mkPage (dialog_on_map page) "#28a745" (exampleButton_backgroundColor page)
                (console page ++ notes ++ [[message]]) (analyses page)).
Proof.
  split; [split|].
  - load_paths w; intros Hc; try discriminate Hc; unfold rejected; input_facts.
    all: first [left; by eauto 10|right; left; by eauto 10|right; right; by eauto 12].
  - unfold rejected. intros Hrej. load_paths w; try reflexivity; exfalso; input_facts.
  - unfold rejected, after. intros Hrej. on_paths w;
      try (refine (ex_intro _ [] (ex_intro _ _ (conj _ (conj _ (conj eq_refl _)))));
           [by left|rewrite !elem_of_cons; by eauto|
            intros page; cbn; by rewrite ?app_nil_r]);
      try (refine (ex_intro _ [_] (ex_intro _ _ (conj _ (conj _ (conj eq_refl _)))));
           [by right|rewrite !elem_of_cons; by eauto|
            intros page; cbn; by rewrite <- ?app_assoc]);
      exfalso; input_facts.
Qed.

(** X15: one click starts at most one analysis, and the dialog leaves the
    map exactly when an analysis is started.  Either the handler neither
    removes the dialog nor calls the analysis, or it removes the dialog,
    prints a note and calls the analysis once, in that order, and whatever
    else it does only touches the button and the console. *)
Theorem load_click_analysis_and_dialog (w : Widgets) (page : Page) :
  (calls (loadButton_onClick parseFloat construction_error analysis_error w).1 = [] /\
   removes_dialog (loadButton_onClick parseFloat construction_error analysis_error w).1
     = false /\
   analyses (after page
     (loadButton_onClick parseFloat construction_error analysis_error w)) = analyses page /\
   dialog_on_map (after page
     (loadButton_onClick parseFloat construction_error analysis_error w))
     = dialog_on_map page) \/
  (exists pre note g post,
     (loadButton_onClick parseFloat construction_error analysis_error w).1 =
       pre ++ [Map_remove_dialog; print note; analyzeLSTForArea g] ++ post /\
     forallb cosmetic pre = true /\ forallb cosmetic post = true /\
     calls (loadButton_onClick parseFloat construction_error analysis_error w).1 = [g] /\
     analyses (after page
       (loadButton_onClick parseFloat construction_error analysis_error w))
       = analyses page ++ [g] /\
     dialog_on_map (after page
       (loadButton_onClick parseFloat construction_error analysis_error w)) = false).
Proof.
  rewrite after_calls, after_dialog.
  on_paths w;
    first
      [ left; split; [reflexivity|]; split; [reflexivity|];
        by rewrite app_nil_r, andb_true_r
      | right; eexists [_], _, _, _; split; [reflexivity|];
        split; [reflexivity|]; split; [reflexivity|]; split; [reflexivity|];
        split; [reflexivity|apply andb_false_r]
      | right; eexists [_; _], _, _, _; split; [reflexivity|];
        split; [reflexivity|]; split; [reflexivity|]; split; [reflexivity|];
        split; [reflexivity|apply andb_false_r] ].
Qed.

(** X16: the geometry that is analysed.  With the example and feature
    selections among the items of their selects, the analysis is never
    called with an undefined geometry: it is the rectangle listed under the
    chosen example name, the rectangle of the four parsed numbers (none of
    them NaN) in the order min longitude, min latitude, max longitude, max
    latitude, or (asset methods, non-empty path) the geometry chosen by the
    feature selection: all features, the first feature, or the features
    whose property equals the given value, name and value both non-empty. *)
Theorem load_click_geometry (w : Widgets) (g : option GeometryExpr) :
  exampleSelect w ∈ exampleSelect_items ->
  featureSelect w ∈ featureSelect_items ->
  g ∈ calls (loadButton_onClick parseFloat construction_error analysis_error w).1 ->
  exists ge, g = Some ge /\
    ((methodSelect w = "Use example data" /\
      exampleSelect w <> "Custom coordinates" /\
      examples !! exampleSelect w = Some ge) \/
     (methodSelect w = "Use example data" /\
      exampleSelect w = "Custom coordinates" /\
      ge = Rectangle (parseFloat (lonMinInput w)) (parseFloat (latMinInput w))
                     (parseFloat (lonMaxInput w)) (parseFloat (latMaxInput w)) /\
      isNaN (parseFloat (lonMinInput w)) = false /\
      isNaN (parseFloat (latMinInput w)) = false /\
      isNaN (parseFloat (lonMaxInput w)) = false /\
      isNaN (parseFloat (latMaxInput w)) = false) \/
     (methodSelect w <> "Use example data" /\
      (exists path, assetPathInput w = Some path /\ path <> "") /\
      asset_choice w ge)).
Proof.
  unfold exampleSelect_items, featureSelect_items.
  rewrite !elem_of_cons, !elem_of_nil. intros Hex Hfs.
  on_paths w; evaluate; intros Hg;
    first [by apply elem_of_nil in Hg|apply list_elem_of_singleton in Hg as ->].
  all: first
    [ (* custom coordinates *)
      solve [ eexists; split; [reflexivity|]; right; left;
              split; [done|]; split; [done|]; split; [done|];
              repeat match goal with H : _ || _ = false |- _ =>
                       apply orb_false_iff in H as [H ?] end;
              by repeat split ]
    | (* named examples *)
      solve [ destruct Hex as [Hex|[Hex|[Hex|[Hex|[]]]]]; try congruence;
              rewrite Hex; eexists; (split; [reflexivity|]); left;
              (split; [done|]); (split; [done|reflexivity]) ]
    | (* assets *)
      solve [ eexists; split; [reflexivity|]; right; right; split; [done|];
              split; [by apply not_false|]; unfold asset_choice; by eauto 10 ]
    | (* a selection that is none of the items *)
      solve [ exfalso; destruct Hfs as [?|[?|[?|[]]]]; congruence ] ].
Qed.

(** X17: exceptions of the load handler.  With an asset method no
    exception leaves the handler: one raised while the geometry is built or
    by the analysis is caught, the five lines of the catch block are
    printed and the button is green again; when it was the analysis that
    raised, the dialog is already off the map.  With the example method
    nothing is caught: the exception leaves the handler and the button
    stays white. *)
Theorem load_click_exceptions (w : Widgets) (page : Page) :
  (methodSelect w <> "Use example data" ->
   ((loadButton_onClick parseFloat construction_error analysis_error w).2 = Normal () \/
    (loadButton_onClick parseFloat construction_error analysis_error w).2 = Return) /\
   loadButton_backgroundColor
     (after page (loadButton_onClick parseFloat construction_error analysis_error w))
     ∈ ["white"; "#28a745"] /\
   (forall ge error,
      asset_choice w ge -> not_ (assetPathInput w) = false ->
      construction_error ge = Some error ->
      (loadButton_onClick parseFloat construction_error analysis_error w).1 =
        loadButton_style "white" "black" ::
        print ["Loading shapefile from:"; text (assetPathInput w)] :: catch_trace error /\
      dialog_on_map
        (after page (loadButton_onClick parseFloat construction_error analysis_error w))
        = dialog_on_map page /\
      loadButton_backgroundColor
        (after page (loadButton_onClick parseFloat construction_error analysis_error w))
        = "#28a745") /\
   (forall g error,
      g ∈ calls (loadButton_onClick parseFloat construction_error analysis_error w).1 ->
      analysis_error g = Some error ->
      (exists pre,
         (loadButton_onClick parseFloat construction_error analysis_error w).1 =
           pre ++ analyzeLSTForArea g :: catch_trace error) /\
      dialog_on_map
        (after page (loadButton_onClick parseFloat construction_error analysis_error w))
        = false /\
      loadButton_backgroundColor
        (after page (loadButton_onClick parseFloat construction_error analysis_error w))
        = "#28a745")) /\
  (methodSelect w = "Use example data" ->
   forall error,
     (loadButton_onClick parseFloat construction_error analysis_error w).2 = Throw error ->
     loadButton_backgroundColor
       (after page (loadButton_onClick parseFloat construction_error analysis_error w))
       = "white" /\
     ((calls (loadButton_onClick parseFloat construction_error analysis_error w).1 = [] /\
       dialog_on_map
         (after page (loadButton_onClick parseFloat construction_error analysis_error w))
         = dialog_on_map page) \/
      (exists g,
         calls (loadButton_onClick parseFloat construction_error analysis_error w).1 = [g] /\
         analysis_error g = Some error /\
         dialog_on_map
           (after page (loadButton_onClick parseFloat construction_error analysis_error w))
           = false))).
Proof.
  split.
  - intros Hm. split; [|split; [|split]].
    + on_paths w; first [congruence|by left|by right].
    + unfold after. on_paths w; rewrite !elem_of_cons; first [congruence|by auto].
    + intros ge error Hch Hp Hc. unfold after. revert Hch Hp Hc. unfold asset_choice.
      on_paths w; evaluate; intros Hch Hp Hc;
        repeat match goal with
        | H : _ \/ _ |- _ => destruct H
        | H : _ /\ _ |- _ => destruct H
        end; subst;
        first [congruence|unfold catch_trace; split; [congruence|by split]].
    + intros g error. unfold after.
      on_paths w; evaluate; intros Hg Ha;
        first [by apply elem_of_nil in Hg|apply list_elem_of_singleton in Hg as ->].
      all: try congruence.
      all: simplify_eq.
      all: split; [|done].
      all: by eexists [_; _; _; _].
  - intros Hm error. unfold after.
    on_paths w; intros Hc; try discriminate Hc; try congruence.
    all: injection Hc as ->.
    all: split; [reflexivity|].
    all: first [left; by split | right; eexists; split; [reflexivity|]; by split].
Qed.

(** X18: the other two buttons.  The example button removes the dialog and
    analyses the Pokhara rectangle: the same call, with the same outcome,
    as the load button with the example method and the Pokhara example
    (the selections the dialog opens with once the example method is
    chosen).  The cancel button removes the dialog and starts no
    analysis. *)
Theorem example_button_matches_load (w : Widgets) (page : Page) :
  methodSelect w = "Use example data" ->
  exampleSelect w = "Pokhara region (Rectangle)" ->
  calls (exampleButton_onClick analysis_error).1 =
    [Some (Rectangle (Finite 83.8) (Finite 28.1) (Finite 84.1) (Finite 28.3))] /\
  calls (loadButton_onClick parseFloat construction_error analysis_error w).1 =
    calls (exampleButton_onClick analysis_error).1 /\
  (loadButton_onClick parseFloat construction_error analysis_error w).2 =
    (exampleButton_onClick analysis_error).2 /\
  dialog_on_map (after page (exampleButton_onClick analysis_error)) = false /\
  dialog_on_map
    (after page (loadButton_onClick parseFloat construction_error analysis_error w))
    = false /\
  loadButton_backgroundColor (after page (exampleButton_onClick analysis_error))
    = loadButton_backgroundColor page /\
  calls cancelButton_onClick.1 = [] /\
  dialog_on_map (after page cancelButton_onClick) = false.
Proof.
  intros Hm Ht.
  assert (Hex : examples !! "Pokhara region (Rectangle)" =
                Some (Rectangle (Finite 83.8) (Finite 28.1) (Finite 84.1) (Finite 28.3)))
    by reflexivity.
  unfold after, loadButton_onClick, exampleButton_onClick, cancelButton_onClick,
    call_analyzeLSTForArea, emit, throw.
  rewrite Hm, Ht. evaluate. rewrite Hex.
  destruct (analysis_error _); evaluate; by repeat split.
Qed.

End DialogFacts.

(* ===================================================================== *)
(** * The properties on the sample data *)
(* ===================================================================== *)

#[local] Existing Instance grid_engine.


(** The partly cloudy sample image and its masked form. *)
Lemma maskClouds_valid_iff_witness :
  maskClouds Sample.partly = Some Sample.partly_masked /\
  exists px,
    find_band "QA_PIXEL" (bands Sample.partly) = Some (IntBand px) /\
    (image_valid Sample.partly_masked 1 = true <->
       image_valid Sample.partly 1 = true /\
       exists qa, px !! 1%nat = Some qa /\
         Z.testbit (pval qa) 3 = false /\ Z.testbit (pval qa) 4 = false /\
         Z.testbit (pval qa) 2 = false).
Proof.
  split; [reflexivity|].
  destruct (maskClouds_valid_iff Sample.partly Sample.partly_masked eq_refl)
    as (px & Hqa & Hvalid & _).
  exists px. split; [exact Hqa|]. exact (Hvalid 1%nat).
Defined.

(** The clear sample image gets its LST band appended. *)
Lemma calculateLST_appends_witness :
  find_band "ST_B10" (bands Sample.clear) = Some Sample.clear_thermal /\
  find_band "LST" (bands Sample.clear) = None /\
  exists out lst,
    calculateLST Sample.clear = Some out /\
    bands out = bands Sample.clear ++ [("LST", lst)].
Proof.
  split; [reflexivity|]. split; [reflexivity|].
  destruct (calculateLST_appends Sample.clear Sample.clear_thermal eq_refl)
    as (out & name & lst & Hout & Hbands & Hname & _).
  exists out, lst. split; [exact Hout|]. rewrite <- (Hname eq_refl). exact Hbands.
Defined.

(** A second derivation on an image that has its LST band adds the new
    band under the name with the first free suffix. *)
Lemma calculateLST_twice :
  band_names <$> (calculateLST Sample.clear ≫= calculateLST) =
  Some ["ST_B10"; "QA_PIXEL"; "LST"; "LST_1"].
Proof. vm_compute. reflexivity. Qed.

(** The overcast sample image is flagged at every pixel: its LST band is
    fully masked over the sample area. *)
Lemma overcast_fully_masked :
  exists lst, select "LST" (Sample.processed Sample.overcast) = Some lst /\
              fully_masked lst Sample.area Config.scale.
Proof.
  eexists. split; [reflexivity|].
  eapply (process_overcast Sample.overcast); [reflexivity|reflexivity| |reflexivity].
  intros i _. unfold qa_clear_at.
  destruct i as [|[|[|i]]]; reflexivity.
Qed.


(** The sample time series of the area tool: three valid records. *)
Lemma bucket_partition_witness :
  Area.lstTimeSeries Config.scale Sample.area Sample.built_area = Some Sample.series_area /\
  Forall (fun image => Config.startDate <= time_start image < Config.endDate)
         Sample.built_area /\
  length (Area.validTimeSeries Sample.series_area) = 3%nat /\
  Zsum (count_of <$> Area.monthlyStats (Area.validTimeSeries Sample.series_area)) = 3 /\
  Zsum (count_of <$> Area.yearlyLST (Area.validTimeSeries Sample.series_area)) = 3 /\
  Zsum ((fun rep => int_of (Area.season_count rep))
          <$> Area.seasonal (Area.validTimeSeries Sample.series_area)) = 3.
Proof.
  assert (Hts : Area.lstTimeSeries Config.scale Sample.area Sample.built_area
                = Some Sample.series_area) by reflexivity.
  assert (Hrange : Forall (fun image => Config.startDate <= time_start image < Config.endDate)
                          Sample.built_area).
  { repeat constructor; vm_compute; congruence. }
  assert (Hlen : length (Area.validTimeSeries Sample.series_area) = 3%nat)
    by (vm_compute; reflexivity).
  split; [exact Hts|]. split; [exact Hrange|]. split; [exact Hlen|].
  destruct (bucket_partition Config.scale Sample.area Sample.built_area Sample.series_area
              Hts Hrange) as (_ & _ & Hm & Hy & Hs).
  rewrite Hlen in Hm, Hy, Hs. split; [exact Hm|]. split; [exact Hy|exact Hs].
Defined.

(** The records with the means 20, 25 and 30. *)
Lemma overall_statistics_witness :
  Forall (observation "LST_mean") Sample.three /\
  Forall (observation "LST") Sample.three /\
  valid_means "LST_mean" Sample.three <> [] /\
  valid_means "LST" Sample.three <> [] /\
  summarizes (Area.stats (Area.validTimeSeries Sample.three)) [20.0; 25.0; 30.0]%Q /\
  has_median (Area.stats (Area.validTimeSeries Sample.three)) [20.0; 25.0; 30.0]%Q /\
  summarizes (Point.stats Sample.three) [20.0; 25.0; 30.0]%Q.
Proof.
  assert (Ho : Forall (observation "LST_mean") Sample.three).
  { unfold Sample.three.
    repeat (apply List.Forall_cons; [right; eexists; reflexivity|]). apply List.Forall_nil. }
  assert (Hop : Forall (observation "LST") Sample.three).
  { unfold Sample.three.
    repeat (apply List.Forall_cons; [right; eexists; reflexivity|]). apply List.Forall_nil. }
  assert (Hn : valid_means "LST_mean" Sample.three <> []) by (vm_compute; congruence).
  assert (Hnp : valid_means "LST" Sample.three <> []) by (vm_compute; congruence).
  split; [exact Ho|]. split; [exact Hop|]. split; [exact Hn|]. split; [exact Hnp|].
  destruct (overall_statistics Sample.three Sample.three Ho Hop Hn Hnp)
    as ((Ha & Hmed) & (Hp & _) & _).
  split; [exact Ha|]. split; [exact Hmed|exact Hp].
Defined.

(** The records of the clear sample image in both tools. *)
Lemma record_fields_witness :
  Area.extractLST Config.scale Sample.area (Sample.processed Sample.clear)
    = Some Sample.clear_record_area /\
  Point.extractLST Config.scale (buffer Sample.point Config.bufferSize)
      (Sample.processed Sample.clear)
    = Some Sample.clear_record_point /\
  dom Sample.clear_record_area =
    list_to_set ["date"; "LST_mean"; "LST_stdDev"; "LST_count"; "year"; "month"; "day"; "doy"] /\
  dom Sample.clear_record_point = list_to_set ["date"; "LST"; "year"; "month"; "day"] /\
  Sample.clear_record_area !! "date" = Some (VStr "2015-07-04").
Proof.
  assert (Ha : Area.extractLST Config.scale Sample.area (Sample.processed Sample.clear)
               = Some Sample.clear_record_area) by reflexivity.
  assert (Hp : Point.extractLST Config.scale (buffer Sample.point Config.bufferSize)
                 (Sample.processed Sample.clear)
               = Some Sample.clear_record_point) by reflexivity.
  split; [exact Ha|]. split; [exact Hp|].
  destruct (record_fields Config.scale Sample.area (buffer Sample.point Config.bufferSize)
              (Sample.processed Sample.clear) _ _ Ha Hp)
    as ((Hda & Hdate & _) & (Hdp & _) & _).
  split; [exact Hda|]. split; [exact Hdp|].
  rewrite Hdate. vm_compute. reflexivity.
Defined.

(** Four images give four records in the area tool, three give three in
    the point tool. *)
Lemma one_record_per_image_witness :
  Area.allLandsat Config.startDate Config.endDate Sample.catalog Sample.area
    = Some Sample.built_area /\
  Point.allLandsat Config.startDate Config.endDate Sample.catalog Sample.point
    = Some Sample.built_point /\
  (exists ts, Area.lstTimeSeries Config.scale Sample.area Sample.built_area = Some ts /\
              length ts = 4%nat) /\
  (exists ts, Point.lstTimeSeries Config.scale (buffer Sample.point Config.bufferSize)
                Sample.built_point = Some ts /\
              length ts = 3%nat).
Proof.
  assert (Ha : Area.allLandsat Config.startDate Config.endDate Sample.catalog Sample.area
               = Some Sample.built_area) by (vm_compute; reflexivity).
  assert (Hp : Point.allLandsat Config.startDate Config.endDate Sample.catalog Sample.point
               = Some Sample.built_point) by (vm_compute; reflexivity).
  split; [exact Ha|]. split; [exact Hp|]. split.
  - destruct (proj1 (one_record_per_image Config.startDate Config.endDate Config.scale
                       Config.bufferSize Sample.catalog Sample.area) _ Ha)
      as (ts & Hts & _ & Hlen & _).
    exists ts. split; [exact Hts|exact Hlen].
  - destruct (proj2 (one_record_per_image Config.startDate Config.endDate Config.scale
                       Config.bufferSize Sample.catalog Sample.point) _ Hp)
      as (ts & Hts & _ & Hlen & _).
    exists ts. split; [exact Hts|exact Hlen].
Defined.

(** The yearly grouping of the point tool receives the record of the
    overcast image of 2015, whose LST is null. *)
Lemma point_yearly_input_has_null :
  Point.rep_lstTimeSeries
    <$> Point.analyzeLSTAtPoint Config.startDate Config.endDate Config.bufferSize Config.scale
          Sample.catalog Sample.point = Some Sample.series_point /\
  Point.yearData Sample.series_point (VInt 2015) !! 1%nat = Some Sample.overcast_record /\
  prop "LST" Sample.overcast_record = VNull.
Proof. split; [|split]; reflexivity. Qed.

(** The statistics of the point tool for the means 20, 25 and 30 hold no
    median. *)
Lemma point_stats_no_median :
  valid_means "LST" Sample.three = [20.0; 25.0; 30.0]%Q /\
  Point.stats Sample.three !! "median" = None /\
  dom (Point.stats Sample.three) = list_to_set ["count"; "mean"; "min"; "max"; "std"].
Proof. split; [|split]; vm_compute; reflexivity. Qed.

(** A record of the point tool has no standard deviation, no pixel count
    and no day of year. *)
Lemma point_record_lacks_fields :
  Point.extractLST Config.scale (buffer Sample.point Config.bufferSize)
      (Sample.processed Sample.clear)
    = Some Sample.clear_record_point /\
  dom Sample.clear_record_point = list_to_set ["date"; "LST"; "year"; "month"; "day"] /\
  Sample.clear_record_point !! "LST_stdDev" = None /\
  Sample.clear_record_point !! "LST_count" = None /\
  Sample.clear_record_point !! "doy" = None.
Proof. repeat split; vm_compute; reflexivity. Qed.

(** Masking the masked form of the partly cloudy sample image again. *)
Lemma maskClouds_idempotent_witness :
  maskClouds Sample.partly = Some Sample.partly_masked /\
  maskClouds Sample.partly_masked = Some Sample.partly_masked.
Proof.
  split; [reflexivity|].
  exact (maskClouds_idempotent Sample.partly Sample.partly_masked eq_refl).
Defined.

(** The masked sample image keeps its metadata, names and values. *)
Lemma maskClouds_keeps_values_witness :
  maskClouds Sample.partly = Some Sample.partly_masked /\
  time_start Sample.partly_masked = time_start Sample.partly /\
  band_names Sample.partly_masked = band_names Sample.partly /\
  exists b', bands Sample.partly_masked !! 0%nat = Some ("ST_B10", b') /\
    band_value b' 0 = Some 44000%Q.
Proof.
  split; [reflexivity|].
  destruct (maskClouds_keeps_values Sample.partly Sample.partly_masked eq_refl)
    as (Ht & _ & _ & Hn & Hb & _).
  split; [exact Ht|]. split; [exact Hn|].
  destruct (Hb 0%nat "ST_B10" SampleRun.partly_thermal eq_refl)
    as (b' & Hk & _ & _ & _ & Hv).
  exists b'. split; [exact Hk|]. exact (Hv 0%nat).
Defined.

(** The partly cloudy sample image over the sample area: the first pixel
    is flagged as cloud, the third is masked in the thermal band. *)
Lemma process_region_inputs_witness :
  find_band "QA_PIXEL" (bands Sample.partly) = Some (IntBand SampleRun.partly_qa) /\
  find_band "ST_B10" (bands Sample.partly) = Some SampleRun.partly_thermal /\
  find_band "LST" (bands Sample.partly) = None /\
  exists out lst,
    process Sample.partly = Some out /\
    select "LST" out = Some lst /\
    region_values lst Sample.area Config.scale = [lst_of_dn 45000].
Proof.
  split; [reflexivity|]. split; [reflexivity|]. split; [reflexivity|].
  destruct (process_region_inputs Sample.partly SampleRun.partly_qa SampleRun.partly_thermal
              Sample.area Config.scale eq_refl eq_refl eq_refl)
    as (out & lst & Hp & Hs & Hr & _).
  exists out, lst. split; [exact Hp|]. split; [exact Hs|]. exact Hr.
Defined.

(** The same image: its thermal band holds 16-bit digital numbers. *)
Lemma lst_mean_range_witness :
  uint16_band SampleRun.partly_thermal /\
  exists out ra,
    process Sample.partly = Some out /\
    Area.extractLST Config.scale Sample.area out = Some ra /\
    (ra !! "LST_mean" = Some VNull \/
     exists m, ra !! "LST_mean" = Some (VNum m) /\ (-124.15 <= m)%Q /\ (m < 99.85)%Q).
Proof.
  assert (Hu : uint16_band SampleRun.partly_thermal).
  { eexists. split; [reflexivity|]. repeat constructor; simpl; lia. }
  split; [exact Hu|].
  destruct (lst_mean_range Sample.partly SampleRun.partly_qa SampleRun.partly_thermal
              Sample.area Config.scale eq_refl eq_refl eq_refl Hu)
    as (out & ra & rp & Hp & Ha & _ & Hm & _).
  exists out, ra. split; [exact Hp|]. split; [exact Ha|]. exact Hm.
Defined.

(** The sample catalog at the sample point: the point tool leaves out the
    hazy image (cloud cover 25). *)
Lemma point_collection_within_area_witness :
  Area.allLandsat Config.startDate Config.endDate Sample.catalog Sample.point
    = Some Sample.built_area /\
  exists built_point,
    Point.allLandsat Config.startDate Config.endDate Sample.catalog Sample.point
      = Some built_point /\
    sublist built_point Sample.built_area /\
    (length built_point <= length Sample.built_area)%nat.
Proof.
  assert (Hb : Area.allLandsat Config.startDate Config.endDate Sample.catalog Sample.point
               = Some Sample.built_area) by reflexivity.
  split; [exact Hb|].
  destruct (point_collection_within_area _ _ _ _ _ Hb) as (bp & Hp & Hs & Hl & _).
  exists bp. split; [exact Hp|]. split; [exact Hs|exact Hl].
Defined.

(** The time series of the sample collection over the sample area. *)
Lemma valid_iff_pixels_witness :
  Area.lstTimeSeries Config.scale Sample.area Sample.built_area = Some Sample.series_area /\
  forall r, r ∈ Area.validTimeSeries Sample.series_area <->
    r ∈ Sample.series_area /\ 0 < int_of (prop "LST_count" r).
Proof.
  assert (Hts : Area.lstTimeSeries Config.scale Sample.area Sample.built_area
                = Some Sample.series_area) by reflexivity.
  split; [exact Hts|].
  exact (proj2 (valid_iff_pixels _ _ _ _ Hts)).
Defined.

(** The June row for the series with the means 20 (January), 25 and 30
    (June). *)
Lemma bucket_rows_witness :
  Forall (observation "LST_mean") Sample.three /\
  exists row,
    Area.monthlyStats (Area.validTimeSeries Sample.three) !! 5%nat = Some row /\
    row !! "month" = Some (VInt 6) /\
    row_summarizes (prop "count" row) (prop "mean_LST" row) (prop "min_LST" row)
      (prop "max_LST" row)
      (valid_means "LST_mean" (List.filter (Filter_eq "month" (VInt 6)) Sample.three)).
Proof.
  assert (Hobs : Forall (observation "LST_mean") Sample.three).
  { repeat (apply List.Forall_cons; [right; eexists; reflexivity|]).
    apply List.Forall_nil. }
  split; [exact Hobs|].
  destruct (bucket_rows Sample.three Hobs) as (Hm & _).
  destruct (Hm 5%nat (VInt 6) eq_refl) as (_ & row & Hrow & Hmonth & Hsum).
  exists row. split; [exact Hrow|]. split; [exact Hmonth|exact Hsum].
Defined.

(** The same series in both tools. *)
Lemma statistics_ordered_witness :
  valid_means "LST_mean" Sample.three = [20.0; 25.0; 30.0]%Q /\
  valid_means "LST" Sample.three = [20.0; 25.0; 30.0]%Q /\
  (exists lo m med hi v,
     Area.stats (Area.validTimeSeries Sample.three) !! "min" = Some (VNum lo) /\
     Area.stats (Area.validTimeSeries Sample.three) !! "mean" = Some (VNum m) /\
     Area.stats (Area.validTimeSeries Sample.three) !! "median" = Some (VNum med) /\
     Area.stats (Area.validTimeSeries Sample.three) !! "max" = Some (VNum hi) /\
     Area.stats (Area.validTimeSeries Sample.three) !! "std" = Some (VSqrt v) /\
     (lo <= m <= hi)%Q /\ (lo <= med <= hi)%Q /\ (0 <= v)%Q).
Proof.
  split; [reflexivity|]. split; [reflexivity|].
  refine (proj1 (statistics_ordered Sample.three Sample.three _ _)); discriminate.
Defined.

(** The run of the area tool on the sample catalog. *)
Lemma configured_run_partition_witness :
  Area.analyzeLSTForArea Config.startDate Config.endDate Config.scale
    Sample.catalog Sample.area = Some SampleRun.report_area /\
  Zsum (count_of <$> Area.rep_monthlyStats SampleRun.report_area)
    = Z.of_nat (length (Area.rep_validTimeSeries SampleRun.report_area)).
Proof.
  assert (Hr : Area.analyzeLSTForArea Config.startDate Config.endDate Config.scale
                 Sample.catalog Sample.area = Some SampleRun.report_area) by reflexivity.
  split; [exact Hr|].
  exact (proj1 (configured_run_partition _ _ _ Hr)).
Defined.

Section DialogSamples.
Import Dialog.

(** Custom coordinates with all four boxes filled. *)
Lemma load_click_geometry_witness :
  exampleSelect DialogSample.custom_complete ∈ exampleSelect_items /\
  featureSelect DialogSample.custom_complete ∈ featureSelect_items /\
  calls (loadButton_onClick DialogSample.readings DialogSample.no_error
           DialogSample.no_error DialogSample.custom_complete).1 =
    [Some (Rectangle (Finite 83.8) (Finite 28.1) (Finite 84.1) (Finite 28.3))] /\
  exists ge,
    Some (Rectangle (Finite 83.8) (Finite 28.1) (Finite 84.1) (Finite 28.3)) = Some ge /\
    ((methodSelect DialogSample.custom_complete = "Use example data" /\
      exampleSelect DialogSample.custom_complete <> "Custom coordinates" /\
      examples !! exampleSelect DialogSample.custom_complete = Some ge) \/
     (methodSelect DialogSample.custom_complete = "Use example data" /\
      exampleSelect DialogSample.custom_complete = "Custom coordinates" /\
      ge = Rectangle (DialogSample.readings (lonMinInput DialogSample.custom_complete))
                     (DialogSample.readings (latMinInput DialogSample.custom_complete))
                     (DialogSample.readings (lonMaxInput DialogSample.custom_complete))
                     (DialogSample.readings (latMaxInput DialogSample.custom_complete)) /\
      isNaN (DialogSample.readings (lonMinInput DialogSample.custom_complete)) = false /\
      isNaN (DialogSample.readings (latMinInput DialogSample.custom_complete)) = false /\
      isNaN (DialogSample.readings (lonMaxInput DialogSample.custom_complete)) = false /\
      isNaN (DialogSample.readings (latMaxInput DialogSample.custom_complete)) = false) \/
     (methodSelect DialogSample.custom_complete <> "Use example data" /\
      (exists path, assetPathInput DialogSample.custom_complete = Some path /\ path <> "") /\
      asset_choice DialogSample.custom_complete ge)).
Proof.
  assert (He : exampleSelect DialogSample.custom_complete ∈ exampleSelect_items).
  { do 3 apply list_elem_of_further. apply list_elem_of_here. }
  assert (Hf : featureSelect DialogSample.custom_complete ∈ featureSelect_items).
  { apply list_elem_of_here. }
  split; [exact He|]. split; [exact Hf|]. split; [reflexivity|].
  apply (load_click_geometry DialogSample.readings DialogSample.no_error
           DialogSample.no_error DialogSample.custom_complete _ He Hf).
  apply list_elem_of_here.
Defined.

(** The dialog with the example method chosen. *)
Lemma example_button_matches_load_witness :
  methodSelect DialogSample.example_chosen = "Use example data" /\
  exampleSelect DialogSample.example_chosen = "Pokhara region (Rectangle)" /\
  calls (loadButton_onClick DialogSample.readings DialogSample.no_error
           DialogSample.no_error DialogSample.example_chosen).1 =
    calls (exampleButton_onClick DialogSample.no_error).1 /\
  dialog_on_map
    (after DialogSample.opened
       (loadButton_onClick DialogSample.readings DialogSample.no_error
          DialogSample.no_error DialogSample.example_chosen)) = false.
Proof.
  split; [reflexivity|]. split; [reflexivity|].
  destruct (example_button_matches_load DialogSample.readings DialogSample.no_error
              DialogSample.no_error DialogSample.example_chosen DialogSample.opened
              eq_refl eq_refl)
    as (_ & Hc & _ & _ & Hd & _).
  split; [exact Hc|exact Hd].
Defined.

End DialogSamples.
